(** * gitsync: the origin/mirror synchronisation script

    A shallow embedding of [sync/sync-origin-and-mirror.py] and of the
    helpers of [utils/] it calls, with the properties of the change
    classifier, of the snapshot parser, of one directional pass and of the
    top-level driver.

    Conventions.
    - A Python [str] is a Rocq [string]; characters are the code points
      0..255, which is where every separator the script looks at lives.
    - A Python [int] is a [Z].
    - A Python [dict] is an association list in insertion order with
      pairwise distinct keys (the script iterates over [items()], so the
      order is observable).
    - Everything the script asks of its environment (sub-processes, the file
      system, the SSH configuration) goes through a [Host] record over an
      abstract world; calls that can raise return [exn + _]. *)

From Stdlib Require Import List String Ascii ZArith Bool Lia Sorted.
Import ListNotations.

Open Scope string_scope.
Open Scope Z_scope.

Set Implicit Arguments.

(** ** Python string methods used by the script *)

Module PyStr.

(** [bool(s)]: a string is true when it is not empty. *)
Definition truthy (s : string) : bool :=
  match s with EmptyString => false | String _ _ => true end.

(** The characters [str.isspace] accepts, below 256: TAB..CR, FS..US,
    SPACE, NEL and NBSP. *)
Definition is_space (c : ascii) : bool :=
  let n := N_of_ascii c in
  ((9 <=? n) && (n <=? 13) || (28 <=? n) && (n <=? 32)
   || (n =? 133) || (n =? 160))%N.

(** The line boundaries of [str.splitlines], below 256: LF, VT, FF, CR,
    FS, GS, RS and NEL. *)
Definition is_linebreak (c : ascii) : bool :=
  let n := N_of_ascii c in
  ((10 <=? n) && (n <=? 13) || (28 <=? n) && (n <=? 30) || (n =? 133))%N.

Definition snoc (s : string) (c : ascii) : string := s ++ String c "".

(** [s.splitlines()]: [cur] is the line being read.  CR LF is one
    boundary; a last line without a boundary is kept when not empty. *)
Fixpoint splitlines_from (cur s : string) : list string :=
  match s with
  | EmptyString => if truthy cur then [cur] else []
  | String c rest =>
      if is_linebreak c then
        match rest with
        | String c' rest' =>
            if (N_of_ascii c =? 13)%N && (N_of_ascii c' =? 10)%N
            then cur :: splitlines_from "" rest'
            else cur :: splitlines_from "" rest
        | EmptyString => cur :: splitlines_from "" rest
        end
      else splitlines_from (snoc cur c) rest
  end.

Definition splitlines (s : string) : list string := splitlines_from "" s.

Fixpoint lstrip (s : string) : string :=
  match s with
  | EmptyString => ""
  | String c rest => if is_space c then lstrip rest else s
  end.

Definition reverse (s : string) : string :=
  string_of_list_ascii (rev (list_ascii_of_string s)).

Definition rstrip (s : string) : string := reverse (lstrip (reverse s)).

(** [s.strip()]. *)
Definition strip (s : string) : string := rstrip (lstrip s).

(** [s.split()]: the maximal runs of non-space characters; [cur] is the
    field being read. *)
Fixpoint split_from (cur s : string) : list string :=
  match s with
  | EmptyString => if truthy cur then [cur] else []
  | String c rest =>
      if is_space c
      then if truthy cur then cur :: split_from "" rest
           else split_from "" rest
      else split_from (snoc cur c) rest
  end.

Definition split (s : string) : list string := split_from "" s.

(** [s.split(sep)] for a one-character separator: never empty. *)
Fixpoint split_on_from (sep : ascii) (cur s : string) : list string :=
  match s with
  | EmptyString => [cur]
  | String c rest =>
      if Ascii.eqb c sep then cur :: split_on_from sep "" rest
      else split_on_from sep (snoc cur c) rest
  end.

Definition split_on (sep : ascii) (s : string) : list string :=
  split_on_from sep "" s.

(** [l[-1]] on the result of a [split(sep)]. *)
Definition last_item (l : list string) : string := last l "".

(** [s.startswith(p)], giving the rest of [s]. *)
Fixpoint strip_prefix (p s : string) : option string :=
  match p, s with
  | EmptyString, _ => Some s
  | String a p', String b s' =>
      if Ascii.eqb a b then strip_prefix p' s' else None
  | String _ _, EmptyString => None
  end.

(** The longest prefix of [s] without the character [c], and what
    follows it. *)
Fixpoint span_not (c : ascii) (s : string) : string * string :=
  match s with
  | EmptyString => ("", "")
  | String a rest =>
      if Ascii.eqb a c then ("", s)
      else let '(h, t) := span_not c rest in (String a h, t)
  end.

(** Predicates on the characters of a string. *)
Definition no_space (s : string) : bool :=
  forallb (fun c => negb (is_space c)) (list_ascii_of_string s).

Definition all_space (s : string) : bool :=
  forallb is_space (list_ascii_of_string s).

Definition no_char (sep : ascii) (s : string) : bool :=
  forallb (fun c => negb (Ascii.eqb c sep)) (list_ascii_of_string s).

End PyStr.

(** ** Python dictionaries with string keys *)

Module PyDict.

Definition dict (V : Type) := list (string * V).

Definition keys {V} (d : dict V) : list string := map fst d.

(** [d[k]], with [None] for a [KeyError]. *)
Fixpoint get {V} (d : dict V) (k : string) : option V :=
  match d with
  | [] => None
  | (k', v) :: rest => if String.eqb k' k then Some v else get rest k
  end.

(** [k in d]. *)
Definition mem {V} (d : dict V) (k : string) : bool :=
  match get d k with Some _ => true | None => false end.

(** [d[k] = v]: an existing key keeps its position, a new key goes last. *)
Fixpoint set {V} (d : dict V) (k : string) (v : V) : dict V :=
  match d with
  | [] => [(k, v)]
  | (k', v') :: rest =>
      if String.eqb k' k then (k', v) :: rest else (k', v') :: set rest k v
  end.

(** The invariant of a dictionary: no key twice. *)
Definition wf {V} (d : dict V) : Prop := NoDup (keys d).

End PyDict.

(** ** The change classifier *)

(** [BranchChanges], the [TypedDict] the classifier returns. *)
Record BranchChanges : Type := mkBranchChanges {
  originAdded : list string;
  originUpdated : list string
}.

Section Classifier.

(** [re_match reg name] is [re.match(reg, name) is not None]: the regular
    expression [reg] matches a prefix of [name].  The accept rules are
    taken to be well-formed patterns, on which [re.match] is total. *)
Variable re_match : string -> string -> bool.

(** The inner loop: the first matching rule sets [matched] and breaks. *)
Fixpoint matched (changed_branch_accept_rules : list string)
         (branch_name : string) : bool :=
  match changed_branch_accept_rules with
  | [] => false
  | reg :: rest =>
      if re_match reg branch_name then true else matched rest branch_name
  end.

(** One iteration of the outer loop on the two result lists. *)
Definition classify_branch (mirror_branch_dict : PyDict.dict string)
           (changed_branch_accept_rules : list string)
           (acc : BranchChanges) (item : string * string) : BranchChanges :=
  let '(branch_name, origin_commit) := item in
  if negb (matched changed_branch_accept_rules branch_name) then acc
  else if PyDict.mem mirror_branch_dict branch_name then
    match PyDict.get mirror_branch_dict branch_name with
    | Some mirror_commit =>
        if negb (String.eqb origin_commit mirror_commit)
        then mkBranchChanges (originAdded acc)
                             (originUpdated acc ++ [branch_name])
        else acc
    | None => acc
    end
  else mkBranchChanges (originAdded acc ++ [branch_name])
                       (originUpdated acc).

Definition get_origin_branch_changes
           (origin_branch_dict mirror_branch_dict : PyDict.dict string)
           (changed_branch_accept_rules : list string) : BranchChanges :=
  fold_left (classify_branch mirror_branch_dict changed_branch_accept_rules)
            origin_branch_dict
            (mkBranchChanges [] []).

End Classifier.

(** ** utils/url.py *)

(** [re.match(r'git@([^:]+):', git_url)]: the literal [git@], the longest
    non-empty run of characters other than a colon, then a colon; the run
    is the host name. *)
Definition extract_hostname_from_git_url (git_url : string) : option string :=
  match PyStr.strip_prefix "git@" git_url with
  | Some rest =>
      match PyStr.span_not ":" rest with
      | (String c h, String _ _) => Some (String c h)
      | _ => None
      end
  | None => None
  end.

(** ** Exceptions *)

(** The exceptions the script can meet; all are subclasses of
    [Exception]. *)
Inductive exn : Type :=
| UnboundLocalError (variable : string)
    (* a local variable read before any assignment *)
| ValueError
    (* [commit_hash, ref_part = line.split()] on a line that has not
       exactly two fields *)
| OSError (message : string)
    (* raised by the environment: os, shutil, subprocess, open, json *).

(** ** Reading a branch listing *)

(** The loop of lines 154-159, repeated at lines 173-178: every non-blank
    line of the [git ls-remote -h] output is unpacked into a commit hash
    and a ref path, and the last path component is bound to the hash. *)
Definition read_branch_line (branches_dict : PyDict.dict string)
           (line : string) : exn + PyDict.dict string :=
  if PyStr.truthy (PyStr.strip line) then
    match PyStr.split line with
    | [commit_hash; ref_part] =>
        let branch_name := PyStr.last_item (PyStr.split_on "/" ref_part) in
        inr (PyDict.set branches_dict branch_name commit_hash)
    | _ => inl ValueError
    end
  else inr branches_dict.

Fixpoint read_branch_lines (branches_dict : PyDict.dict string)
         (lines : list string) : exn + PyDict.dict string :=
  match lines with
  | [] => inr branches_dict
  | line :: rest =>
      match read_branch_line branches_dict line with
      | inl e => inl e
      | inr d => read_branch_lines d rest
      end
  end.

Definition read_branches_dict (branches_str : string)
  : exn + PyDict.dict string :=
  read_branch_lines [] (PyStr.splitlines branches_str).

(** *** The listing format *)

(** A line of the form commit-id, whitespace, ref-path: two non-empty
    fields without whitespace, separated by a non-empty run of
    whitespace. *)
Definition listing_line (line commit_id ref_path : string) : Prop :=
  exists ws,
    line = commit_id ++ ws ++ ref_path
    /\ PyStr.truthy commit_id = true /\ PyStr.no_space commit_id = true
    /\ PyStr.truthy ws = true /\ PyStr.all_space ws = true
    /\ PyStr.truthy ref_path = true /\ PyStr.no_space ref_path = true.

(** [name] is the component of [ref_path] after its final slash (all of
    [ref_path] when it has no slash). *)
Definition leaf_of (ref_path name : string) : Prop :=
  PyStr.no_char "/" name = true
  /\ (ref_path = name \/ exists p, ref_path = p ++ "/" ++ name).

(** The binding a line contributes to the dictionary, if any: blank lines
    contribute nothing. *)
Definition line_entry (line : string) : option (string * string) :=
  if PyStr.truthy (PyStr.strip line) then
    match PyStr.split line with
    | [commit_hash; ref_part] =>
        Some (PyStr.last_item (PyStr.split_on "/" ref_part), commit_hash)
    | _ => None
    end
  else None.

(** The commit of the last line of [lines] that binds [name]. *)
Fixpoint last_binding (lines : list string) (name : string) : option string :=
  match lines with
  | [] => None
  | line :: rest =>
      match last_binding rest name with
      | Some c => Some c
      | None =>
          match line_entry line with
          | Some (n, c) => if String.eqb n name then Some c else None
          | None => None
          end
      end
  end.

(** The reading of the snapshot reader in which every line of the
    listing keeps its own commit identifier. *)
Definition reader_maps_every_line : Prop :=
  forall out d line commit_id ref_path name,
    read_branches_dict out = inr d ->
    In line (PyStr.splitlines out) ->
    listing_line line commit_id ref_path ->
    leaf_of ref_path name ->
    PyDict.get d name = Some commit_id.

(** ** The configuration file *)

(** One entry of ["sync-needed-repo-pairs"]. *)
Record RepoPair : Type := mkRepoPair {
  origin_repo_ssh_url : string;
  mirror_empty_repo_ssh_url : string
}.

(** [sync-origin-and-mirror-config.json] once read; ["local-workspace"] is
    the path after [os.path.normpath]. *)
Record Config : Type := mkConfig {
  local_workspace : string;
  sync_needed_repo_pairs : list RepoPair;
  origin_changed_branch_accept_rules : list string;
  mirror_changed_branch_accept_rules : list string
}.

(** ** The environment *)

(** What the script asks of the machine it runs on.  [W] is the state of
    the world (file system, remotes, network); every call may change it.
    - [run_cmd] is [utils/cmdutils.py]: it gives the exit code and the
      captured output of a sub-process, or raises when the program cannot
      be started;
    - [configure_ssh_host] is [utils/ssh.py], which catches every exception
      itself and answers with a boolean;
    - [make_files_writable] is [utils/fileutils.py];
    - the others are [os.getcwd], [os.path.exists], [shutil.rmtree],
      [os.makedirs] and [os.chdir];
    - [load_config] is the head of [main] (lines 315-330): [Logger.init],
      opening and decoding the configuration file and the four look-ups
      in it, any of which may raise. *)
Record Host (W : Type) : Type := mkHost {
  run_cmd : list string -> W -> (exn + (Z * string * string)) * W;
  configure_ssh_host : string -> W -> bool * W;
  os_getcwd : W -> (exn + string) * W;
  os_path_exists : string -> W -> bool;
  make_files_writable : string -> W -> (exn + unit) * W;
  shutil_rmtree : string -> W -> (exn + unit) * W;
  os_makedirs : string -> W -> (exn + unit) * W;
  os_chdir : string -> W -> (exn + unit) * W;
  load_config : W -> (exn + Config) * W
}.

(** ** Commands and their places in the pass *)

(** The fourteen [run_cmd] calls of a pass, named after the variable that
    holds the command; the calls inside the two loops carry the branch. *)
Inductive Site : Type :=
| git_init_cmd
| git_add_remote_origin_cmd
| git_add_remote_mirror_cmd
| git_ls_origin_remote_branch_cmd
| git_ls_mirror_remote_branch_cmd
| git_fetch_mirror_remote_branch_cmd (b : string)
| git_switch_branch_cmd (b : string)
| git_pull_origin_remote_branch_cmd (b : string)
| git_push_mirror_cmd (b : string)
| git_fetch_origin_remote_branch_cmd (b : string)
| git_push_origin_added_branch_to_mirror_cmd (b : string)
| git_fetch_mirror_tags_cmd
| git_fetch_origin_tags_cmd
| git_push_tags_to_mirror_cmd.

(** One [run_cmd] call as seen from outside: where it was made, the
    argument vector, and the exit code ([None] when [run_cmd] raised). *)
Record Event : Type := mkEvent {
  ev_site : Site;
  ev_argv : list string;
  ev_rc : option Z
}.

(** ** The state of a running pass *)

(** The world, the commands issued so far, and the two local variables of
    [try_sync_origin_updates_into_mirror] that are read far from where they
    are assigned: [cwd] (read by the [finally] clause) and
    [origin_branch_changes]. A local is [None] until its assignment. *)
Record State (W : Type) : Type := mkState {
  world : W;
  trace : list Event;
  cwd : option string;
  origin_branch_changes : option BranchChanges
}.

(** How a statement ends: it falls through to the next one, executes a
    [return], or raises. *)
Inductive Flow (A : Type) : Type :=
| Next (a : A)
| Return (code : Z)
| Raise (e : exn).

Arguments Next {A} a.
Arguments Return {A} code.
Arguments Raise {A} e.

Definition M (W A : Type) : Type := State W -> Flow A * State W.

Definition next {W A} (a : A) : M W A := fun s => (Next a, s).

Definition return_ {W A} (code : Z) : M W A := fun s => (Return code, s).

Definition raise {W A} (e : exn) : M W A := fun s => (Raise e, s).

Definition bind {W A B} (m : M W A) (k : A -> M W B) : M W B :=
  fun s =>
    match m s with
    | (Next a, s') => k a s'
    | (Return code, s') => (Return code, s')
    | (Raise e, s') => (Raise e, s')
    end.

Declare Scope py_scope.
Delimit Scope py_scope with py.

Notation "x <- m ;; k" := (bind m (fun x => k))
  (at level 100, m at next level, right associativity) : py_scope.
Notation "m ;; k" := (bind m (fun _ => k))
  (at level 100, right associativity) : py_scope.

Open Scope py_scope.

(** [if cond: stmt]. *)
Definition when {W} (cond : bool) (stmt : M W unit) : M W unit :=
  if cond then stmt else next tt.

(** [for x in xs: body x]; a [return] or an exception in the body leaves
    the loop. *)
Fixpoint for_ {W B} (xs : list B) (body : B -> M W unit) : M W unit :=
  match xs with
  | [] => next tt
  | x :: rest => body x ;; for_ rest body
  end.

(** An empty type for blocks that cannot fall through. *)
Inductive void : Set := .

Notation "' p <- m ;; k" := (bind m (fun x => match x with p => k end))
  (at level 100, p pattern, m at next level, right associativity) : py_scope.

(** How a call of a function ends. *)
Inductive Outcome : Type :=
| Returned (code : Z)
| Raised (e : exn).

(** One call of [try_sync_origin_updates_into_mirror] made by [main]. *)
Record PassRun (W : Type) : Type := mkPassRun {
  pass_origin_repo_url : string;
  pass_mirror_repo_url : string;
  pass_accept_rules : list string;
  pass_outcome : Outcome;
  pass_final : State W
}.

(** ** One directional pass and the driver *)

Section Sync.

Context {W : Type}.
Variable host : Host W.
Variable re_match : string -> string -> bool.

Definition set_world (s : State W) (w : W) : State W :=
  mkState w (trace s) (cwd s) (origin_branch_changes s).

(** A call of the environment that may raise. *)
Definition call {A} (f : W -> (exn + A) * W) : M W A :=
  fun s =>
    match f (world s) with
    | (inl e, w) => (Raise e, set_world s w)
    | (inr a, w) => (Next a, set_world s w)
    end.

(** [run_cmd(cmd)] at the place [site]; the call is added to the trace. *)
Definition run (site : Site) (cmd : list string)
  : M W (Z * string * string) :=
  fun s =>
    match run_cmd host cmd (world s) with
    | (inl e, w) =>
        (Raise e,
         mkState w (trace s ++ [mkEvent site cmd None])
                 (cwd s) (origin_branch_changes s))
    | (inr (returncode, out, err), w) =>
        (Next (returncode, out, err),
         mkState w (trace s ++ [mkEvent site cmd (Some returncode)])
                 (cwd s) (origin_branch_changes s))
    end.

Definition ssh (hostname : string) : M W bool :=
  fun s =>
    let '(ok, w) := configure_ssh_host host hostname (world s) in
    (Next ok, set_world s w).

Definition path_exists (path : string) : M W bool :=
  fun s => (Next (os_path_exists host path (world s)), s).

Definition assign_cwd (d : string) : M W unit :=
  fun s => (Next tt, mkState (world s) (trace s) (Some d)
                             (origin_branch_changes s)).

Definition assign_origin_branch_changes (c : BranchChanges) : M W unit :=
  fun s => (Next tt, mkState (world s) (trace s) (cwd s) (Some c)).

(** [origin_branches_dict = {}] and the loop over the listing. *)
Definition read_dict (branches_str : string) : M W (PyDict.dict string) :=
  match read_branches_dict branches_str with
  | inl e => raise e
  | inr d => next d
  end.

(** [returncode != 0]. *)
Definition failed (returncode : Z) : bool := negb (returncode =? 0).

(** "Handle with origin updated branches", lines 190-237. *)
Definition handle_origin_updated_branches
           (origin_branch_updated : list string) : M W unit :=
  let origin_remote_name := "origin" in
  let mirror_remote_name := "mirror" in
  for_ origin_branch_updated (fun b =>
    ' (returncode, _, _) <-
        run (git_fetch_mirror_remote_branch_cmd b)
            ["git"; "fetch"; mirror_remote_name; b ++ ":" ++ b; "--force"] ;;
    when (failed returncode) (return_ (-9)) ;;
    ' (returncode, _, _) <-
        run (git_switch_branch_cmd b) ["git"; "switch"; b] ;;
    when (failed returncode) (return_ (-10)) ;;
    ' (returncode, _, _) <-
        run (git_pull_origin_remote_branch_cmd b)
            ["git"; "pull"; origin_remote_name; b; "--no-edit"] ;;
    when (failed returncode) (return_ (-101)) ;;
    ' (returncode, _, _) <-
        run (git_push_mirror_cmd b) ["git"; "push"; mirror_remote_name; b] ;;
    when (failed returncode) (return_ (-11))).

(** "Handle with origin added branches", lines 241-265. *)
Definition handle_origin_added_branches
           (origin_branch_added : list string) : M W unit :=
  let origin_remote_name := "origin" in
  let mirror_remote_name := "mirror" in
  for_ origin_branch_added (fun b =>
    ' (returncode, _, _) <-
        run (git_fetch_origin_remote_branch_cmd b)
            ["git"; "fetch"; origin_remote_name; b ++ ":" ++ b; "--force"] ;;
    when (failed returncode) (return_ (-12)) ;;
    ' (returncode, _, _) <-
        run (git_push_origin_added_branch_to_mirror_cmd b)
            ["git"; "push"; mirror_remote_name; b] ;;
    when (failed returncode) (return_ (-13))).

(** "Handle tag change", lines 267-301.  The last two literals of the
    push command are adjacent in the source, with no comma between
    them: Python joins them into one string. *)
Definition handle_tag_change : M W unit :=
  let origin_remote_name := "origin" in
  let mirror_remote_name := "mirror" in
  ' (returncode, _, _) <-
      run git_fetch_mirror_tags_cmd
          ["git"; "fetch"; mirror_remote_name; "--tags"] ;;
  when (failed returncode) (return_ (-14)) ;;
  ' (returncode, _, _) <-
      run git_fetch_origin_tags_cmd
          ["git"; "fetch"; origin_remote_name; "--tags"] ;;
  when (failed returncode) (return_ (-15)) ;;
  ' (returncode, _, _) <-
      run git_push_tags_to_mirror_cmd
          ["git"; "push"; mirror_remote_name; "-f" ++ "--tags"] ;;
  when (failed returncode) (return_ (-16)).

(** The body of the [try] statement, lines 69-304; the three blocks
    above are its lines 190-301. *)
Definition try_block (origin_repo_url mirror_repo_url : string)
           (local_workspace : string)
           (changed_branch_accept_rules : list string) : M W void :=
  let hostname := extract_hostname_from_git_url origin_repo_url in
  match hostname with
  | Some h =>
      if PyStr.truthy h then
        ok <- ssh h ;;
        when (negb ok) (return_ (-2))
      else return_ (-3)
  | None => return_ (-3)
  end ;;
  d <- call (os_getcwd host) ;;
  assign_cwd d ;;
  let origin_remote_name := "origin" in
  let mirror_remote_name := "mirror" in
  (* Stage 1: Init local workspace *)
  present <- path_exists local_workspace ;;
  when present
    (call (make_files_writable host local_workspace) ;;
     call (shutil_rmtree host local_workspace)) ;;
  call (os_makedirs host local_workspace) ;;
  (* Stage 2: Bind local workspace to origin and mirror *)
  call (os_chdir host local_workspace) ;;
  ' (returncode, _, _) <-
      run git_init_cmd ["git"; "init"; "--initial-branch=false"] ;;
  when (failed returncode) (return_ (-4)) ;;
  ' (returncode, _, _) <-
      run git_add_remote_origin_cmd
          ["git"; "remote"; "add"; origin_remote_name; origin_repo_url] ;;
  when (failed returncode) (return_ (-5)) ;;
  ' (returncode, _, _) <-
      run git_add_remote_mirror_cmd
          ["git"; "remote"; "add"; mirror_remote_name; mirror_repo_url] ;;
  when (failed returncode) (return_ (-6)) ;;
  (* Stage 3: Diff origin changed branches base mirror *)
  ' (returncode, origin_branches_str, _) <-
      run git_ls_origin_remote_branch_cmd
          ["git"; "ls-remote"; "-h"; origin_remote_name] ;;
  when (failed returncode) (return_ (-7)) ;;
  origin_branches_dict <- read_dict origin_branches_str ;;
  ' (returncode, mirror_branches_str, _) <-
      run git_ls_mirror_remote_branch_cmd
          ["git"; "ls-remote"; "-h"; mirror_remote_name] ;;
  when (failed returncode) (return_ (-8)) ;;
  mirror_branches_dict <- read_dict mirror_branches_str ;;
  let changes :=
    get_origin_branch_changes re_match origin_branches_dict
                              mirror_branches_dict
                              changed_branch_accept_rules in
  assign_origin_branch_changes changes ;;
  let origin_branch_added := originAdded changes in
  let origin_branch_updated := originUpdated changes in
  handle_origin_updated_branches origin_branch_updated ;;
  handle_origin_added_branches origin_branch_added ;;
  handle_tag_change ;;
  return_ 0.

(** [try: ... except Exception as e: Logger.error(...); return -1]. *)
Definition try_except (block : M W void) (s : State W) : Z * State W :=
  match block s with
  | (Next v, _) => match v with end
  | (Return code, s') => (code, s')
  | (Raise e, s') => (-1, s')
  end.

(** [finally: os.chdir(cwd)]; reading [cwd] before line 78 has assigned
    it raises [UnboundLocalError]. *)
Definition finally_block (s : State W) : option exn * State W :=
  match cwd s with
  | None => (Some (UnboundLocalError "cwd"), s)
  | Some d =>
      match os_chdir host d (world s) with
      | (inl e, w) => (Some e, set_world s w)
      | (inr _, w) => (None, set_world s w)
      end
  end.

(** The whole function: the value returned by the [try] or the [except]
    part is the result unless the [finally] clause raises, in which case
    that exception replaces it. *)
Definition try_sync_origin_updates_into_mirror
           (origin_repo_url mirror_repo_url local_workspace : string)
           (changed_branch_accept_rules : list string) (w : W)
  : Outcome * State W :=
  let '(code, s1) :=
    try_except (try_block origin_repo_url mirror_repo_url local_workspace
                          changed_branch_accept_rules)
               (mkState w [] None None) in
  match finally_block s1 with
  | (Some e, s2) => (Raised e, s2)
  | (None, s2) => (Returned code, s2)
  end.

(** The result of [main]: the exit code, the world it leaves, and the
    passes it ran, in order. *)
Record MainRun : Type := mkMainRun {
  exit_code : Z;
  final_world : W;
  passes : list (PassRun W)
}.

(** The loop of lines 332-336 on the locals [origin_repo_url],
    [mirror_repo_url] and [mirror_needed_repo_pair_list]. *)
Definition bind_repo_pair
           (locals : option string * option string * list (string * string))
           (repo_pair : RepoPair)
  : option string * option string * list (string * string) :=
  let '(_, _, mirror_needed_repo_pair_list) := locals in
  let origin_repo_url := origin_repo_ssh_url repo_pair in
  let mirror_repo_url := mirror_empty_repo_ssh_url repo_pair in
  (Some origin_repo_url, Some mirror_repo_url,
   (mirror_needed_repo_pair_list
      ++ [(origin_repo_url, mirror_repo_url)])%list).

(** Lines 343-351, with what [main]'s own [except] clause makes of an
    exception: [-1]. *)
Definition sync_between_two_repos
           (origin_repo_url mirror_repo_url : option string)
           (local_workspace : string)
           (origin_rules mirror_rules : list string) (w : W) : MainRun :=
  match origin_repo_url, mirror_repo_url with
  | Some o, Some m =>
      let '(out1, s1) :=
        try_sync_origin_updates_into_mirror o m local_workspace
                                            origin_rules w in
      let run1 := mkPassRun o m origin_rules out1 s1 in
      match out1 with
      | Raised _ => mkMainRun (-1) (world s1) [run1]
      | Returned returncode =>
          if failed returncode then mkMainRun returncode (world s1) [run1]
          else
            let '(out2, s2) :=
              try_sync_origin_updates_into_mirror m o local_workspace
                                                  mirror_rules (world s1) in
            let run2 := mkPassRun m o mirror_rules out2 s2 in
            match out2 with
            | Raised _ => mkMainRun (-1) (world s2) [run1; run2]
            | Returned return_code =>
                if failed return_code
                then mkMainRun returncode (world s2) [run1; run2]
                else mkMainRun 0 (world s2) [run1; run2]
            end
      end
  | _, _ =>
      (* the loop never ran: reading [origin_repo_url] raises *)
      mkMainRun (-1) w []
  end.

(** [main] from line 325 on, the configuration being read. *)
Definition main_configured (data : Config) (w : W) : MainRun :=
  let '(origin_repo_url, mirror_repo_url, _) :=
    fold_left bind_repo_pair (sync_needed_repo_pairs data)
              (None, None, []) in
  sync_between_two_repos origin_repo_url mirror_repo_url
                         (local_workspace data)
                         (origin_changed_branch_accept_rules data)
                         (mirror_changed_branch_accept_rules data) w.

Definition main (w : W) : MainRun :=
  match load_config host w with
  | (inl _, w1) => mkMainRun (-1) w1 []
  | (inr data, w1) => main_configured data w1
  end.

End Sync.

(** ** What a pass is expected to issue *)

(** The command issued at each place, for the two URLs of the pass. *)
Definition command_at (origin_repo_url mirror_repo_url : string)
           (site : Site) : list string :=
  match site with
  | git_init_cmd => ["git"; "init"; "--initial-branch=false"]
  | git_add_remote_origin_cmd =>
      ["git"; "remote"; "add"; "origin"; origin_repo_url]
  | git_add_remote_mirror_cmd =>
      ["git"; "remote"; "add"; "mirror"; mirror_repo_url]
  | git_ls_origin_remote_branch_cmd => ["git"; "ls-remote"; "-h"; "origin"]
  | git_ls_mirror_remote_branch_cmd => ["git"; "ls-remote"; "-h"; "mirror"]
  | git_fetch_mirror_remote_branch_cmd b =>
      ["git"; "fetch"; "mirror"; b ++ ":" ++ b; "--force"]
  | git_switch_branch_cmd b => ["git"; "switch"; b]
  | git_pull_origin_remote_branch_cmd b =>
      ["git"; "pull"; "origin"; b; "--no-edit"]
  | git_push_mirror_cmd b => ["git"; "push"; "mirror"; b]
  | git_fetch_origin_remote_branch_cmd b =>
      ["git"; "fetch"; "origin"; b ++ ":" ++ b; "--force"]
  | git_push_origin_added_branch_to_mirror_cmd b =>
      ["git"; "push"; "mirror"; b]
  | git_fetch_mirror_tags_cmd => ["git"; "fetch"; "mirror"; "--tags"]
  | git_fetch_origin_tags_cmd => ["git"; "fetch"; "origin"; "--tags"]
  | git_push_tags_to_mirror_cmd => ["git"; "push"; "mirror"; "-f--tags"]
  end.

(** The value the pass returns when the command of a place exits with a
    code other than 0. *)
Definition return_code_at (site : Site) : Z :=
  match site with
  | git_init_cmd => -4
  | git_add_remote_origin_cmd => -5
  | git_add_remote_mirror_cmd => -6
  | git_ls_origin_remote_branch_cmd => -7
  | git_ls_mirror_remote_branch_cmd => -8
  | git_fetch_mirror_remote_branch_cmd _ => -9
  | git_switch_branch_cmd _ => -10
  | git_pull_origin_remote_branch_cmd _ => -101
  | git_push_mirror_cmd _ => -11
  | git_fetch_origin_remote_branch_cmd _ => -12
  | git_push_origin_added_branch_to_mirror_cmd _ => -13
  | git_fetch_mirror_tags_cmd => -14
  | git_fetch_origin_tags_cmd => -15
  | git_push_tags_to_mirror_cmd => -16
  end.

(** The stages of a pass that issue commands. *)
Inductive Stage : Type :=
| BindRemotes       (* git init and the two git remote add *)
| QuerySnapshots    (* the two git ls-remote *)
| ReplicateBranches (* the two loops *)
| ReplicateTags.

Definition stage_of (site : Site) : Stage :=
  match site with
  | git_init_cmd | git_add_remote_origin_cmd | git_add_remote_mirror_cmd =>
      BindRemotes
  | git_ls_origin_remote_branch_cmd | git_ls_mirror_remote_branch_cmd =>
      QuerySnapshots
  | git_fetch_mirror_tags_cmd | git_fetch_origin_tags_cmd
  | git_push_tags_to_mirror_cmd => ReplicateTags
  | _ => ReplicateBranches
  end.

Definition is_tag_site (site : Site) : bool :=
  match stage_of site with ReplicateTags => true | _ => false end.

Definition is_branch_site (site : Site) : bool :=
  match stage_of site with ReplicateBranches => true | _ => false end.

(** A replication command is one that moves branches or tags. *)
Definition is_replication_site (site : Site) : bool :=
  is_branch_site site || is_tag_site site.

(** The stages in the order of the source. *)
Definition stage_rank (site : Site) : nat :=
  match stage_of site with
  | BindRemotes => 0
  | QuerySnapshots => 1
  | ReplicateBranches => 2
  | ReplicateTags => 3
  end.

Definition stage_le (x y : Site) : Prop := (stage_rank x <= stage_rank y)%nat.

(** The branch of a place inside one of the two loops. *)
Definition branch_of (site : Site) : option string :=
  match site with
  | git_fetch_mirror_remote_branch_cmd b | git_switch_branch_cmd b
  | git_pull_origin_remote_branch_cmd b | git_push_mirror_cmd b
  | git_fetch_origin_remote_branch_cmd b
  | git_push_origin_added_branch_to_mirror_cmd b => Some b
  | _ => None
  end.

Definition setup_sites : list Site :=
  [git_init_cmd; git_add_remote_origin_cmd; git_add_remote_mirror_cmd;
   git_ls_origin_remote_branch_cmd; git_ls_mirror_remote_branch_cmd].

Definition updated_sites (b : string) : list Site :=
  [git_fetch_mirror_remote_branch_cmd b; git_switch_branch_cmd b;
   git_pull_origin_remote_branch_cmd b; git_push_mirror_cmd b].

Definition added_sites (b : string) : list Site :=
  [git_fetch_origin_remote_branch_cmd b;
   git_push_origin_added_branch_to_mirror_cmd b].

Definition branch_sites (changes : BranchChanges) : list Site :=
  (flat_map updated_sites (originUpdated changes)
   ++ flat_map added_sites (originAdded changes))%list.

Definition tag_sites : list Site :=
  [git_fetch_mirror_tags_cmd; git_fetch_origin_tags_cmd;
   git_push_tags_to_mirror_cmd].

(** The places a pass goes through when nothing fails; before the
    classification is known the plan stops after the two listings. *)
Definition plan (changes : option BranchChanges) : list Site :=
  match changes with
  | Some c => (setup_sites ++ branch_sites c ++ tag_sites)%list
  | None => setup_sites
  end.

(** How the sequence of commands ended. *)
Inductive Ending : Type :=
| Completed             (* every command of the plan exited with 0 *)
| Failed (code : Z)     (* a command exited with another code *)
| Crashed.              (* an exception was raised *)

Definition ending_code (h : Ending) : Z :=
  match h with
  | Completed => 0
  | Failed code => code
  | Crashed => -1
  end.

Definition event_ok (o m : string) (site : Site) : Event :=
  mkEvent site (command_at o m site) (Some 0).

(** [fail_fast o m sites evs h]: [evs] is a fail-fast run of the places
    [sites].  Commands are issued in order while they exit with 0; the
    first other exit code stops the run with the code of that place; an
    exception, raised by [run_cmd] or between two commands, stops it
    too. *)
Inductive fail_fast (o m : string)
  : list Site -> list Event -> Ending -> Prop :=
| ff_completed : fail_fast o m [] [] Completed
| ff_ok site sites evs h :
    fail_fast o m sites evs h ->
    fail_fast o m (site :: sites) (event_ok o m site :: evs) h
| ff_failed site sites rc :
    rc <> 0 ->
    fail_fast o m (site :: sites)
              [mkEvent site (command_at o m site) (Some rc)]
              (Failed (return_code_at site))
| ff_run_raised site sites :
    fail_fast o m (site :: sites)
              [mkEvent site (command_at o m site) None] Crashed
| ff_raised sites :
    fail_fast o m sites [] Crashed.

(** A statement ends the way a run of commands ended. *)
Definition ends {A} (f : Flow A) (h : Ending) : Prop :=
  match f, h with
  | Next _, Completed => True
  | Return code, Failed code' => code = code'
  | Raise _, Crashed => True
  | _, _ => False
  end.

(** [block_runs o m sites block]: from any state, [block] adds to the trace
    a fail-fast run of [sites], ends accordingly, and leaves the two
    locals as they are. *)
Definition block_runs {W A} (o m : string) (sites : list Site)
           (block : M W A) : Prop :=
  forall s,
  exists evs h,
    trace (snd (block s)) = (trace s ++ evs)%list
    /\ fail_fast o m sites evs h
    /\ ends (fst (block s)) h
    /\ cwd (snd (block s)) = cwd s
    /\ origin_branch_changes (snd (block s)) = origin_branch_changes s.

(** The value [try ... except] makes of the end of the [try] block. *)
Definition flow_code (f : Flow void) : Z :=
  match f with
  | Next v => match v with end
  | Return code => code
  | Raise _ => -1
  end.

(** [changes], when assigned, is the classification of two well-formed
    dictionaries under [rules]. *)
Definition classified (re_match : string -> string -> bool)
           (rules : list string) (changes : option BranchChanges) : Prop :=
  match changes with
  | None => True
  | Some c =>
      exists origin_branches_dict mirror_branches_dict,
        PyDict.wf origin_branches_dict /\ PyDict.wf mirror_branches_dict
        /\ c = get_origin_branch_changes re_match origin_branches_dict
                                         mirror_branches_dict rules
  end.

(** ** A scripted environment, for running the model *)

(** The world is the list of the answers (exit code, standard output)
    that the next [run_cmd] calls will get; when the list is used up a
    command exits with 0 and prints nothing.  The file system is healthy:
    the process starts in [/srv/sync], the workspace does not exist yet and
    every directory operation succeeds.  [ssh_ok] is the answer of
    [configure_ssh_host]. *)
Definition scripted_host (ssh_ok : bool) (data : Config)
  : Host (list (Z * string)) :=
  mkHost
    (fun _ w =>
       match w with
       | [] => (inr (0, "", ""), [])
       | (rc, out) :: rest => (inr (rc, out, ""), rest)
       end)
    (fun _ w => (ssh_ok, w))
    (fun w => (inr "/srv/sync", w))
    (fun _ _ => false)
    (fun _ w => (inr tt, w))
    (fun _ w => (inr tt, w))
    (fun _ w => (inr tt, w))
    (fun _ w => (inr tt, w))
    (fun w => (inr data, w)).

(** [re.match] on patterns without metacharacters: the pattern is a
    prefix of the name. *)
Definition literal_match (reg name : string) : bool := String.prefix reg name.

Definition LF : string := String (ascii_of_nat 10) "".
Definition TAB : string := String (ascii_of_nat 9) "".


(** A configuration with one repository pair, and listings for it. *)
Definition sample_config : Config :=
  mkConfig "/srv/ws"
           [mkRepoPair "git@origin.example:team/app.git"
                       "git@mirror.example:team/app.git"]
           ["main"; "feature"] ["main"].

Definition sample_origin_listing : string :=
  "a2a2" ++ TAB ++ "refs/heads/main" ++ LF
  ++ "b1b1" ++ TAB ++ "refs/heads/feature" ++ LF
  ++ "c1c1" ++ TAB ++ "refs/heads/scratch" ++ LF.

Definition sample_mirror_listing : string :=
  "a1a1" ++ TAB ++ "refs/heads/main" ++ LF.

(** [n] commands that exit with 0 and print nothing. *)
Definition quiet (n : nat) : list (Z * string) := repeat (0, "") n.

(** A run in which the pull of [main] meets a conflict: the three
    binding commands and the two listings succeed, then fetch and switch
    succeed and the pull exits with 1. *)
Definition conflict_script : list (Z * string) :=
  (quiet 3 ++ [(0, sample_origin_listing); (0, sample_mirror_listing)]
   ++ quiet 2 ++ [(1, "")])%list.

Definition sample_origin_url : string := "git@origin.example:team/app.git".
Definition sample_mirror_url : string := "git@mirror.example:team/app.git".

(** A listing with two branches that share their last component. *)
Definition colliding_listing : string :=
  "a1a1" ++ TAB ++ "refs/heads/feature/login" ++ LF
  ++ "b1b1" ++ TAB ++ "refs/heads/bugfix/login" ++ LF.

(** A machine on which [git] is not installed: [run_cmd] raises. *)
Definition host_without_git : Host unit :=
  mkHost
    (fun _ w => (inl (OSError "No such file or directory: 'git'"), w))
    (fun _ w => (true, w))
    (fun w => (inr "/srv/sync", w))
    (fun _ _ => false)
    (fun _ w => (inr tt, w))
    (fun _ w => (inr tt, w))
    (fun _ w => (inr tt, w))
    (fun _ w => (inr tt, w))
    (fun w => (inr sample_config, w)).

(** A machine on which the workspace cannot be created: [os.makedirs]
    raises. *)
Definition host_with_full_disk : Host unit :=
  mkHost
    (fun _ w => (inr (0, "", ""), w))
    (fun _ w => (true, w))
    (fun w => (inr "/srv/sync", w))
    (fun _ _ => false)
    (fun _ w => (inr tt, w))
    (fun _ w => (inr tt, w))
    (fun _ w => (inl (OSError "No space left on device"), w))
    (fun _ w => (inr tt, w))
    (fun w => (inr sample_config, w)).

(** A machine on which the script is started in a directory below the
    workspace, with the answers of [run_cmd] scripted as above: the pass
    wipes the workspace, so the directory recorded in [cwd] is gone when
    the [finally] clause returns to it, and [os.chdir] raises there. *)
Definition host_started_in_workspace (data : Config)
  : Host (list (Z * string)) :=
  mkHost
    (fun _ w =>
       match w with
       | [] => (inr (0, "", ""), [])
       | (rc, out) :: rest => (inr (rc, out, ""), rest)
       end)
    (fun _ w => (true, w))
    (fun w => (inr "/srv/ws/run", w))
    (fun _ _ => true)
    (fun _ w => (inr tt, w))
    (fun _ w => (inr tt, w))
    (fun _ w => (inr tt, w))
    (fun path w =>
       if String.eqb path "/srv/ws/run"
       then (inl (OSError "No such file or directory: '/srv/ws/run'"), w)
       else (inr tt, w))
    (fun w => (inr data, w)).

(** ** utils/fileutils.py *)

Module FileUtils.

(** The part of the machine the two functions look at: the mode
    ([st_mode]) that [os.stat] answers for every path it can reach, the
    calls of [os.chmod] made so far, each with its path and the mode asked
    for, and what was printed. *)
Record FS : Type := mkFS {
  modes : PyDict.dict Z;
  chmods : list (string * Z);
  printed : list string
}.

(** [stat.S_IWRITE], octal 200. *)
Definition S_IWRITE : Z := 128.

(** The bits [os.chmod] can set, octal 7777. *)
Definition permission_bits : Z := 4095.

(** [os.stat(path).st_mode]; a path that does not exist raises. *)
Definition os_stat_st_mode (path : string) (fs : FS) : exn + Z :=
  match PyDict.get (modes fs) path with
  | Some mode => inr mode
  | None => inl (OSError "No such file or directory")
  end.

(** [os.chmod] on a plain tree, where every file is the user's own and no
    two paths name one file: the permission bits of [mode] replace those
    of the file, whose type bits stay, and no other path changes. *)
Definition plain_chmod (path : string) (mode : Z) (ms : PyDict.dict Z)
  : exn + PyDict.dict Z :=
  match PyDict.get ms path with
  | Some old =>
      inr (PyDict.set ms path
                      (Z.lor (Z.ldiff old permission_bits)
                             (Z.land mode permission_bits)))
  | None => inl (OSError "No such file or directory")
  end.

Section Machine.

(** What [os.chmod(path, mode)] does to the modes on the machine at hand,
    or the exception it raises: the file may be someone else's, the file
    system read-only, the path gone; and the modes of other paths may
    change with it, a link and its target having one mode. *)
Variable chmod : string -> Z -> PyDict.dict Z -> exn + PyDict.dict Z.

Definition os_chmod (path : string) (mode : Z) (fs : FS) : (exn + unit) * FS :=
  let asked := (chmods fs ++ [(path, mode)])%list in
  match chmod path mode (modes fs) with
  | inl e => (inl e, mkFS (modes fs) asked (printed fs))
  | inr modes' => (inr tt, mkFS modes' asked (printed fs))
  end.

Definition print (line : string) (fs : FS) : FS :=
  mkFS (modes fs) (chmods fs) (printed fs ++ [line]).

Definition make_file_writable (file_path : string) (fs : FS)
  : (exn + unit) * FS :=
  match os_stat_st_mode file_path fs with
  | inl e => (inl e, fs)
  | inr current_permissions =>
      let new_permissions := Z.lor current_permissions S_IWRITE in
      if negb (new_permissions =? current_permissions) then
        match os_chmod file_path new_permissions fs with
        | (inl e, fs') => (inl e, fs')
        | (inr _, fs') =>
            (inr tt, print ("File permissions changed: " ++ file_path) fs')
        end
      else (inr tt, fs)
  end.

(** [s.startswith("/")] and [s.endswith("/")]. *)
Definition starts_with_slash (s : string) : bool :=
  match s with
  | String c _ => Ascii.eqb c "/"
  | EmptyString => false
  end.

Fixpoint ends_with_slash (s : string) : bool :=
  match s with
  | EmptyString => false
  | String c EmptyString => Ascii.eqb c "/"
  | String _ rest => ends_with_slash rest
  end.

(** [os.path.join(a, b)] of [posixpath]. *)
Definition os_path_join (a b : string) : string :=
  if starts_with_slash b then b
  else if negb (PyStr.truthy a) || ends_with_slash a then a ++ b
  else a ++ "/" ++ b.

(** The inner loop, [for file in files]. *)
Fixpoint make_listed_files_writable (root : string) (files : list string)
         (fs : FS) : (exn + unit) * FS :=
  match files with
  | [] => (inr tt, fs)
  | file :: rest =>
      let file_path := os_path_join root file in
      match make_file_writable file_path fs with
      | (inl e, fs') => (inl e, fs')
      | (inr _, fs') => make_listed_files_writable root rest fs'
      end
  end.

(** [make_files_writable(directory_path)], given what
    [os.walk(directory_path)] yields: for every directory of the tree its
    path, the names of its sub-directories and the names of its other
    entries. *)
Fixpoint make_files_writable
         (walk : list (string * list string * list string)) (fs : FS)
  : (exn + unit) * FS :=
  match walk with
  | [] => (inr tt, fs)
  | (root, _, files) :: rest =>
      match make_listed_files_writable root files fs with
      | (inl e, fs') => (inl e, fs')
      | (inr _, fs') => make_files_writable rest fs'
      end
  end.

End Machine.

(** The paths [make_files_writable] visits. *)
Definition walked_files (walk : list (string * list string * list string))
  : list string :=
  flat_map (fun entry => map (os_path_join (fst (fst entry))) (snd entry))
           walk.

(** [made_writable paths fs fs']: from [fs] to [fs'] the paths of [paths]
    that exist got the bit [S_IWRITE], and nothing else changed in the
    modes. *)
Definition made_writable (paths : list string) (fs fs' : FS) : Prop :=
  forall p,
    PyDict.get (modes fs') p
    = if existsb (String.eqb p) paths
      then option_map (fun mode => Z.lor mode S_IWRITE)
                      (PyDict.get (modes fs) p)
      else PyDict.get (modes fs) p.

(** The line printed for a call of [os.chmod] that returned. *)
Definition printed_line (call : string * Z) : string :=
  "File permissions changed: " ++ fst call.

(** A small tree: a read-only pack file and a writable configuration
    file. *)
Definition sample_walk : list (string * list string * list string) :=
  [("/srv/ws", ["objects"], ["config"]);
   ("/srv/ws/objects", [], ["pack-1.idx"])].

Definition sample_fs : FS :=
  mkFS [("/srv/ws/config", 33188); ("/srv/ws/objects/pack-1.idx", 33060)]
       [] [].

(** A machine on which the pack file belongs to someone else:
    [os.chmod] raises on it. *)
Definition foreign_pack_chmod (path : string) (mode : Z)
           (ms : PyDict.dict Z) : exn + PyDict.dict Z :=
  if String.eqb path "/srv/ws/objects/pack-1.idx"
  then inl (OSError "Operation not permitted")
  else plain_chmod path mode ms.

End FileUtils.

(** ** init/two-step/fetch-git-repo.py: [main] *)

Module FetchRepos.

(** [fetch-git-repo-config.json] once read. *)
Record Config : Type := mkConfig {
  max_retry_times : Z;
  retry_cooldown_sec : Z;
  local_workspace : string;
  fetch_needed_repos : list string
}.

(** What [main] asks of its environment.  [try_fetch_git_repo] is the
    function of lines 11-187 of the same file: it answers [True] or
    [False], or raises from its [finally] clause; [main] is modelled for
    whatever it does. *)
Record Host (W : Type) : Type := mkHost {
  load_config : W -> (exn + Config) * W;
  run_cmd : list string -> W -> (exn + (Z * string * string)) * W;
  configure_ssh_host : string -> W -> bool * W;
  try_fetch_git_repo : string -> string -> W -> (exn + bool) * W
}.

(** The world and the calls of [try_fetch_git_repo] that have answered
    so far, each with its URL and its answer. *)
Record State (W : Type) : Type := mkState {
  world : W;
  attempts : list (string * bool)
}.

Section Main.

Context {W : Type}.
Variable host : Host W.

(** [time.sleep(secs)]: a negative length raises [ValueError]. *)
Definition time_sleep (secs : Z) : exn + unit :=
  if secs <? 0 then inl ValueError else inr tt.

(** The loop of lines 241-245, entered with [failed_times]; it gives the
    value of [failed_times] when the loop is left.  [fuel] bounds the
    number of iterations; [main] gives it [max_retry_times]. *)
Fixpoint retry_loop (fuel : nat) (failed_times : Z)
         (origin_repo_url local_workspace : string)
         (max_retry_times retry_cooldown_sec : Z) (s : State W)
  : (exn + Z) * State W :=
  match fuel with
  | O => (inr failed_times, s)
  | S fuel' =>
      if failed_times <? max_retry_times then
        match try_fetch_git_repo host origin_repo_url local_workspace
                                 (world s) with
        | (inl e, w) => (inl e, mkState w (attempts s))
        | (inr true, w) =>
            (inr failed_times,
             mkState w (attempts s ++ [(origin_repo_url, true)]))
        | (inr false, w) =>
            let s' := mkState w (attempts s ++ [(origin_repo_url, false)]) in
            match time_sleep retry_cooldown_sec with
            | inl e => (inl e, s')
            | inr _ =>
                retry_loop fuel' (failed_times + 1) origin_repo_url
                           local_workspace max_retry_times
                           retry_cooldown_sec s'
            end
        end
      else (inr failed_times, s)
  end.

(** One iteration of the loop of lines 227-248 on [returncode]. *)
Definition fetch_one (data : Config) (returncode : Z)
           (origin_repo_url : string) (s : State W)
  : (exn + Z) * State W :=
  match extract_hostname_from_git_url origin_repo_url with
  | Some hostname =>
      if PyStr.truthy hostname then
        let '(ok, w) := configure_ssh_host host hostname (world s) in
        let s0 := mkState w (attempts s) in
        if negb ok then (inr (-2), s0)
        else
          match retry_loop (Z.to_nat (max_retry_times data)) 0
                           origin_repo_url (local_workspace data)
                           (max_retry_times data) (retry_cooldown_sec data)
                           s0 with
          | (inl e, s1) => (inl e, s1)
          | (inr failed_times, s1) =>
              if max_retry_times data <=? failed_times
              then (inr (-4), s1)
              else (inr returncode, s1)
          end
      else (inr (-3), s)
  | None => (inr (-3), s)
  end.

Fixpoint fetch_all (data : Config) (returncode : Z) (repos : list string)
         (s : State W) : (exn + Z) * State W :=
  match repos with
  | [] => (inr returncode, s)
  | origin_repo_url :: rest =>
      match fetch_one data returncode origin_repo_url s with
      | (inl e, s') => (inl e, s')
      | (inr returncode', s') => fetch_all data returncode' rest s'
      end
  end.

(** [main], lines 195-254: the exit code and the state it leaves. *)
Definition main (w : W) : Z * State W :=
  match load_config host w with
  | (inl _, w1) => (-1, mkState w1 [])
  | (inr data, w1) =>
      match run_cmd host ["git"; "config"; "--global"; "core.autocrlf";
                          "false"] w1 with
      | (inl _, w2) => (-1, mkState w2 [])
      | (inr (returncode, _, _), w2) =>
          if negb (returncode =? 0) then (-5, mkState w2 [])
          else
            match fetch_all data 0 (fetch_needed_repos data)
                            (mkState w2 []) with
            | (inl _, s) => (-1, s)
            | (inr returncode, s) => (returncode, s)
            end
      end
  end.

End Main.

(** A machine on which the fetch of a repository fails twice, then
    succeeds: the world counts the failures still to come. *)
Definition flaky_host (data : Config) : Host nat :=
  mkHost
    (fun w => (inr data, w))
    (fun _ w => (inr (0, "", ""), w))
    (fun _ w => (true, w))
    (fun _ _ w =>
       match w with
       | O => (inr true, O)
       | S n => (inr false, n)
       end).

Definition flaky_config : Config :=
  mkConfig 3 0 "/srv/ws" ["git@origin.example:team/app.git"].

End FetchRepos.

(** ** init/two-step/push-git-repo.py: [main] *)

Module PushRepos.

(** One entry of [push-needed-repos], with its two keys
    [local-repo-path] and [remote-repo-ssh-url]. *)
Record RepoPair : Type := mkRepoPair {
  cfg_local_repo_path : string;
  cfg_remote_repo_ssh_url : string
}.

(** What [main] asks of its environment.  [load_config] is the reading of
    [push-git-repo-config.json] and of its key [push-needed-repos];
    [try_push_git_repo] is the function of lines 8-121 of the same file:
    it answers [True] or [False], or raises from its [finally] clause. *)
Record Host (W : Type) : Type := mkHost {
  load_config : W -> (exn + list RepoPair) * W;
  os_path_normpath : string -> string;
  os_path_exists : string -> W -> bool;
  run_cmd : list string -> W -> (exn + (Z * string * string)) * W;
  configure_ssh_host : string -> W -> bool * W;
  try_push_git_repo : string -> string -> W -> (exn + bool) * W
}.

(** The calls [main] makes that can change the machine, each with its
    answer; [None] is a call that raised. *)
Inductive Call : Type :=
| RunCmd (cmd : list string)
| ConfigureSsh (hostname : string) (answer : bool)
| TryPush (local_repo_path remote_repo_url : string) (answer : option bool).

Record State (W : Type) : Type := mkState {
  world : W;
  calls : list Call
}.

Definition git_config_global_coreautocrlf_false_cmd : list string :=
  ["git"; "config"; "--global"; "core.autocrlf"; "false"].

Section Main.

Context {W : Type}.
Variable host : Host W.

(** The loop of lines 142-149 on [push_needed_repo_pair_list]: [inl] is
    its [return -2]. *)
Fixpoint collect_pairs (push_needed_repo_pair_list : list (string * string))
         (push_needed_repos : list RepoPair) (w : W)
  : Z + list (string * string) :=
  match push_needed_repos with
  | [] => inr push_needed_repo_pair_list
  | repo_pair :: rest =>
      let local_repo_path :=
        os_path_normpath host (cfg_local_repo_path repo_pair) in
      if negb (os_path_exists host local_repo_path w) then inl (-2)
      else
        let remote_repo_ssh_url := cfg_remote_repo_ssh_url repo_pair in
        collect_pairs
          (push_needed_repo_pair_list
             ++ [(local_repo_path, remote_repo_ssh_url)])%list
          rest w
  end.

(** One iteration of the loop of lines 165-180 on [returncode]. *)
Definition push_one (returncode : Z) (entry : string * string) (s : State W)
  : (exn + Z) * State W :=
  let '(local_repo_path, remote_repo_ssh_url) := entry in
  match extract_hostname_from_git_url remote_repo_ssh_url with
  | Some hostname =>
      if PyStr.truthy hostname then
        let '(ok, w) := configure_ssh_host host hostname (world s) in
        let s0 := mkState w (calls s ++ [ConfigureSsh hostname ok]) in
        if negb ok then (inr (-3), s0)
        else
          match try_push_git_repo host local_repo_path remote_repo_ssh_url
                                  w with
          | (inl e, w') =>
              (inl e,
               mkState w' (calls s0 ++ [TryPush local_repo_path
                                                remote_repo_ssh_url None]))
          | (inr pushed, w') =>
              let s1 :=
                mkState w' (calls s0 ++ [TryPush local_repo_path
                                                 remote_repo_ssh_url
                                                 (Some pushed)]) in
              if negb pushed then (inr (-5), s1) else (inr returncode, s1)
          end
      else (inr (-4), s)
  | None => (inr (-4), s)
  end.

Fixpoint push_all (returncode : Z)
         (push_needed_repo_pair_list : list (string * string)) (s : State W)
  : (exn + Z) * State W :=
  match push_needed_repo_pair_list with
  | [] => (inr returncode, s)
  | entry :: rest =>
      match push_one returncode entry s with
      | (inl e, s') => (inl e, s')
      | (inr returncode', s') => push_all returncode' rest s'
      end
  end.

(** [main], lines 128-186: the exit code and the state it leaves. *)
Definition main (w : W) : Z * State W :=
  match load_config host w with
  | (inl _, w1) => (-1, mkState w1 [])
  | (inr push_needed_repos, w1) =>
      match collect_pairs [] push_needed_repos w1 with
      | inl code => (code, mkState w1 [])
      | inr push_needed_repo_pair_list =>
          let cmd := git_config_global_coreautocrlf_false_cmd in
          match run_cmd host cmd w1 with
          | (inl _, w2) => (-1, mkState w2 [RunCmd cmd])
          | (inr (returncode, _, _), w2) =>
              if negb (returncode =? 0) then (-6, mkState w2 [RunCmd cmd])
              else
                match push_all 0 push_needed_repo_pair_list
                               (mkState w2 [RunCmd cmd]) with
                | (inl _, s) => (-1, s)
                | (inr returncode, s) => (returncode, s)
                end
          end
      end
  end.

(** What [main] keeps of an entry of the configuration. *)
Definition kept_pair (repo_pair : RepoPair) : string * string :=
  (os_path_normpath host (cfg_local_repo_path repo_pair),
   cfg_remote_repo_ssh_url repo_pair).

End Main.

(** The calls one entry can leave behind when nothing raises: none for a
    URL without host name, a failed SSH configuration, or a successful one
    followed by the push. *)
Definition pair_calls (entry : string * string) (chunk : list Call) : Prop :=
  match extract_hostname_from_git_url (snd entry) with
  | Some hostname =>
      if PyStr.truthy hostname then
        chunk = [ConfigureSsh hostname false]
        \/ exists pushed,
            chunk = [ConfigureSsh hostname true;
                     TryPush (fst entry) (snd entry) (Some pushed)]
      else chunk = []
  | None => chunk = []
  end.

(** A machine with one repository on disk, on which the push to any URL
    of the host [broken.example] fails. *)
Definition sample_host (push_needed_repos : list RepoPair) : Host unit :=
  mkHost
    (fun w => (inr push_needed_repos, w))
    (fun path => path)
    (fun path _ => String.eqb path "/srv/ws/app")
    (fun _ w => (inr (0, "", ""), w))
    (fun _ w => (true, w))
    (fun _ url w =>
       (inr (negb (String.eqb url "git@broken.example:team/app.git")), w)).

Definition sample_repos : list RepoPair :=
  [mkRepoPair "/srv/ws/app" "git@broken.example:team/app.git";
   mkRepoPair "/srv/ws/app" "git@mirror.example:team/app.git"].

End PushRepos.

(** ** init/one-step/make-mirror-git-repo.py: [main] *)

Module MirrorRepos.

(** One entry of [mirror-needed-repo-pairs], with its two keys
    [origin-repo-ssh-url] and [mirror-empty-repo-ssh-url]. *)
Record RepoPair : Type := mkRepoPair {
  origin_repo_ssh_url : string;
  mirror_empty_repo_ssh_url : string
}.

(** [make-mirror-git-repo-config.json] once read. *)
Record Config : Type := mkConfig {
  local_workspace : string;
  mirror_needed_repo_pairs : list RepoPair
}.

(** [try_make_mirror_git_repo] is the function of lines 10-229 of the
    same file: it answers [True] or [False], or raises from its [finally]
    clause. *)
Record Host (W : Type) : Type := mkHost {
  load_config : W -> (exn + Config) * W;
  run_cmd : list string -> W -> (exn + (Z * string * string)) * W;
  try_make_mirror_git_repo :
    string -> string -> string -> W -> (exn + bool) * W
}.

(** The world and the calls of [try_make_mirror_git_repo] made so far,
    each with its two URLs and its answer; [None] is a call that
    raised. *)
Record State (W : Type) : Type := mkState {
  world : W;
  attempts : list (string * string * option bool)
}.

Section Main.

Context {W : Type}.
Variable host : Host W.

(** The loop of lines 251-255 building [mirror_needed_repo_pair_list]. *)
Definition mirror_needed_repo_pair_list (data : Config)
  : list (string * string) :=
  map (fun repo_pair =>
         (origin_repo_ssh_url repo_pair, mirror_empty_repo_ssh_url repo_pair))
      (mirror_needed_repo_pairs data).

(** The loop of lines 271-275 on [returncode]. *)
Fixpoint mirror_all (returncode : Z) (pairs : list (string * string))
         (local_workspace : string) (s : State W) : (exn + Z) * State W :=
  match pairs with
  | [] => (inr returncode, s)
  | (origin_repo_url, mirror_repo_url) :: rest =>
      match try_make_mirror_git_repo host origin_repo_url mirror_repo_url
                                     local_workspace (world s) with
      | (inl e, w) =>
          (inl e,
           mkState w (attempts s
                        ++ [(origin_repo_url, mirror_repo_url, None)]))
      | (inr made, w) =>
          let s' :=
            mkState w (attempts s
                         ++ [(origin_repo_url, mirror_repo_url, Some made)]) in
          mirror_all (if negb made then -2 else returncode) rest
                     local_workspace s'
      end
  end.

(** [main], lines 236-281: the exit code and the state it leaves. *)
Definition main (w : W) : Z * State W :=
  match load_config host w with
  | (inl _, w1) => (-1, mkState w1 [])
  | (inr data, w1) =>
      match run_cmd host ["git"; "config"; "--global"; "core.autocrlf";
                          "false"] w1 with
      | (inl _, w2) => (-1, mkState w2 [])
      | (inr (returncode, _, _), w2) =>
          if negb (returncode =? 0) then (-3, mkState w2 [])
          else
            match mirror_all 0 (mirror_needed_repo_pair_list data)
                             (local_workspace data) (mkState w2 []) with
            | (inl _, s) => (-1, s)
            | (inr returncode, s) => (returncode, s)
            end
      end
  end.

End Main.

(** A machine on which mirroring into [broken.example] fails. *)
Definition sample_host (data : Config) : Host unit :=
  mkHost
    (fun w => (inr data, w))
    (fun _ w => (inr (0, "", ""), w))
    (fun _ mirror _ w =>
       (inr (negb (String.eqb mirror "git@broken.example:team/app.git")), w)).

Definition sample_config : Config :=
  mkConfig "/srv/ws"
    [mkRepoPair "git@origin.example:team/app.git"
                "git@broken.example:team/app.git";
     mkRepoPair "git@origin.example:team/lib.git"
                "git@mirror.example:team/lib.git"].

End MirrorRepos.

(** ** The classifier when a rule can be malformed *)

(** [get_origin_branch_changes] once more, with [re.match] able to raise:
    [re.match(reg, branch_name)] compiles [reg] first and raises
    [re.error] when it is not a regular expression.  [None] is that
    exception, which the function lets through. *)
Module Checked.

Section Classifier.

(** [re_compile reg] is the test [re.match(reg, name) is not None] on
    names, or [None] when [reg] is not a regular expression. *)
Variable re_compile : string -> option (string -> bool).

(** The inner loop: rules are tried in order up to the first match. *)
Fixpoint matched (changed_branch_accept_rules : list string)
         (branch_name : string) : option bool :=
  match changed_branch_accept_rules with
  | [] => Some false
  | reg :: rest =>
      match re_compile reg with
      | None => None
      | Some test =>
          if test branch_name then Some true else matched rest branch_name
      end
  end.

(** One iteration of the outer loop on the two result lists. *)
Definition classify_branch (mirror_branch_dict : PyDict.dict string)
           (changed_branch_accept_rules : list string)
           (acc : BranchChanges) (item : string * string)
  : option BranchChanges :=
  let '(branch_name, origin_commit) := item in
  match matched changed_branch_accept_rules branch_name with
  | None => None
  | Some is_matched =>
      if negb is_matched then Some acc
      else if PyDict.mem mirror_branch_dict branch_name then
        match PyDict.get mirror_branch_dict branch_name with
        | Some mirror_commit =>
            if negb (String.eqb origin_commit mirror_commit)
            then Some (mkBranchChanges (originAdded acc)
                                       (originUpdated acc ++ [branch_name]))
            else Some acc
        | None => Some acc
        end
      else Some (mkBranchChanges (originAdded acc ++ [branch_name])
                                 (originUpdated acc))
  end.

Fixpoint classify_items (mirror_branch_dict : PyDict.dict string)
         (changed_branch_accept_rules : list string)
         (items : list (string * string)) (acc : BranchChanges)
  : option BranchChanges :=
  match items with
  | [] => Some acc
  | item :: rest =>
      match classify_branch mirror_branch_dict changed_branch_accept_rules
                            acc item with
      | None => None
      | Some acc' =>
          classify_items mirror_branch_dict changed_branch_accept_rules
                         rest acc'
      end
  end.

Definition get_origin_branch_changes
           (origin_branch_dict mirror_branch_dict : PyDict.dict string)
           (changed_branch_accept_rules : list string)
  : option BranchChanges :=
  classify_items mirror_branch_dict changed_branch_accept_rules
                 origin_branch_dict (mkBranchChanges [] []).

(** [re.match] as a total test, for rules that compile. *)
Definition re_match (reg name : string) : bool :=
  match re_compile reg with
  | Some test => test name
  | None => false
  end.

End Classifier.

(** Patterns without metacharacters compile to a prefix test; an
    unbalanced parenthesis does not compile. *)
Definition literal_compile (reg : string) : option (string -> bool) :=
  if String.eqb reg "(" then None else Some (String.prefix reg).

End Checked.

(** * Properties *)

Unset Implicit Arguments.

(** ** Dictionaries *)

Module PyDictFacts.
Import PyDict.

Lemma get_In {V} (d : dict V) k v : get d k = Some v -> In (k, v) d.
Proof.
  induction d as [|[k' v'] d IH]; simpl; [discriminate|].
  destruct (String.eqb_spec k' k) as [->|Hne].
  - intros [= ->]. now left.
  - intros H. right. now apply IH.
Qed.

Lemma get_None {V} (d : dict V) k : get d k = None <-> ~ In k (keys d).
Proof.
  induction d as [|[k' v'] d IH]; simpl.
  - split; [intros _ []|reflexivity].
  - destruct (String.eqb_spec k' k) as [->|Hne].
    + split; [discriminate|]. intros H. exfalso. apply H. now left.
    + rewrite IH. split.
      * intros H [E|HI]; [now apply Hne|now apply H].
      * intros H HI. apply H. now right.
Qed.

Lemma In_get {V} (d : dict V) k v :
  wf d -> In (k, v) d -> get d k = Some v.
Proof.
  unfold wf. induction d as [|[k' v'] d IH]; simpl; [intros _ []|].
  intros Hnd [E|HI].
  - inversion E; subst. now rewrite String.eqb_refl.
  - inversion Hnd as [|? ? Hnot Hnd']; subst.
    destruct (String.eqb_spec k' k) as [->|Hne].
    + exfalso. apply Hnot. change k with (fst (k, v)). now apply in_map.
    + now apply IH.
Qed.

Lemma mem_true {V} (d : dict V) k : mem d k = true <-> In k (keys d).
Proof.
  unfold mem. destruct (get d k) as [v|] eqn:E.
  - split; [intros _|reflexivity].
    apply get_In in E. change k with (fst (k, v)). now apply in_map.
  - split; [discriminate|]. intros H. now apply get_None in E.
Qed.

Lemma keys_set {V} (d : dict V) k v :
  keys (set d k v) = if mem d k then keys d else (keys d ++ [k])%list.
Proof.
  unfold mem. induction d as [|[k' v'] d IH]; simpl; [reflexivity|].
  destruct (String.eqb_spec k' k) as [->|Hne]; simpl; [reflexivity|].
  rewrite IH. now destruct (get d k).
Qed.

Lemma wf_set {V} (d : dict V) k v : wf d -> wf (set d k v).
Proof.
  unfold wf. intros Hnd. rewrite keys_set.
  destruct (mem d k) eqn:E; [assumption|].
  assert (Hk : ~ In k (keys d)).
  { intros HI. apply mem_true in HI. congruence. }
  apply NoDup_rev in Hnd. rewrite <- (rev_involutive (keys d ++ [k])).
  apply NoDup_rev. rewrite rev_app_distr. simpl. constructor.
  - now rewrite <- in_rev.
  - assumption.
Qed.

Lemma get_set_same {V} (d : dict V) k v : get (set d k v) k = Some v.
Proof.
  induction d as [|[k' v'] d IH]; simpl.
  - now rewrite String.eqb_refl.
  - destruct (String.eqb_spec k' k) as [->|Hne]; simpl.
    + now rewrite String.eqb_refl.
    + destruct (String.eqb_spec k' k); [contradiction|assumption].
Qed.

Lemma get_set_other {V} (d : dict V) k k' v :
  k' <> k -> get (set d k v) k' = get d k'.
Proof.
  intros Hne. induction d as [|[k0 v0] d IH]; simpl.
  - destruct (String.eqb_spec k k'); [congruence|reflexivity].
  - destruct (String.eqb_spec k0 k) as [->|Hne0]; simpl.
    + destruct (String.eqb_spec k k'); [congruence|reflexivity].
    + now rewrite IH.
Qed.

End PyDictFacts.

(** ** The change classifier *)

Section ClassifierFacts.

Variable re_match : string -> string -> bool.

Implicit Types (origin mirror : PyDict.dict string) (rules : list string).

Lemma matched_spec rules name :
  matched re_match rules name = true <->
  exists reg, In reg rules /\ re_match reg name = true.
Proof.
  induction rules as [|reg rules IH]; simpl.
  - split; [discriminate|]. now intros (reg & [] & _).
  - destruct (re_match reg name) eqn:E.
    + split; [|reflexivity]. intros _. exists reg. split; [now left|assumption].
    + rewrite IH. split.
      * intros (r & Hin & Hr). exists r. split; [now right|assumption].
      * intros (r & [->|Hin] & Hr); [congruence|]. now exists r.
Qed.

(** What one iteration does to the two lists, case by case. *)
Lemma classify_branch_cases mirror rules acc name oc :
  let acc' := classify_branch re_match mirror rules acc (name, oc) in
  (matched re_match rules name = false /\ acc' = acc)
  \/ (matched re_match rules name = true
      /\ PyDict.get mirror name = None
      /\ acc' = mkBranchChanges (originAdded acc ++ [name])
                                (originUpdated acc))
  \/ (matched re_match rules name = true
      /\ PyDict.get mirror name = Some oc
      /\ acc' = acc)
  \/ (matched re_match rules name = true
      /\ (exists mc, PyDict.get mirror name = Some mc /\ mc <> oc)
      /\ acc' = mkBranchChanges (originAdded acc)
                                (originUpdated acc ++ [name])).
Proof.
  unfold classify_branch, PyDict.mem. simpl.
  destruct (matched re_match rules name); simpl; [|now left].
  right. destruct (PyDict.get mirror name) as [mc|]; [|now left].
  right. destruct (String.eqb_spec oc mc) as [->|Hne]; simpl.
  - now left.
  - right. repeat split. exists mc. split; [reflexivity|congruence].
Qed.

Lemma added_fold mirror rules (l : list (string * string)) acc name :
  In name (originAdded
             (fold_left (classify_branch re_match mirror rules) l acc)) <->
  In name (originAdded acc)
  \/ (In name (map fst l) /\ matched re_match rules name = true
      /\ PyDict.get mirror name = None).
Proof.
  revert acc. induction l as [|[n oc] l IH]; intros acc;
    cbn [fold_left map fst In].
  - split; [now left|]. now intros [H|([] & _)].
  - rewrite IH.
    destruct (classify_branch_cases mirror rules acc n oc)
      as [(Hm & ->)|[(Hm & Hg & ->)|[(Hm & Hg & ->)
                                    |(Hm & (mc & Hg & Hne) & ->)]]];
      cbn [originAdded originUpdated]; try rewrite in_app_iff;
      cbn [In].
    + split; [tauto|]. intros [H|([<-|H1] & H2 & H3)]; try tauto.
      congruence.
    + split; [|tauto]. intros [[H|[<-|[]]]|H]; tauto.
    + split; [tauto|]. intros [H|([<-|H1] & H2 & H3)]; try tauto.
      congruence.
    + split; [tauto|]. intros [H|([<-|H1] & H2 & H3)]; try tauto.
      congruence.
Qed.

Lemma updated_fold mirror rules (l : list (string * string)) acc name :
  In name (originUpdated
             (fold_left (classify_branch re_match mirror rules) l acc)) <->
  In name (originUpdated acc)
  \/ (matched re_match rules name = true
      /\ exists oc mc, In (name, oc) l
                       /\ PyDict.get mirror name = Some mc /\ mc <> oc).
Proof.
  revert acc. induction l as [|[n oc] l IH]; intros acc;
    cbn [fold_left In].
  - split; [now left|]. now intros [H|(_ & ? & ? & [] & _)].
  - rewrite IH.
    destruct (classify_branch_cases mirror rules acc n oc)
      as [(Hm & ->)|[(Hm & Hg & ->)|[(Hm & Hg & ->)
                                    |(Hm & (mc & Hg & Hne) & ->)]]];
      cbn [originAdded originUpdated]; try rewrite in_app_iff;
      cbn [In].
    + split.
      * intros [H|(H1 & c & m & H2 & H3)]; [tauto|].
        right. split; [assumption|]. exists c, m. tauto.
      * intros [H|(H1 & c & m & [E|H2] & H3)]; [tauto| |].
        -- inversion E; subst. congruence.
        -- right. split; [assumption|]. now exists c, m.
    + split.
      * intros [H|(H1 & c & m & H2 & H3)]; [tauto|].
        right. split; [assumption|]. exists c, m. tauto.
      * intros [H|(H1 & c & m & [E|H2] & H3 & H4)]; [tauto| |].
        -- inversion E; subst. congruence.
        -- right. split; [assumption|]. now exists c, m.
    + split.
      * intros [H|(H1 & c & m & H2 & H3)]; [tauto|].
        right. split; [assumption|]. exists c, m. tauto.
      * intros [H|(H1 & c & m & [E|H2] & H3 & H4)]; [tauto| |].
        -- inversion E; subst. congruence.
        -- right. split; [assumption|]. now exists c, m.
    + split.
      * intros [[H|[<-|[]]]|(H1 & c & m & H2 & H3)]; [tauto| |].
        -- right. split; [assumption|]. exists oc, mc. tauto.
        -- right. split; [assumption|]. exists c, m. tauto.
      * intros [H|(H1 & c & m & [E|H2] & H3 & H4)]; [tauto| |].
        -- inversion E; subst. tauto.
        -- right. split; [assumption|]. now exists c, m.
Qed.

(** With distinct keys in [origin], each output list has no duplicate. *)
Lemma nodup_fold mirror rules (l : list (string * string)) acc :
  NoDup (map fst l) ->
  NoDup (originAdded acc) -> NoDup (originUpdated acc) ->
  (forall n, In n (map fst l) ->
             ~ In n (originAdded acc) /\ ~ In n (originUpdated acc)) ->
  let r := fold_left (classify_branch re_match mirror rules) l acc in
  NoDup (originAdded r) /\ NoDup (originUpdated r).
Proof.
  revert acc. induction l as [|[n oc] l IH]; intros acc Hl Ha Hu Hfresh;
    cbn [fold_left map fst] in *.
  - now split.
  - inversion Hl as [|? ? Hn Hl']; subst.
    assert (Hsnoc : forall xs : list string,
               NoDup xs -> ~ In n xs -> NoDup (xs ++ [n])).
    { intros xs Hxs Hnot. apply NoDup_rev in Hxs.
      rewrite <- (rev_involutive (xs ++ [n])). apply NoDup_rev.
      rewrite rev_app_distr. simpl. constructor; [|assumption].
      now rewrite <- in_rev. }
    destruct (Hfresh n (or_introl eq_refl)) as [Hna Hnu].
    apply IH; [assumption| | |].
    all: destruct (classify_branch_cases mirror rules acc n oc)
      as [(Hm & ->)|[(Hm & Hg & ->)|[(Hm & Hg & ->)
                                    |(Hm & (mc & Hg & Hne) & ->)]]];
      cbn [originAdded originUpdated]; auto.
    all: intros k Hk; destruct (Hfresh k (or_intror Hk)) as [H1 H2];
      try rewrite in_app_iff; cbn [In]; split; auto.
    all: intros [H|[<-|[]]]; auto.
Qed.

End ClassifierFacts.

(** The classifier on a small input: [feature] is new on the origin side,
    [main] is the same on both sides, [scratch] matches no rule. *)
Example classifier_added_only :
  get_origin_branch_changes literal_match
    [("main", "a1"); ("feature", "b1"); ("scratch", "c1")] [("main", "a1")]
    ["main"; "feature"]
  = mkBranchChanges ["feature"] [].
Proof. reflexivity. Qed.

(** C1. For every item [(name, oc)] of the origin snapshot: the name is
    considered exactly when some accept rule matches a prefix of it; it
    is put in [originAdded] exactly when it is considered and absent from
    the mirror snapshot, in [originUpdated] exactly when it is considered
    and the mirror snapshot holds another commit for it, and in neither
    list when the mirror snapshot holds the same commit. *)
Theorem classifier_decides_each_ref
        (re_match : string -> string -> bool)
        (origin mirror : PyDict.dict string) (rules : list string)
        (name oc : string) :
  PyDict.wf origin ->
  In (name, oc) origin ->
  let changes := get_origin_branch_changes re_match origin mirror rules in
  (matched re_match rules name = true <->
   exists reg, In reg rules /\ re_match reg name = true)
  /\ (In name (originAdded changes) <->
      matched re_match rules name = true /\ PyDict.mem mirror name = false)
  /\ (In name (originUpdated changes) <->
      matched re_match rules name = true
      /\ exists mc, PyDict.get mirror name = Some mc /\ mc <> oc)
  /\ (PyDict.get mirror name = Some oc ->
      ~ In name (originAdded changes) /\ ~ In name (originUpdated changes)).
Proof.
  intros Hwf Hin changes. subst changes. unfold get_origin_branch_changes.
  assert (Hkey : In name (map fst origin)).
  { change name with (fst (name, oc)). now apply in_map. }
  assert (Hmem : PyDict.mem mirror name = false <->
                 PyDict.get mirror name = None).
  { unfold PyDict.mem. destruct (PyDict.get mirror name); split; congruence. }
  assert (Hupd : In name (originUpdated
                   (fold_left (classify_branch re_match mirror rules) origin
                              (mkBranchChanges [] []))) <->
                 matched re_match rules name = true
                 /\ exists mc, PyDict.get mirror name = Some mc /\ mc <> oc).
  { rewrite updated_fold. cbn [originUpdated In]. split.
    - intros [[]|(Hm & c & mc & Hc & Hg & Hne)]. split; [assumption|].
      exists mc. split; [assumption|].
      pose proof (PyDictFacts.In_get origin name c Hwf Hc).
      pose proof (PyDictFacts.In_get origin name oc Hwf Hin).
      congruence.
    - intros (Hm & mc & Hg & Hne). right. split; [assumption|].
      now exists oc, mc. }
  split; [apply matched_spec|]. split; [|split]. 
  - rewrite added_fold, Hmem. cbn [originAdded In]. tauto.
  - exact Hupd.
  - intros Hg. split.
    + rewrite added_fold. cbn [originAdded In].
      intros [[]|(_ & _ & HN)]. congruence.
    + rewrite Hupd. intros (_ & mc & Hg' & Hne). congruence.
Qed.

Lemma classifier_decides_each_ref_witness :
  let origin := [("main", "a2"); ("feature", "b1"); ("scratch", "c1")] in
  let mirror := [("main", "a1")] in
  let changes :=
    get_origin_branch_changes literal_match origin mirror ["main"; "feature"] in
  PyDict.wf origin /\ In ("main", "a2") origin
  /\ (In "main" (originUpdated changes) <->
      matched literal_match ["main"; "feature"] "main" = true
      /\ exists mc, PyDict.get mirror "main" = Some mc /\ mc <> "a2").
Proof.
  intros origin mirror changes.
  assert (Hwf : PyDict.wf origin).
  { unfold PyDict.wf. simpl. repeat constructor; simpl; intuition discriminate. }
  assert (Hin : In ("main", "a2") origin) by (simpl; auto).
  split; [exact Hwf|]. split; [exact Hin|].
  exact (proj1 (proj2 (proj2
    (classifier_decides_each_ref literal_match origin mirror
       ["main"; "feature"] "main" "a2" Hwf Hin)))).
Defined.

(** C7. Whatever the two snapshots and the accept rules: no name is in
    both output lists; a name in either list is a key of the origin
    snapshot that some accept rule matches; a name that is not a key of
    the origin snapshot is in neither list. *)
Theorem classifier_outputs_disjoint_and_accepted
        (re_match : string -> string -> bool)
        (origin mirror : PyDict.dict string) (rules : list string) :
  let changes := get_origin_branch_changes re_match origin mirror rules in
  (forall name,
      ~ (In name (originAdded changes) /\ In name (originUpdated changes)))
  /\ (forall name,
         In name (originAdded changes) \/ In name (originUpdated changes) ->
         In name (PyDict.keys origin)
         /\ exists reg, In reg rules /\ re_match reg name = true)
  /\ (forall name,
         ~ In name (PyDict.keys origin) ->
         ~ In name (originAdded changes)
         /\ ~ In name (originUpdated changes)).
Proof.
  intros changes. subst changes. unfold get_origin_branch_changes.
  assert (Hsub : forall name,
     In name (originAdded (fold_left (classify_branch re_match mirror rules)
                origin (mkBranchChanges [] [])))
     \/ In name (originUpdated (fold_left (classify_branch re_match mirror rules)
                origin (mkBranchChanges [] []))) ->
     In name (PyDict.keys origin) /\ matched re_match rules name = true).
  { intros name. rewrite added_fold, updated_fold. cbn [originAdded originUpdated In].
    intros [[[]|(Hk & Hm & _)]|[[]|(Hm & c & mc & Hc & _)]].
    - now split.
    - split; [|assumption]. change name with (fst (name, c)).
      unfold PyDict.keys. now apply in_map. }
  split; [|split].
  - intros name. rewrite added_fold, updated_fold.
    cbn [originAdded originUpdated In].
    intros [[[]|(_ & _ & HN)] [[]|(_ & c & mc & _ & HS & _)]]. congruence.
  - intros name H. destruct (Hsub name H) as [Hk Hm]. split; [assumption|].
    now apply matched_spec.
  - intros name Hk. split; intros H; apply Hk.
    + now apply (Hsub name (or_introl H)).
    + now apply (Hsub name (or_intror H)).
Qed.

(** C9. Classifying a snapshot against itself gives two empty lists,
    whatever the accept rules. *)
Theorem classifier_same_snapshot_is_empty
        (re_match : string -> string -> bool)
        (S : PyDict.dict string) (R : list string) :
  PyDict.wf S ->
  get_origin_branch_changes re_match S S R = mkBranchChanges [] [].
Proof.
  intros Hwf. unfold get_origin_branch_changes.
  assert (H : forall l acc,
             (forall k v, In (k, v) l -> PyDict.get S k = Some v) ->
             fold_left (classify_branch re_match S R) l acc = acc).
  { induction l as [|[k v] l IH]; intros acc Hl; cbn [fold_left];
      [reflexivity|].
    rewrite IH by (intros k' v' Hk; apply Hl; now right).
    destruct (classify_branch_cases re_match S R acc k v)
      as [(_ & E)|[(_ & Hg & _)|[(_ & _ & E)|(_ & (mc & Hg & Hne) & _)]]];
      try exact E.
    - rewrite (Hl k v (or_introl eq_refl)) in Hg. discriminate.
    - rewrite (Hl k v (or_introl eq_refl)) in Hg. congruence. }
  apply H. intros k v Hk. now apply PyDictFacts.In_get.
Qed.

Lemma classifier_same_snapshot_is_empty_witness :
  let S := [("main", "a1"); ("feature", "b1")] in
  PyDict.wf S
  /\ get_origin_branch_changes literal_match S S ["main"; "feature"]
     = mkBranchChanges [] [].
Proof.
  intros S.
  assert (Hwf : PyDict.wf S).
  { unfold PyDict.wf. simpl. repeat constructor; simpl; intuition discriminate. }
  split; [exact Hwf|].
  exact (classifier_same_snapshot_is_empty literal_match S ["main"; "feature"]
           Hwf).
Defined.

(** ** The driver *)

Section DriverFacts.

Context {W : Type}.
Variable host : Host W.
Variable re_match : string -> string -> bool.

(** After the loop of lines 332-336 the two locals hold the URLs of the
    last pair. *)
Lemma bind_repo_pairs_last (earlier : list RepoPair) (last : RepoPair) locals :
  exists l,
    fold_left bind_repo_pair (earlier ++ [last]) locals
    = (Some (origin_repo_ssh_url last),
       Some (mirror_empty_repo_ssh_url last), l).
Proof.
  rewrite fold_left_app. cbn [fold_left].
  destruct (fold_left bind_repo_pair earlier locals) as [[o m] l].
  unfold bind_repo_pair. eexists. reflexivity.
Qed.

Lemma main_configured_last ws (earlier : list RepoPair) (last : RepoPair)
      ro rm (w : W) :
  main_configured host re_match (mkConfig ws (earlier ++ [last]) ro rm) w
  = sync_between_two_repos host re_match
      (Some (origin_repo_ssh_url last))
      (Some (mirror_empty_repo_ssh_url last)) ws ro rm w.
Proof.
  unfold main_configured. cbn [sync_needed_repo_pairs local_workspace
    origin_changed_branch_accept_rules mirror_changed_branch_accept_rules].
  destruct (bind_repo_pairs_last earlier last (None, None, [])) as [l ->].
  reflexivity.
Qed.

(** The passes of [sync_between_two_repos] are for the URLs it is given:
    at most two, the first from origin to mirror, the second back. *)
Lemma sync_between_two_repos_passes o m ws ro rm (w : W) :
  let r := sync_between_two_repos host re_match (Some o) (Some m) ws ro rm w in
  exists out1 s1,
    try_sync_origin_updates_into_mirror host re_match o m ws ro w = (out1, s1)
    /\ (passes r = [mkPassRun o m ro out1 s1]
        \/ exists out2 s2,
            out1 = Returned 0
            /\ try_sync_origin_updates_into_mirror host re_match m o ws rm
                 (world s1) = (out2, s2)
            /\ passes r = [mkPassRun o m ro out1 s1;
                           mkPassRun m o rm out2 s2]).
Proof.
  unfold sync_between_two_repos.
  destruct (try_sync_origin_updates_into_mirror host re_match o m ws ro w)
    as [out1 s1] eqn:E1.
  exists out1, s1. split; [reflexivity|].
  destruct out1 as [returncode|e]; [|now left].
  unfold failed. destruct (Z.eqb_spec returncode 0) as [->|Hne]; cbn [negb];
    [|now left].
  destruct (try_sync_origin_updates_into_mirror host re_match m o ws rm
              (world s1)) as [out2 s2] eqn:E2.
  right. exists out2, s2. split; [reflexivity|]. split; [reflexivity|].
  destruct out2 as [return_code|e]; [|reflexivity].
  now destruct (negb (return_code =? 0)).
Qed.

(** The second pass failing after the first succeeded: [main] hands
    back the first pass's code, which is 0. *)
Lemma second_pass_failure_is_masked o m ws ro rm (w : W) s1 s2 c :
  try_sync_origin_updates_into_mirror host re_match o m ws ro w
  = (Returned 0, s1) ->
  try_sync_origin_updates_into_mirror host re_match m o ws rm (world s1)
  = (Returned c, s2) ->
  exit_code (sync_between_two_repos host re_match (Some o) (Some m)
                                    ws ro rm w) = 0.
Proof.
  intros E1 E2. unfold sync_between_two_repos. rewrite E1.
  cbn [failed Z.eqb negb]. rewrite E2.
  now destruct (failed c).
Qed.

End DriverFacts.

(** C10. When the configuration lists the pairs [earlier ++ [last]],
    [main] behaves exactly as the two-pass synchronisation of [last]
    alone: it runs the pass from the origin of [last] to its mirror, then,
    when that pass returned 0, the pass back, and no other pass; every
    pass it runs is between the two URLs of [last], and a configuration
    from which the earlier pairs are removed gives the same run. *)
Theorem main_syncs_only_the_last_pair
        (W : Type) (host : Host W) (re_match : string -> string -> bool)
        (w w1 : W) (data : Config)
        (earlier : list RepoPair) (last : RepoPair) :
  load_config host w = (inr data, w1) ->
  sync_needed_repo_pairs data = (earlier ++ [last])%list ->
  let o := origin_repo_ssh_url last in
  let m := mirror_empty_repo_ssh_url last in
  main host re_match w
  = sync_between_two_repos host re_match (Some o) (Some m)
      (local_workspace data)
      (origin_changed_branch_accept_rules data)
      (mirror_changed_branch_accept_rules data) w1
  /\ main host re_match w
     = main_configured host re_match
         (mkConfig (local_workspace data) [last]
                   (origin_changed_branch_accept_rules data)
                   (mirror_changed_branch_accept_rules data)) w1
  /\ (forall p, In p (passes (main host re_match w)) ->
        (pass_origin_repo_url p = o /\ pass_mirror_repo_url p = m)
        \/ (pass_origin_repo_url p = m /\ pass_mirror_repo_url p = o))
  /\ (exists out1 s1,
         try_sync_origin_updates_into_mirror host re_match o m
           (local_workspace data) (origin_changed_branch_accept_rules data) w1
         = (out1, s1)
         /\ (passes (main host re_match w)
             = [mkPassRun o m (origin_changed_branch_accept_rules data)
                          out1 s1]
             \/ exists out2 s2,
                 out1 = Returned 0
                 /\ try_sync_origin_updates_into_mirror host re_match m o
                      (local_workspace data)
                      (mirror_changed_branch_accept_rules data) (world s1)
                    = (out2, s2)
                 /\ passes (main host re_match w)
                    = [mkPassRun o m (origin_changed_branch_accept_rules data)
                                 out1 s1;
                       mkPassRun m o (mirror_changed_branch_accept_rules data)
                                 out2 s2])).
Proof.
  intros Hload Hpairs o m. unfold main. rewrite Hload.
  destruct data as [ws pairs ro rm]. cbn in Hpairs |- *. subst pairs.
  rewrite main_configured_last.
  split; [reflexivity|]. split; [|split].
  - symmetry. exact (main_configured_last host re_match ws [] last ro rm w1).
  - fold o m. intros p Hp.
    destruct (sync_between_two_repos_passes host re_match o m ws ro rm w1)
      as (out1 & s1 & _ & [E|(out2 & s2 & _ & _ & E)]);
      cbv zeta in E; rewrite E in Hp; cbn [In] in Hp.
    + destruct Hp as [<-|[]]. now left.
    + destruct Hp as [<-|[<-|[]]]; [now left|now right].
  - fold o m.
    exact (sync_between_two_repos_passes host re_match o m ws ro rm w1).
Qed.

Lemma main_syncs_only_the_last_pair_witness :
  let earlier := [mkRepoPair "git@origin.example:team/lib.git"
                             "git@mirror.example:team/lib.git"] in
  let last := mkRepoPair "git@origin.example:team/app.git"
                         "git@mirror.example:team/app.git" in
  let data := mkConfig "/srv/ws" (earlier ++ [last]) ["main"] ["main"] in
  let host := scripted_host true data in
  load_config host [] = (inr data, [])
  /\ sync_needed_repo_pairs data = (earlier ++ [last])%list
  /\ (forall p, In p (passes (main host literal_match [])) ->
        (pass_origin_repo_url p = origin_repo_ssh_url last
         /\ pass_mirror_repo_url p = mirror_empty_repo_ssh_url last)
        \/ (pass_origin_repo_url p = mirror_empty_repo_ssh_url last
            /\ pass_mirror_repo_url p = origin_repo_ssh_url last))
  /\ map (fun p => (pass_origin_repo_url p, pass_mirror_repo_url p))
         (passes (main host literal_match []))
     = [("git@origin.example:team/app.git", "git@mirror.example:team/app.git");
        ("git@mirror.example:team/app.git", "git@origin.example:team/app.git")].
Proof.
  intros earlier last data host.
  split; [reflexivity|]. split; [reflexivity|].
  destruct (main_syncs_only_the_last_pair _ host literal_match [] [] data
              earlier last eq_refl eq_refl)
    as (_ & _ & Hall & out1 & s1 & _ & Hpasses).
  split; [exact Hall|].
  destruct Hpasses as [E|(out2 & s2 & _ & _ & E)]; vm_compute; reflexivity.
Defined.

(** C2. The first pass succeeds and the second fails ([git ls-remote]
    exits with 128, so the second pass returns -7): [main] returns 0, the
    value of [returncode], and not -7, the value of [return_code]. *)
Theorem main_masks_second_pass_failure :
  let r := main (scripted_host true sample_config) literal_match
                (quiet 11 ++ [(128, "")])%list in
  map (@pass_outcome _) (passes r) = [Returned 0; Returned (-7)]
  /\ exit_code r = 0.
Proof. vm_compute. split; reflexivity. Qed.

(** C3. A pass in which every command succeeds ends with the three tag
    commands, in the order: fetch from mirror, fetch from origin, push to
    mirror; the push has the single option [-f--tags], so neither [-f]
    nor [--tags] is among its arguments. *)
Theorem tag_push_has_one_joined_option :
  let r := try_sync_origin_updates_into_mirror
             (scripted_host true sample_config) literal_match
             "git@origin.example:team/app.git"
             "git@mirror.example:team/app.git" "/srv/ws" ["main"; "feature"]
             (quiet 3 ++ [(0, sample_origin_listing);
                          (0, sample_mirror_listing)])%list in
  fst r = Returned 0
  /\ skipn 11 (trace (snd r))
     = [mkEvent git_fetch_mirror_tags_cmd
                ["git"; "fetch"; "mirror"; "--tags"] (Some 0);
        mkEvent git_fetch_origin_tags_cmd
                ["git"; "fetch"; "origin"; "--tags"] (Some 0);
        mkEvent git_push_tags_to_mirror_cmd
                ["git"; "push"; "mirror"; "-f--tags"] (Some 0)]
  /\ (forall e, In e (trace (snd r)) ->
        ev_site e = git_push_tags_to_mirror_cmd ->
        ev_argv e = ["git"; "push"; "mirror"; "-f--tags"]
        /\ ~ In "-f" (ev_argv e) /\ ~ In "--tags" (ev_argv e)).
Proof.
  vm_compute. split; [reflexivity|]. split; [reflexivity|].
  intros e He Hsite.
  repeat (destruct He as [<-|He]; [try discriminate Hsite|]);
    [|destruct He].
  split; [reflexivity|].
  split; intros H; repeat (destruct H as [H|H]; [discriminate H|]); exact H.
Qed.

(** C6. The two early exits never deliver their codes.  When
    [configure_ssh_host] fails (the [return -2] of line 73), and when the
    URL has no [git@host:] prefix (the [return -3] of line 76), [cwd] has
    no value yet, the [finally] clause raises [UnboundLocalError], and
    [main] turns it into -1. *)
Theorem early_exits_raise_instead_of_returning :
  fst (try_sync_origin_updates_into_mirror
         (scripted_host false sample_config) literal_match
         "git@origin.example:team/app.git" "git@mirror.example:team/app.git"
         "/srv/ws" ["main"] [])
  = Raised (UnboundLocalError "cwd")
  /\ fst (try_sync_origin_updates_into_mirror
            (scripted_host true sample_config) literal_match
            "https://origin.example/team/app.git"
            "git@mirror.example:team/app.git" "/srv/ws" ["main"] [])
     = Raised (UnboundLocalError "cwd")
  /\ exit_code (main (scripted_host false sample_config) literal_match [])
     = -1.
Proof. vm_compute. repeat split; reflexivity. Qed.

(** ** Fail-fast runs *)

Section FailFastFacts.

Variables o m : string.

Lemma ff_app_completed sites1 evs1 sites2 evs2 h :
  fail_fast o m sites1 evs1 Completed ->
  fail_fast o m sites2 evs2 h ->
  fail_fast o m (sites1 ++ sites2) (evs1 ++ evs2) h.
Proof.
  intros H1 H2. remember Completed as c eqn:Ec.
  induction H1; try discriminate; cbn [app].
  - assumption.
  - constructor. now apply IHfail_fast.
Qed.

Lemma ff_app_stopped sites1 evs1 sites2 h :
  fail_fast o m sites1 evs1 h ->
  h <> Completed ->
  fail_fast o m (sites1 ++ sites2) evs1 h.
Proof.
  intros H1 Hh. induction H1; cbn [app].
  - congruence.
  - constructor. now apply IHfail_fast.
  - now constructor.
  - constructor.
  - constructor.
Qed.

(** The shape of a fail-fast run: the events of a prefix [done] of the
    plan, all with exit code 0, then at most one more event, for the
    place that follows [done], with another exit code or none. *)
Lemma ff_normal_form sites evs h :
  fail_fast o m sites evs h ->
  exists done rest,
    sites = (done ++ rest)%list
    /\ ((evs = map (event_ok o m) done
         /\ (h = Crashed \/ (h = Completed /\ rest = [])))
        \/ (exists site rest' rc,
               rest = site :: rest' /\ rc <> 0
               /\ evs = (map (event_ok o m) done
                         ++ [mkEvent site (command_at o m site) (Some rc)])%list
               /\ h = Failed (return_code_at site))
        \/ (exists site rest',
               rest = site :: rest'
               /\ evs = (map (event_ok o m) done
                         ++ [mkEvent site (command_at o m site) None])%list
               /\ h = Crashed)).
Proof.
  induction 1 as [|site sites evs h H IH|site sites rc Hrc|site sites|sites].
  - exists [], []. split; [reflexivity|]. left. split; [reflexivity|].
    right. now split.
  - destruct IH as (done & rest & -> & IH). exists (site :: done), rest.
    split; [reflexivity|].
    destruct IH as [(-> & Hh)|[(s' & r' & rc & -> & Hrc & -> & ->)
                              |(s' & r' & -> & -> & ->)]].
    + left. now split.
    + right; left. exists s', r', rc. now repeat split.
    + right; right. exists s', r'. now repeat split.
  - exists [], (site :: sites). split; [reflexivity|]. right; left.
    exists site, sites, rc. now repeat split.
  - exists [], (site :: sites). split; [reflexivity|]. right; right.
    exists site, sites. now repeat split.
  - exists [], sites. split; [reflexivity|]. left. split; [reflexivity|].
    now left.
Qed.

Lemma ff_sites_prefix sites evs h :
  fail_fast o m sites evs h ->
  exists rest, sites = (map ev_site evs ++ rest)%list.
Proof.
  induction 1 as [|site sites evs h H [rest ->]|site sites rc Hrc
                  |site sites|sites]; cbn [map app ev_site event_ok].
  - now exists [].
  - now exists rest.
  - now exists sites.
  - now exists sites.
  - now exists sites.
Qed.

(** Every event but the last is a command of the plan that exited
    with 0. *)
Lemma ff_ok_before_last sites before ev after h :
  fail_fast o m sites (before ++ ev :: after) h ->
  after <> [] ->
  ev = event_ok o m (ev_site ev).
Proof.
  revert sites. induction before as [|e before IH]; intros sites H Hafter;
    cbn [app] in H.
  - inversion H; subst; try reflexivity; contradiction.
  - inversion H as [|site sites' evs h' H'| | |]; subst.
    + now apply (IH sites').
    + now destruct before.
    + now destruct before.
Qed.

Lemma ff_bad_is_last sites evs ev h :
  fail_fast o m sites evs h ->
  In ev evs ->
  ev_rc ev <> Some 0 ->
  exists before, evs = (before ++ [ev])%list.
Proof.
  intros H Hin Hrc. destruct (in_split _ _ Hin) as (l1 & l2 & ->).
  destruct l2 as [|e l2]; [now exists l1|].
  exfalso. apply Hrc.
  rewrite (ff_ok_before_last sites l1 ev (e :: l2) h H); [reflexivity|].
  discriminate.
Qed.

Lemma ff_before_last_ok sites before ev h :
  fail_fast o m sites (before ++ [ev]) h ->
  forall e, In e before -> e = event_ok o m (ev_site e).
Proof.
  intros H e Hin. destruct (in_split _ _ Hin) as (l1 & l2 & ->).
  rewrite <- app_assoc in H. cbn [app] in H.
  apply (ff_ok_before_last sites l1 e (l2 ++ [ev]) h H).
  now destruct l2.
Qed.

Lemma ff_last_failed sites before ev rc h :
  fail_fast o m sites (before ++ [ev]) h ->
  ev_rc ev = Some rc -> rc <> 0 ->
  h = Failed (return_code_at (ev_site ev)).
Proof.
  revert sites. induction before as [|e before IH]; intros sites H Hrc Hne;
    cbn [app] in H.
  - inversion H as [|site sites' evs h' H'| | |]; subst; cbn in Hrc |- *.
    + congruence.
    + reflexivity.
    + discriminate.
  - inversion H as [|site sites' evs h' H'| | |]; subst.
    + now apply (IH sites').
    + now destruct before.
    + now destruct before.
Qed.

End FailFastFacts.

(** ** Blocks of commands *)

Section BlockFacts.

Context {W : Type}.
Variable host : Host W.
Variables o m : string.

(** A command whose exit code is checked, as the last statement of a
    block. *)
Lemma block_step_last (site : Site) :
  block_runs o m [site]
    (' (returncode, _, _) <- run host site (command_at o m site) ;;
     when (failed returncode) (return_ (return_code_at site))).
Proof.
  intros s. unfold bind, run, when, failed, return_, next.
  destruct (run_cmd host (command_at o m site) (world s))
    as [[e|[[rc out] err]] w]; cbn [fst snd trace cwd origin_branch_changes].
  - exists [mkEvent site (command_at o m site) None], Crashed.
    repeat split. constructor.
  - destruct (Z.eqb_spec rc 0) as [->|Hne];
      cbn [negb fst snd trace cwd origin_branch_changes].
    + exists [event_ok o m site], Completed. repeat split.
      repeat constructor.
    + exists [mkEvent site (command_at o m site) (Some rc)],
        (Failed (return_code_at site)).
      repeat split. now constructor.
Qed.

(** Two blocks in sequence. *)
Lemma block_seq {A B} sites1 sites2 (b1 : M W A) (b2 : A -> M W B) :
  block_runs o m sites1 b1 ->
  (forall a, block_runs o m sites2 (b2 a)) ->
  block_runs o m (sites1 ++ sites2) (bind b1 b2).
Proof.
  intros H1 H2 s. unfold bind.
  destruct (H1 s) as (evs1 & h1 & Ht1 & Hff1 & He1 & Hc1 & Hb1).
  destruct (b1 s) as [[a|code|e] s1]; cbn [fst snd] in *.
  - destruct h1; try contradiction.
    destruct (H2 a s1) as (evs2 & h2 & Ht2 & Hff2 & He2 & Hc2 & Hb2).
    exists (evs1 ++ evs2)%list, h2. repeat split.
    + now rewrite Ht2, Ht1, app_assoc.
    + now apply ff_app_completed.
    + assumption.
    + congruence.
    + congruence.
  - destruct h1; try contradiction. exists evs1, (Failed code0).
    repeat split; try assumption. now apply ff_app_stopped.
  - destruct h1; try contradiction. exists evs1, Crashed.
    repeat split; try assumption. now apply ff_app_stopped.
Qed.

(** A checked command followed by the rest of the block. *)
Lemma block_step_seq {B} (site : Site) sites (rest : M W B) :
  block_runs o m sites rest ->
  block_runs o m (site :: sites)
    (' (returncode, _, _) <- run host site (command_at o m site) ;;
     when (failed returncode) (return_ (return_code_at site)) ;;
     rest).
Proof.
  intros Hrest s.
  pose proof (block_seq [site] sites _ (fun _ : unit => rest)
                (block_step_last site) (fun _ => Hrest) s) as H.
  cbn [app] in H.
  replace ((' (returncode, _, _) <- run host site (command_at o m site) ;;
            when (failed returncode) (return_ (return_code_at site)) ;;
            rest) s)
    with (bind (' (returncode, _, _) <- run host site (command_at o m site) ;;
                when (failed returncode) (return_ (return_code_at site)))
               (fun _ : unit => rest) s); [exact H|].
  unfold bind.
  destruct (run host site (command_at o m site) s) as [[[[rc out] err]|c|e] s1];
    reflexivity.
Qed.

(** A loop whose body runs the places [f b]. *)
Lemma block_for {B} (f : B -> list Site) (body : B -> M W unit) (bs : list B) :
  (forall b, block_runs o m (f b) (body b)) ->
  block_runs o m (flat_map f bs) (for_ bs body).
Proof.
  intros Hbody. induction bs as [|b bs IH]; cbn [flat_map for_].
  - intros s. exists [], Completed. cbn. rewrite app_nil_r.
    repeat split. constructor.
  - apply block_seq; [apply Hbody|intros _; exact IH].
Qed.

Lemma handle_origin_updated_branches_runs (bs : list string) :
  block_runs o m (flat_map updated_sites bs)
             (handle_origin_updated_branches host bs).
Proof.
  unfold handle_origin_updated_branches. apply block_for. intros b.
  unfold updated_sites.
  apply (block_step_seq (git_fetch_mirror_remote_branch_cmd b)).
  apply (block_step_seq (git_switch_branch_cmd b)).
  apply (block_step_seq (git_pull_origin_remote_branch_cmd b)).
  apply (block_step_last (git_push_mirror_cmd b)).
Qed.

Lemma handle_origin_added_branches_runs (bs : list string) :
  block_runs o m (flat_map added_sites bs)
             (handle_origin_added_branches host bs).
Proof.
  unfold handle_origin_added_branches. apply block_for. intros b.
  unfold added_sites.
  apply (block_step_seq (git_fetch_origin_remote_branch_cmd b)).
  apply (block_step_last (git_push_origin_added_branch_to_mirror_cmd b)).
Qed.

Lemma handle_tag_change_runs :
  block_runs o m tag_sites (handle_tag_change host).
Proof.
  unfold handle_tag_change, tag_sites.
  apply (block_step_seq git_fetch_mirror_tags_cmd).
  apply (block_step_seq git_fetch_origin_tags_cmd).
  apply (block_step_last git_push_tags_to_mirror_cmd).
Qed.

End BlockFacts.

(** ** Strings *)

Module PyStrFacts.
Import PyStr.

Lemma append_assoc (a b c : string) : ((a ++ b) ++ c = a ++ (b ++ c))%string.
Proof. induction a as [|x a IH]; cbn; [reflexivity|now rewrite IH]. Qed.

Lemma append_nil_r (a : string) : (a ++ "" = a)%string.
Proof. induction a as [|x a IH]; cbn; [reflexivity|now rewrite IH]. Qed.

Lemma snoc_append (cur : string) (a : ascii) (u : string) :
  (snoc cur a ++ u = cur ++ String a u)%string.
Proof. unfold snoc. now rewrite append_assoc. Qed.

Lemma chars_append (a b : string) :
  list_ascii_of_string (a ++ b)
  = (list_ascii_of_string a ++ list_ascii_of_string b)%list.
Proof. induction a as [|x a IH]; cbn; [reflexivity|now rewrite IH]. Qed.

(** *** [split] *)

Lemma split_from_word (u cur s : string) :
  no_space u = true ->
  split_from cur (u ++ s) = split_from (cur ++ u) s.
Proof.
  unfold no_space. revert cur. induction u as [|a u IH]; intros cur H; cbn in *.
  - now rewrite append_nil_r.
  - apply andb_prop in H. destruct H as [Ha Hu].
    apply negb_true_iff in Ha. rewrite Ha, (IH _ Hu).
    now rewrite snoc_append.
Qed.

Lemma split_from_skip (u s : string) :
  all_space u = true -> split_from "" (u ++ s) = split_from "" s.
Proof.
  unfold all_space. induction u as [|a u IH]; intros H; cbn in *;
    [reflexivity|].
  apply andb_prop in H. destruct H as [Ha Hu]. rewrite Ha. now apply IH.
Qed.

Lemma split_from_gap (cur u s : string) :
  truthy cur = true -> truthy u = true -> all_space u = true ->
  split_from cur (u ++ s) = cur :: split_from "" s.
Proof.
  intros Hcur Hu Hsp. destruct u as [|a u]; [discriminate|].
  unfold all_space in Hsp. cbn in Hsp |- *.
  apply andb_prop in Hsp. destruct Hsp as [Ha Hsp].
  rewrite Ha, Hcur. f_equal. now apply split_from_skip.
Qed.

Lemma split_listing_line line c r :
  listing_line line c r -> split line = [c; r].
Proof.
  intros (ws & -> & Hc & Hcn & Hws & Hwsp & Hr & Hrn). unfold split.
  rewrite (split_from_word c "" _ Hcn). cbn [append].
  rewrite (split_from_gap c ws r Hc Hws Hwsp). f_equal.
  rewrite <- (append_nil_r r) at 1.
  rewrite (split_from_word r "" "" Hrn). cbn. now rewrite Hr.
Qed.

(** *** [strip] *)

Lemma truthy_chars (s : string) :
  truthy s = negb (match list_ascii_of_string s with [] => true | _ => false end).
Proof. now destruct s. Qed.

Lemma truthy_reverse (s : string) : truthy (reverse s) = truthy s.
Proof.
  rewrite !truthy_chars. unfold reverse.
  rewrite list_ascii_of_string_of_list_ascii.
  destruct (list_ascii_of_string s) as [|a l]; [reflexivity|].
  cbn. now destruct (rev l).
Qed.

Lemma all_space_reverse (s : string) : all_space (reverse s) = all_space s.
Proof.
  unfold all_space, reverse. rewrite list_ascii_of_string_of_list_ascii.
  generalize (list_ascii_of_string s) as l. intros l.
  destruct (forallb is_space l) eqn:E.
  - rewrite forallb_forall in *. intros x Hx. apply E. now apply in_rev.
  - destruct (forallb is_space (rev l)) eqn:E'; [|reflexivity].
    rewrite forallb_forall in E'.
    assert (forallb is_space l = true); [|congruence].
    apply forallb_forall. intros x Hx. apply E'. now apply in_rev in Hx.
Qed.

Lemma truthy_lstrip (s : string) : truthy (lstrip s) = negb (all_space s).
Proof.
  unfold all_space. induction s as [|a s IH]; cbn; [reflexivity|].
  destruct (is_space a); cbn; [exact IH|reflexivity].
Qed.

Lemma all_space_lstrip (s : string) : all_space (lstrip s) = all_space s.
Proof.
  unfold all_space. induction s as [|a s IH]; cbn; [reflexivity|].
  destruct (is_space a) eqn:E; cbn; [exact IH|]. now rewrite E.
Qed.

(** A line is blank for the script exactly when all its characters are
    whitespace. *)
Lemma truthy_strip (s : string) : truthy (strip s) = negb (all_space s).
Proof.
  unfold strip, rstrip.
  now rewrite truthy_reverse, truthy_lstrip, all_space_reverse,
    all_space_lstrip.
Qed.

Lemma listing_line_not_blank line c r :
  listing_line line c r -> truthy (strip line) = true.
Proof.
  intros (ws & -> & Hc & Hcn & _). rewrite truthy_strip.
  destruct c as [|a c]; [discriminate|].
  unfold no_space in Hcn. unfold all_space. cbn in Hcn |- *.
  apply andb_prop in Hcn. destruct Hcn as [Ha _].
  apply negb_true_iff in Ha. now rewrite Ha.
Qed.

(** *** [split('/')[-1]] *)

Lemma split_on_from_nonempty sep cur s : split_on_from sep cur s <> [].
Proof.
  revert cur. induction s as [|a s IH]; intros cur; cbn; [discriminate|].
  destruct (Ascii.eqb a sep); [discriminate|apply IH].
Qed.

Lemma split_on_from_word sep cur n :
  no_char sep n = true -> split_on_from sep cur n = [(cur ++ n)%string].
Proof.
  unfold no_char. revert cur. induction n as [|a n IH]; intros cur H;
    cbn in *.
  - now rewrite append_nil_r.
  - apply andb_prop in H. destruct H as [Ha Hn].
    apply negb_true_iff in Ha. rewrite Ha, (IH _ Hn).
    now rewrite snoc_append.
Qed.

Lemma last_cons_nonempty {A} (x : A) (l : list A) (d : A) :
  l <> [] -> last (x :: l) d = last l d.
Proof. now destruct l. Qed.

Lemma last_split_on_from sep cur p n :
  no_char sep n = true ->
  last_item (split_on_from sep cur (p ++ String sep n)) = n.
Proof.
  intros Hn. unfold last_item. revert cur.
  induction p as [|a p IH]; intros cur; cbn.
  - rewrite Ascii.eqb_refl. rewrite (split_on_from_word sep "" n Hn).
    reflexivity.
  - destruct (Ascii.eqb a sep).
    + rewrite last_cons_nonempty by apply split_on_from_nonempty. apply IH.
    + apply IH.
Qed.

Lemma last_item_leaf r name :
  leaf_of r name -> last_item (split_on "/" r) = name.
Proof.
  intros (Hn & [->|(p & ->)]); unfold split_on.
  - now rewrite (split_on_from_word "/" "" name Hn).
  - now apply last_split_on_from.
Qed.

End PyStrFacts.

(** ** The snapshot reader *)

Lemma line_entry_listing line c r name :
  listing_line line c r -> leaf_of r name ->
  line_entry line = Some (name, c).
Proof.
  intros Hl Hleaf. unfold line_entry.
  rewrite (PyStrFacts.listing_line_not_blank line c r Hl).
  rewrite (PyStrFacts.split_listing_line line c r Hl).
  now rewrite (PyStrFacts.last_item_leaf r name Hleaf).
Qed.

(** What reading one line does to the dictionary. *)
Lemma read_branch_line_entry d line d' :
  read_branch_line d line = inr d' ->
  match line_entry line with
  | Some (n, c) => d' = PyDict.set d n c
  | None => d' = d
  end.
Proof.
  unfold read_branch_line, line_entry.
  destruct (PyStr.truthy (PyStr.strip line)); [|now intros [= <-]].
  destruct (PyStr.split line) as [|c [|r [|x l]]]; try discriminate.
  now intros [= <-].
Qed.

Lemma read_branch_lines_app d0 l1 l2 d :
  read_branch_lines d0 (l1 ++ l2) = inr d ->
  exists d1, read_branch_lines d0 l1 = inr d1
             /\ read_branch_lines d1 l2 = inr d.
Proof.
  revert d0. induction l1 as [|line l1 IH]; intros d0; cbn [app read_branch_lines].
  - intros H. now exists d0.
  - destruct (read_branch_line d0 line) as [e|d1]; [discriminate|]. apply IH.
Qed.

(** After reading [lines], a name is bound to the commit of the last line
    that binds it, and names no line binds keep their value. *)
Lemma read_branch_lines_get lines d0 d name :
  read_branch_lines d0 lines = inr d ->
  PyDict.get d name
  = match last_binding lines name with
    | Some c => Some c
    | None => PyDict.get d0 name
    end.
Proof.
  revert d0. induction lines as [|line lines IH]; intros d0;
    cbn [read_branch_lines last_binding].
  - now intros [= <-].
  - destruct (read_branch_line d0 line) as [e|d1] eqn:E; [discriminate|].
    intros H. rewrite (IH d1 H).
    destruct (last_binding lines name) as [c|]; [reflexivity|].
    apply read_branch_line_entry in E.
    destruct (line_entry line) as [[n c]|]; [|now subst].
    subst d1. destruct (String.eqb_spec n name) as [->|Hne].
    + apply PyDictFacts.get_set_same.
    + apply PyDictFacts.get_set_other. congruence.
Qed.

(** ** The plan *)

Section PlanFacts.

Lemma sorted_app {A} (R : A -> A -> Prop) (l1 l2 : list A) :
  StronglySorted R l1 -> StronglySorted R l2 ->
  (forall x y, In x l1 -> In y l2 -> R x y) ->
  StronglySorted R (l1 ++ l2).
Proof.
  intros H1 H2 H. induction H1 as [|a l1 Hs IH Hall]; cbn [app];
    [assumption|].
  constructor.
  - apply IH. intros x y Hx. apply H. now right.
  - apply Forall_app. split; [assumption|].
    apply Forall_forall. intros y Hy. apply H; [now left|assumption].
Qed.

Lemma same_rank_sorted (k : nat) (l : list Site) :
  Forall (fun x => stage_rank x = k) l -> StronglySorted stage_le l.
Proof.
  induction 1 as [|x l Hx Hl IH]; constructor; [assumption|].
  apply Forall_forall. intros y Hy. unfold stage_le.
  rewrite Forall_forall in Hl. rewrite Hx, (Hl y Hy). constructor.
Qed.

Lemma sorted_after {A} (R : A -> A -> Prop) (pre post : list A) (x : A) :
  StronglySorted R (pre ++ x :: post) -> Forall (R x) post.
Proof.
  induction pre as [|a pre IH]; cbn [app]; intros H;
    apply StronglySorted_inv in H; destruct H as [Hs Hall]; auto.
Qed.

Lemma branch_sites_rank (c : BranchChanges) :
  Forall (fun x => stage_rank x = 2%nat) (branch_sites c).
Proof.
  unfold branch_sites. apply Forall_app. split; apply Forall_forall;
    intros x Hx; apply in_flat_map in Hx; destruct Hx as (b & _ & Hx);
    cbn in Hx; intuition (subst; reflexivity).
Qed.

(** The plan goes through the stages in order. *)
Lemma plan_sorted (changes : option BranchChanges) :
  StronglySorted stage_le (plan changes).
Proof.
  assert (Hsetup : StronglySorted stage_le setup_sites).
  { unfold setup_sites, stage_le.
    repeat (constructor; [|repeat constructor]). constructor. }
  destruct changes as [c|]; cbn [plan]; [|exact Hsetup].
  pose proof (branch_sites_rank c) as Hb.
  apply sorted_app; [exact Hsetup| |].
  - apply sorted_app.
    + exact (same_rank_sorted 2 _ Hb).
    + apply (same_rank_sorted 3). repeat constructor.
    + intros x y Hx Hy. rewrite Forall_forall in Hb. unfold stage_le.
      rewrite (Hb x Hx). cbn in Hy. intuition (subst; cbn; lia).
  - intros x y Hx Hy. unfold stage_le. apply in_app_iff in Hy.
    destruct Hy as [Hy|Hy].
    + rewrite Forall_forall in Hb. rewrite (Hb y Hy).
      cbn in Hx. intuition (subst; cbn; lia).
    + cbn in Hx, Hy. intuition (subst; cbn; lia).
Qed.

(** A place after another one in the plan is in the same stage or in a
    later one. *)
Lemma plan_order changes pre x mid y post :
  plan changes = (pre ++ x :: mid ++ y :: post)%list ->
  (stage_rank x <= stage_rank y)%nat.
Proof.
  intros E. pose proof (plan_sorted changes) as H. rewrite E in H.
  apply sorted_after in H. rewrite Forall_forall in H.
  apply H. apply in_app_iff. right. now left.
Qed.

Lemma nodup_flat_map (f : string -> list Site) (bs : list string) :
  (forall b, NoDup (f b)) ->
  (forall b x, In x (f b) -> branch_of x = Some b) ->
  NoDup bs -> NoDup (flat_map f bs).
Proof.
  intros Hf Hb. induction 1 as [|b bs Hnot Hnd IH]; cbn [flat_map];
    [constructor|].
  apply NoDup_app; [apply Hf|exact IH|].
  intros x Hx Hx'. apply in_flat_map in Hx'. destruct Hx' as (b' & Hb' & Hx').
  apply Hb in Hx, Hx'. assert (b = b') by congruence. subst. contradiction.
Qed.

Lemma plan_nodup (c : BranchChanges) :
  NoDup (originUpdated c) -> NoDup (originAdded c) -> NoDup (plan (Some c)).
Proof.
  intros Hu Ha. cbn [plan].
  assert (Hupd : NoDup (flat_map updated_sites (originUpdated c))).
  { apply nodup_flat_map; [| |assumption].
    - intros b. unfold updated_sites.
      repeat constructor; cbn; intuition discriminate.
    - intros b x Hx. cbn in Hx. intuition (subst; reflexivity). }
  assert (Hadd : NoDup (flat_map added_sites (originAdded c))).
  { apply nodup_flat_map; [| |assumption].
    - intros b. unfold added_sites.
      repeat constructor; cbn; intuition discriminate.
    - intros b x Hx. cbn in Hx. intuition (subst; reflexivity). }
  assert (Hbranch : NoDup (branch_sites c)).
  { unfold branch_sites. apply NoDup_app; [assumption|assumption|].
    intros x Hx Hx'. apply in_flat_map in Hx, Hx'.
    destruct Hx as (b & _ & Hx), Hx' as (b' & _ & Hx').
    cbn in Hx, Hx'. intuition (subst; discriminate). }
  pose proof (branch_sites_rank c) as Hr. rewrite Forall_forall in Hr.
  apply NoDup_app.
  - unfold setup_sites. repeat constructor; cbn; intuition discriminate.
  - apply NoDup_app; [assumption| |].
    + unfold tag_sites. repeat constructor; cbn; intuition discriminate.
    + intros x Hx Hx'. apply Hr in Hx. cbn in Hx'.
      intuition (subst; discriminate).
  - intros x Hx Hx'. apply in_app_iff in Hx'. destruct Hx' as [Hx'|Hx'].
    + apply Hr in Hx'. cbn in Hx. intuition (subst; discriminate).
    + cbn in Hx, Hx'. intuition (subst; discriminate).
Qed.

Lemma nodup_split_unique {A} (a a' b b' : list A) (x : A) :
  NoDup (a ++ x :: b) ->
  (a ++ x :: b = a' ++ x :: b')%list ->
  a = a' /\ b = b'.
Proof.
  revert a'. induction a as [|y a IH]; intros a' Hnd E; cbn [app] in *.
  - destruct a' as [|y' a']; cbn [app] in E.
    + split; [reflexivity|congruence].
    + inversion E; subst. inversion Hnd as [|? ? Hnot _]; subst.
      exfalso. apply Hnot. apply in_app_iff. right. now left.
  - destruct a' as [|y' a']; cbn [app] in E.
    + inversion E; subst. inversion Hnd as [|? ? Hnot _]; subst.
      exfalso. apply Hnot. apply in_app_iff. right. now left.
    + inversion E; subst. inversion Hnd as [|? ? _ Hnd']; subst.
      destruct (IH a' Hnd' H1) as [-> ->]. now split.
Qed.

(** Where the places of a branch are in the plan. *)
Lemma in_plan_branch (c : BranchChanges) (x : Site) (b : string) :
  In x (plan (Some c)) -> branch_of x = Some b ->
  (In b (originUpdated c) /\ In x (updated_sites b))
  \/ (In b (originAdded c) /\ In x (added_sites b)).
Proof.
  cbn [plan]. unfold branch_sites. rewrite !in_app_iff, !in_flat_map.
  intros [H|[[(b' & Hb' & H)|(b' & Hb' & H)]|H]] Hb; cbn in H.
  - intuition (subst; discriminate).
  - left. assert (b' = b) by (intuition (subst; cbn in Hb; congruence)).
    subst. now split.
  - right. assert (b' = b) by (intuition (subst; cbn in Hb; congruence)).
    subst. now split.
  - intuition (subst; discriminate).
Qed.

(** In the plan the push of an updated branch comes right after its
    pull. *)
Lemma plan_pull_then_push (c : BranchChanges) (b : string) :
  In b (originUpdated c) ->
  exists pre post,
    plan (Some c)
    = (pre ++ git_pull_origin_remote_branch_cmd b
           :: git_push_mirror_cmd b :: post)%list.
Proof.
  intros Hb. destruct (in_split _ _ Hb) as (l1 & l2 & E).
  cbn [plan]. unfold branch_sites. rewrite E, flat_map_app.
  cbn [flat_map updated_sites app].
  exists (setup_sites ++ flat_map updated_sites l1
          ++ [git_fetch_mirror_remote_branch_cmd b; git_switch_branch_cmd b])%list.
  eexists. rewrite <- !app_assoc. cbn [app]. reflexivity.
Qed.

End PlanFacts.

(** ** The shape of a pass *)

Section PassFacts.

Context {W : Type}.
Variable host : Host W.
Variable re_match : string -> string -> bool.
Variables o m : string.

Lemma read_branch_lines_wf lines d d' :
  PyDict.wf d -> read_branch_lines d lines = inr d' -> PyDict.wf d'.
Proof.
  revert d. induction lines as [|line lines IH]; intros d Hwf; cbn.
  - now intros [= <-].
  - unfold read_branch_line.
    destruct (PyStr.truthy (PyStr.strip line)).
    + destruct (PyStr.split line) as [|c [|r [|x l]]]; try discriminate.
      apply IH. now apply PyDictFacts.wf_set.
    + now apply IH.
Qed.

Lemma read_branches_dict_wf out d :
  read_branches_dict out = inr d -> PyDict.wf d.
Proof.
  apply read_branch_lines_wf. constructor.
Qed.

(** The three replication blocks, followed by [return 0]. *)
Lemma replication_shape (c : BranchChanges) s f s1 :
  (handle_origin_updated_branches host (originUpdated c) ;;
   handle_origin_added_branches host (originAdded c) ;;
   handle_tag_change host ;;
   return_ 0) s = (f, s1) ->
  exists evs h,
    trace s1 = (trace s ++ evs)%list
    /\ fail_fast o m (branch_sites c ++ tag_sites) evs h
    /\ flow_code f = ending_code h
    /\ cwd s1 = cwd s
    /\ origin_branch_changes s1 = origin_branch_changes s.
Proof.
  intros H.
  pose proof (block_seq o m _ _ _ _
                (handle_origin_updated_branches_runs host o m (originUpdated c))
                (fun _ : unit =>
                   block_seq o m _ _ _ _
                     (handle_origin_added_branches_runs host o m (originAdded c))
                     (fun _ : unit => handle_tag_change_runs host o m)) s)
    as (evs & h & Ht & Hff & He & Hc & Hb).
  rewrite app_assoc in Hff.
  assert (E : (handle_origin_updated_branches host (originUpdated c) ;;
               handle_origin_added_branches host (originAdded c) ;;
               handle_tag_change host ;;
               return_ 0) s
              = match (handle_origin_updated_branches host (originUpdated c) ;;
                       handle_origin_added_branches host (originAdded c) ;;
                       handle_tag_change host) s
                      return Flow void * State W with
                | (Next _, s') => (Return 0, s')
                | (Return code, s') => (Return code, s')
                | (Raise e, s') => (Raise e, s')
                end).
  { unfold bind, return_.
    destruct (handle_origin_updated_branches host (originUpdated c) s)
      as [[[]|code|e] sa]; try reflexivity.
    destruct (handle_origin_added_branches host (originAdded c) sa)
      as [[[]|code|e] sb]; reflexivity. }
  rewrite E in H. clear E.
  destruct ((handle_origin_updated_branches host (originUpdated c) ;;
             handle_origin_added_branches host (originAdded c) ;;
             handle_tag_change host) s) as [[[]|code|e] s'];
    cbn [fst snd] in *; inversion H; subst; clear H;
    exists evs, h; destruct h; try contradiction; cbn [flow_code ending_code];
    repeat split; try assumption; congruence.
Qed.

Ltac ff_solve :=
  cbn [plan setup_sites app trace origin_branch_changes];
  repeat first
    [ apply ff_completed
    | apply ff_failed; assumption
    | apply ff_run_raised
    | apply ff_raised
    | apply ff_ok ].

(** A run that stops before the classification is known. *)
Ltac stop_with H h :=
  right; exists h; inversion H; subst; clear H;
  cbn [fst snd trace cwd origin_branch_changes set_world app flow_code
       ending_code classified];
  split; [ff_solve|];
  split; [reflexivity|];
  split;
  [ intros Hne;
    first [ exfalso; apply Hne; reflexivity | eexists; reflexivity ]
  | split; [exact I|discriminate] ].

Ltac do_call H e w' :=
  unfold bind at 1, call at 1 in H;
  cbn [world set_world trace cwd origin_branch_changes] in H;
  match type of H with
  | context [match ?c with (_, _) => _ end] =>
      destruct c as [[e|[]] w']
  end.

Ltac do_run H rc out w' code :=
  unfold bind at 1, run at 1 in H;
  cbn [world set_world trace cwd origin_branch_changes app] in H;
  match type of H with
  | context [run_cmd host ?argv ?w] =>
      destruct (run_cmd host argv w) as [[?e|[[rc out] ?err]] w'];
      [ stop_with H Crashed
      | unfold bind at 1, when at 1, failed at 1 in H;
        destruct (Z.eqb_spec rc 0) as [->|?Hrc]; cbn [negb return_ next] in H;
        [ | stop_with H (Failed code) ] ]
  end.

(** Stage 1 up to [os.makedirs]: no command, no assignment. *)
Lemma wipe_workspace_quiet (present : bool) ws s :
  exists w',
    when present (call (make_files_writable host ws) ;;
                  call (shutil_rmtree host ws)) s = (Next tt, set_world s w')
    \/ exists e,
        when present (call (make_files_writable host ws) ;;
                      call (shutil_rmtree host ws)) s = (Raise e, set_world s w').
Proof.
  destruct present; cbn [when].
  - unfold bind, call.
    destruct (make_files_writable host ws (world s)) as [[e|[]] w2].
    + exists w2. right. now exists e.
    + cbn [world set_world].
      destruct (shutil_rmtree host ws w2) as [[e|[]] w3]; exists w3.
      * right. now exists e.
      * now left.
  - exists (world s). left. unfold next, set_world. now destruct s.
Qed.

Lemma try_block_shape ws rules w f s1 :
  try_block host re_match o m ws rules (mkState w [] None None) = (f, s1) ->
  (trace s1 = [] /\ cwd s1 = None /\ origin_branch_changes s1 = None
   /\ (f = Return (-2) \/ f = Return (-3)))
  \/ (exists h,
         fail_fast o m (plan (origin_branch_changes s1)) (trace s1) h
         /\ flow_code f = ending_code h
         /\ (trace s1 <> [] -> exists d, cwd s1 = Some d)
         /\ classified re_match rules (origin_branch_changes s1)
         /\ (h = Completed -> origin_branch_changes s1 <> None)).
Proof.
  intros H. unfold try_block in H.
  unfold bind at 1 in H.
  destruct (extract_hostname_from_git_url o) as [hn|].
  2:{ left. inversion H; subst. cbn. tauto. }
  destruct (PyStr.truthy hn).
  2:{ left. inversion H; subst. cbn. tauto. }
  unfold bind at 1, ssh at 1 in H. cbn [world] in H.
  destruct (configure_ssh_host host hn w) as [ok w0].
  destruct ok; cbn [negb when next return_ set_world] in H.
  2:{ left. inversion H; subst. cbn. tauto. }
  cbn [world set_world trace cwd origin_branch_changes] in H.
  unfold bind at 1, call at 1 in H.
  cbn [world set_world trace cwd origin_branch_changes] in H.
  destruct (os_getcwd host w0) as [[e|d] w1]; [stop_with H Crashed|].
  unfold bind at 1, assign_cwd at 1 in H.
  cbn [world set_world trace cwd origin_branch_changes] in H.
  unfold bind at 1, path_exists at 1 in H.
  cbn [world set_world trace cwd origin_branch_changes] in H.
  unfold bind at 1 in H.
  destruct (wipe_workspace_quiet (os_path_exists host ws w1) ws
              (mkState w1 [] (Some d) None)) as (w2 & [E|(e & E)]);
    rewrite E in H; clear E; cbn [set_world world trace cwd origin_branch_changes] in H;
    [|stop_with H Crashed].
  do_call H e w3; [stop_with H Crashed|].
  do_call H e w4; [stop_with H Crashed|].
  do_run H rc1 out1 w5 (-4).
  do_run H rc2 out2 w6 (-5).
  do_run H rc3 out3 w7 (-6).
  do_run H rc4 origin_branches_str w8 (-7).
  unfold bind at 1, read_dict at 1 in H.
  destruct (read_branches_dict origin_branches_str)
    as [e|origin_branches_dict] eqn:Eo; cbn [raise next] in H;
    [stop_with H Crashed|].
  do_run H rc5 mirror_branches_str w9 (-8).
  unfold bind at 1, read_dict at 1 in H.
  destruct (read_branches_dict mirror_branches_str)
    as [e|mirror_branches_dict] eqn:Em; cbn [raise next] in H;
    [stop_with H Crashed|].
  unfold bind at 1, assign_origin_branch_changes at 1 in H.
  cbn [world set_world trace cwd origin_branch_changes] in H.
  apply replication_shape in H.
  destruct H as (evs & h & Ht & Hff & Hcode & Hcwd & Hch).
  cbn [trace cwd origin_branch_changes] in Ht, Hcwd, Hch.
  right. exists h. rewrite Hch, Ht, Hcwd. cbn [plan classified].
  split.
  { unfold setup_sites. cbn [app]. repeat apply ff_ok. exact Hff. }
  split; [exact Hcode|].
  split; [intros _; now exists d|].
  split; [|discriminate].
  exists origin_branches_dict, mirror_branches_dict.
  split; [now apply read_branches_dict_wf with origin_branches_str|].
  split; [now apply read_branches_dict_wf with mirror_branches_str|].
  reflexivity.
Qed.

(** The [try ... except] part of a pass: either an early exit, before
    [cwd] has a value and before any command, or a fail-fast run of the
    plan. *)
Lemma pass_shape ws rules w code s1 :
  try_except (try_block host re_match o m ws rules) (mkState w [] None None)
  = (code, s1) ->
  (trace s1 = [] /\ cwd s1 = None /\ (code = -2 \/ code = -3))
  \/ (exists h,
         fail_fast o m (plan (origin_branch_changes s1)) (trace s1) h
         /\ code = ending_code h
         /\ (trace s1 <> [] -> exists d, cwd s1 = Some d)
         /\ classified re_match rules (origin_branch_changes s1)).
Proof.
  unfold try_except.
  destruct (try_block host re_match o m ws rules (mkState w [] None None))
    as [f s] eqn:E.
  apply try_block_shape in E.
  destruct E as [(Ht & Hc & _ & Hf)|(h & Hff & Hcode & Hcwd & Hcl & _)].
  - destruct Hf as [-> | ->]; intros [= <- <-]; left; tauto.
  - destruct f as [[]|c|e]; intros [= <- <-]; right; exists h; now repeat split.
Qed.

(** The [finally] clause issues no command and assigns no local. *)
Lemma finally_block_frame s r s' :
  finally_block host s = (r, s') ->
  trace s' = trace s /\ cwd s' = cwd s
  /\ origin_branch_changes s' = origin_branch_changes s.
Proof.
  unfold finally_block. destruct (cwd s) as [d|] eqn:Ec.
  - destruct (os_chdir host d (world s)) as [[e|[]] w'];
      intros [= <- <-]; cbn; now repeat split.
  - intros [= <- <-]. now repeat split.
Qed.

(** When the [finally] clause raises nothing, the pass returns what its
    [try ... except] part returned. *)
Lemma pass_returns ws rules w code s1 s2 :
  try_except (try_block host re_match o m ws rules) (mkState w [] None None)
  = (code, s1) ->
  finally_block host s1 = (None, s2) ->
  try_sync_origin_updates_into_mirror host re_match o m ws rules w
  = (Returned code, s2).
Proof.
  intros E1 E2. unfold try_sync_origin_updates_into_mirror.
  now rewrite E1, E2.
Qed.

(** When the [finally] clause raises, its exception is what the pass
    raises. *)
Lemma pass_raises ws rules w code s1 e s2 :
  try_except (try_block host re_match o m ws rules) (mkState w [] None None)
  = (code, s1) ->
  finally_block host s1 = (Some e, s2) ->
  try_sync_origin_updates_into_mirror host re_match o m ws rules w
  = (Raised e, s2).
Proof.
  intros E1 E2. unfold try_sync_origin_updates_into_mirror.
  now rewrite E1, E2.
Qed.

(** The two lists of a classification have no duplicate and no common
    name. *)
Lemma classified_lists rules (c : BranchChanges) :
  classified re_match rules (Some c) ->
  NoDup (originUpdated c) /\ NoDup (originAdded c)
  /\ forall b, In b (originUpdated c) -> ~ In b (originAdded c).
Proof.
  intros (d_o & d_m & Hwo & _ & ->). unfold get_origin_branch_changes.
  destruct (nodup_fold re_match d_m rules d_o (mkBranchChanges [] []) Hwo
              (NoDup_nil _) (NoDup_nil _)
              (fun n _ => conj (@in_nil _ n) (@in_nil _ n)))
    as [Ha Hu].
  split; [exact Hu|]. split; [exact Ha|].
  intros b. rewrite added_fold, updated_fold. cbn [originAdded originUpdated In].
  intros [[]|(_ & c & mc & _ & HS & _)] [[]|(_ & _ & HN)]. congruence.
Qed.

End PassFacts.

(** ** Return codes and early exits *)

(** Every place has a negative code of its own: two places with the same
    code are the same command, and the same place when they are about the
    same branch. *)
Lemma return_code_identifies_site (x y : Site) :
  return_code_at x < 0
  /\ (return_code_at x = return_code_at y ->
      branch_of x = branch_of y -> x = y).
Proof.
  split; [destruct x; reflexivity|].
  destruct x, y; cbn; intros Hc Hb; try discriminate Hc; congruence.
Qed.

Section EarlyExitFacts.

Context {W : Type}.
Variable host : Host W.
Variable re_match : string -> string -> bool.

(** The [return -3] of line 76 is replaced by the exception of the
    [finally] clause. *)
Lemma hostname_failure_raises o m ws rules (w : W) :
  extract_hostname_from_git_url o = None ->
  try_sync_origin_updates_into_mirror host re_match o m ws rules w
  = (Raised (UnboundLocalError "cwd"), mkState w [] None None).
Proof.
  intros E. unfold try_sync_origin_updates_into_mirror, try_except, try_block.
  unfold bind at 1. rewrite E. reflexivity.
Qed.

(** So is the [return -2] of line 73. *)
Lemma ssh_failure_raises o m ws rules (w w' : W) hostname :
  extract_hostname_from_git_url o = Some hostname ->
  configure_ssh_host host hostname w = (false, w') ->
  try_sync_origin_updates_into_mirror host re_match o m ws rules w
  = (Raised (UnboundLocalError "cwd"), mkState w' [] None None).
Proof.
  intros E Hssh.
  assert (Ht : PyStr.truthy hostname = true).
  { unfold extract_hostname_from_git_url in E.
    destruct (PyStr.strip_prefix "git@" o) as [rest|]; [|discriminate].
    destruct (PyStr.span_not ":" rest) as [[|c h] [|c' t]]; try discriminate.
    now inversion E. }
  unfold try_sync_origin_updates_into_mirror, try_except, try_block.
  unfold bind at 1. rewrite E, Ht.
  unfold bind at 1, ssh at 1. cbn [world]. rewrite Hssh. reflexivity.
Qed.

(** In every pass the command issued at a place is the one of the table;
    for the push of the tags it has the single option [-f--tags]. *)
Lemma pass_commands o m ws rules (w : W) code s1 :
  try_except (try_block host re_match o m ws rules) (mkState w [] None None)
  = (code, s1) ->
  forall e, In e (trace s1) -> ev_argv e = command_at o m (ev_site e).
Proof.
  intros Hbody e He.
  destruct (pass_shape host re_match o m ws rules w code s1 Hbody)
    as [(Ht & _)|(h & Hff & _)].
  { rewrite Ht in He. destruct He. }
  clear Hbody. induction Hff; cbn in He; try contradiction.
  - destruct He as [<-|He]; [reflexivity|now apply IHHff].
  - destruct He as [<-|[]]. reflexivity.
  - destruct He as [<-|[]]. reflexivity.
Qed.

End EarlyExitFacts.

(** ** A pass that meets a failure *)

(** C4, as stated, fails: on a machine where the script was started in a
    directory below the workspace, the pull of [main] exits with 1 and
    the pass does not return -101: the workspace has been wiped, so
    [os.chdir(cwd)] raises in the [finally] clause and the pass raises
    that [OSError]; [main] then exits with the generic -1. *)
Lemma merge_conflict_code_is_lost :
  let host := host_started_in_workspace sample_config in
  let r := try_sync_origin_updates_into_mirror
             host literal_match sample_origin_url sample_mirror_url "/srv/ws"
             ["main"; "feature"] conflict_script in
  In (mkEvent (git_pull_origin_remote_branch_cmd "main")
              ["git"; "pull"; "origin"; "main"; "--no-edit"] (Some 1))
     (trace (snd r))
  /\ fst r = Raised (OSError "No such file or directory: '/srv/ws/run'")
  /\ fst r <> Returned (-101)
  /\ exit_code (main host literal_match conflict_script) = -1.
Proof.
  intros host r. split; [|split; [|split]].
  - vm_compute. do 7 right. left. reflexivity.
  - vm_compute. reflexivity.
  - intros H. vm_compute in H. discriminate H.
  - vm_compute. reflexivity.
Qed.

(** C4, amended. When the pull of an updated branch [b] exits with a
    code other than 0, the [try ... except] part of the pass yields -101,
    which the pass returns once the [finally] clause has restored the
    directory; when [os.chdir(cwd)] raises there, the pass raises that
    exception instead.  Either way the failed pull is the last command
    issued, every command before it exited with 0, the pull of [b] was
    issued only once, and no push of [b] to the mirror was issued, from
    either loop. *)
Theorem merge_conflict_stops_the_pass
        (W : Type) (host : Host W) (re_match : string -> string -> bool)
        (o m ws : string) (rules : list string) (w : W)
        (code : Z) (s1 : State W) (b : string) (argv : list string) (rc : Z) :
  try_except (try_block host re_match o m ws rules) (mkState w [] None None)
  = (code, s1) ->
  In (mkEvent (git_pull_origin_remote_branch_cmd b) argv (Some rc)) (trace s1) ->
  rc <> 0 ->
  code = -101
  /\ (forall s2, finally_block host s1 = (None, s2) ->
        try_sync_origin_updates_into_mirror host re_match o m ws rules w
        = (Returned (-101), s2)
        /\ trace s2 = trace s1)
  /\ (forall e s2, finally_block host s1 = (Some e, s2) ->
        try_sync_origin_updates_into_mirror host re_match o m ws rules w
        = (Raised e, s2)
        /\ trace s2 = trace s1)
  /\ (exists before,
         trace s1
         = (before
            ++ [mkEvent (git_pull_origin_remote_branch_cmd b) argv (Some rc)])%list
         /\ (forall e, In e before -> ev_rc e = Some 0)
         /\ (forall e, In e before ->
               ev_site e <> git_pull_origin_remote_branch_cmd b))
  /\ (forall e, In e (trace s1) ->
        ev_site e <> git_push_mirror_cmd b
        /\ ev_site e <> git_push_origin_added_branch_to_mirror_cmd b).
Proof.
  intros Hbody Hin Hrc.
  set (ev := mkEvent (git_pull_origin_remote_branch_cmd b) argv (Some rc)) in *.
  destruct (pass_shape host re_match o m ws rules w code s1 Hbody)
    as [(Ht & _)|(h & Hff & Hcode & _ & Hcl)].
  { rewrite Ht in Hin. destruct Hin. }
  destruct (ff_bad_is_last o m _ _ ev h Hff Hin) as [before Etrace].
  { cbn. congruence. }
  rewrite Etrace in Hff.
  pose proof (ff_last_failed o m _ before ev rc h Hff eq_refl Hrc) as Hh.
  cbn [ev ev_site return_code_at] in Hh. subst h. cbn in Hcode.
  pose proof (ff_before_last_ok o m _ before ev _ Hff) as Hok.
  destruct (ff_sites_prefix o m _ _ _ Hff) as [rest Eplan].
  rewrite map_app in Eplan. cbn [map ev ev_site] in Eplan.
  rewrite <- app_assoc in Eplan. cbn [app] in Eplan.
  (* the classification is known, and [b] is one of its updated branches *)
  destruct (origin_branch_changes s1) as [c|] eqn:Ec.
  2:{ exfalso. cbn [plan] in Eplan.
      assert (Hs : In (git_pull_origin_remote_branch_cmd b) setup_sites).
      { rewrite Eplan. apply in_app_iff. right. now left. }
      cbn in Hs. intuition discriminate. }
  destruct (classified_lists re_match rules c Hcl) as (Hnu & Hna & Hdisj).
  pose proof (plan_nodup c Hnu Hna) as Hnd.
  assert (Hpull : In (git_pull_origin_remote_branch_cmd b) (plan (Some c))).
  { rewrite Eplan. apply in_app_iff. right. now left. }
  assert (Hb : In b (originUpdated c)).
  { destruct (in_plan_branch c _ b Hpull eq_refl) as [[H _]|[_ H]];
      [exact H|]. cbn in H. intuition discriminate. }
  destruct (plan_pull_then_push c b Hb) as (pre & post & Epp).
  assert (Esplit : map ev_site before = pre
                   /\ rest = git_push_mirror_cmd b :: post).
  { apply (nodup_split_unique _ _ _ _ (git_pull_origin_remote_branch_cmd b)).
    - rewrite <- Eplan. exact Hnd.
    - rewrite <- Eplan. exact Epp. }
  destruct Esplit as [Epre Erest]. subst rest.
  assert (Hsites : forall e, In e (trace s1) -> In (ev_site e) (plan (Some c))).
  { intros e He. rewrite Eplan, Etrace in *. apply in_app_iff in He.
    apply in_app_iff. destruct He as [He|[<-|[]]].
    - left. now apply in_map.
    - right. now left. }
  split; [exact Hcode|]. split; [|split; [|split]].
  - intros s2 Hfin. split.
    + subst code. exact (pass_returns host re_match o m ws rules w _ s1 s2
                           Hbody Hfin).
    + now apply (finally_block_frame host s1 None s2).
  - intros e s2 Hfin. split.
    + exact (pass_raises host re_match o m ws rules w _ s1 e s2 Hbody Hfin).
    + now apply (finally_block_frame host s1 (Some e) s2).
  - exists before. split; [exact Etrace|]. split.
    + intros e He. rewrite (Hok e He). reflexivity.
    + intros e He Hsite. rewrite Eplan in Hnd.
      apply NoDup_remove_2 in Hnd. apply Hnd. apply in_app_iff. left.
      rewrite <- Hsite. now apply in_map.
  - intros e He. split.
    + intros Hsite. rewrite Eplan in Hnd.
      change (map ev_site before
              ++ git_pull_origin_remote_branch_cmd b
                 :: git_push_mirror_cmd b :: post)%list
        with (map ev_site before
              ++ [git_pull_origin_remote_branch_cmd b]
              ++ git_push_mirror_cmd b :: post)%list in Hnd.
      rewrite app_assoc in Hnd. apply NoDup_remove_2 in Hnd. apply Hnd.
      apply in_app_iff. left. rewrite Etrace in He.
      apply in_app_iff in He. apply in_app_iff.
      destruct He as [He|[<-|[]]].
      * left. rewrite <- Hsite. now apply in_map.
      * cbn in Hsite. discriminate.
    + intros Hsite. pose proof (Hsites e He) as Hp. rewrite Hsite in Hp.
      destruct (in_plan_branch c _ b Hp eq_refl) as [[_ H]|[H _]].
      * cbn in H. intuition discriminate.
      * exact (Hdisj b Hb H).
Qed.

Lemma merge_conflict_stops_the_pass_witness :
  let host := scripted_host true sample_config in
  let body :=
    try_except (try_block host literal_match sample_origin_url
                          sample_mirror_url "/srv/ws" ["main"; "feature"])
               (mkState conflict_script [] None None) in
  let ev := mkEvent (git_pull_origin_remote_branch_cmd "main")
                    ["git"; "pull"; "origin"; "main"; "--no-edit"] (Some 1) in
  In ev (trace (snd body))
  /\ 1 <> 0
  /\ fst body = -101
  /\ fst (try_sync_origin_updates_into_mirror
            host literal_match sample_origin_url sample_mirror_url "/srv/ws"
            ["main"; "feature"] conflict_script) = Returned (-101).
Proof.
  intros host body ev.
  assert (Hin : In ev (trace (snd body))).
  { vm_compute. do 7 right. left. reflexivity. }
  assert (Hrc : 1 <> 0) by discriminate.
  destruct (merge_conflict_stops_the_pass _ host literal_match
              sample_origin_url sample_mirror_url "/srv/ws" ["main"; "feature"]
              conflict_script (fst body) (snd body) "main"
              ["git"; "pull"; "origin"; "main"; "--no-edit"] 1
              (surjective_pairing body) Hin Hrc)
    as (Hcode & Hret & _).
  split; [exact Hin|]. split; [exact Hrc|]. split; [exact Hcode|].
  destruct (Hret (snd (finally_block host (snd body))) eq_refl) as [E _].
  rewrite E. reflexivity.
Defined.

(** C5, as stated, fails: on a machine where the script was started in a
    directory below the workspace, the push of the added branch
    [feature] exits with 1 and the pass does not return the code of that
    place: [os.chdir(cwd)] raises in the [finally] clause and the pass
    raises that [OSError]. *)
Lemma branch_failure_code_is_lost :
  let host := host_started_in_workspace sample_config in
  let script :=
    (quiet 3 ++ [(0, sample_origin_listing); (0, sample_mirror_listing)]
     ++ quiet 5 ++ [(1, "")])%list in
  let r := try_sync_origin_updates_into_mirror
             host literal_match sample_origin_url sample_mirror_url "/srv/ws"
             ["main"; "feature"] script in
  let ev := mkEvent (git_push_origin_added_branch_to_mirror_cmd "feature")
                    ["git"; "push"; "mirror"; "feature"] (Some 1) in
  In ev (trace (snd r))
  /\ is_branch_site (ev_site ev) = true
  /\ fst r = Raised (OSError "No such file or directory: '/srv/ws/run'")
  /\ fst r <> Returned (return_code_at (ev_site ev)).
Proof.
  intros host script r ev. split; [|split; [|split]].
  - vm_compute. do 10 right. left. reflexivity.
  - reflexivity.
  - vm_compute. reflexivity.
  - intros H. vm_compute in H. discriminate H.
Qed.

(** C5, amended. In the trace of a pass: (1) before any tag command,
    every command of every classified branch, updated or added, was issued
    and exited with 0; (2) when a command of the branch stage exits with
    another code, it is the last command of the pass, no tag command is in
    the trace, and the code of its place is what the [try ... except] part
    yields and what the pass returns once the [finally] clause has
    restored the directory; when [os.chdir(cwd)] raises there, the pass
    raises that exception instead. *)
Theorem tags_only_after_all_branches
        (W : Type) (host : Host W) (re_match : string -> string -> bool)
        (o m ws : string) (rules : list string) (w : W)
        (code : Z) (s1 : State W) :
  try_except (try_block host re_match o m ws rules) (mkState w [] None None)
  = (code, s1) ->
  (forall before ev after,
      trace s1 = (before ++ ev :: after)%list ->
      is_tag_site (ev_site ev) = true ->
      exists c,
        origin_branch_changes s1 = Some c
        /\ classified re_match rules (Some c)
        /\ (forall b x, In b (originUpdated c) -> In x (updated_sites b) ->
                        In (event_ok o m x) before)
        /\ (forall b x, In b (originAdded c) -> In x (added_sites b) ->
                        In (event_ok o m x) before))
  /\ (forall ev rc,
         In ev (trace s1) ->
         is_branch_site (ev_site ev) = true ->
         ev_rc ev = Some rc -> rc <> 0 ->
         code = return_code_at (ev_site ev)
         /\ (exists before, trace s1 = (before ++ [ev])%list)
         /\ (forall e, In e (trace s1) -> is_tag_site (ev_site e) = false)
         /\ (forall s2, finally_block host s1 = (None, s2) ->
               try_sync_origin_updates_into_mirror host re_match o m ws rules w
               = (Returned (return_code_at (ev_site ev)), s2)
               /\ trace s2 = trace s1)
         /\ (forall e s2, finally_block host s1 = (Some e, s2) ->
               try_sync_origin_updates_into_mirror host re_match o m ws rules w
               = (Raised e, s2)
               /\ trace s2 = trace s1)).
Proof.
  intros Hbody.
  destruct (pass_shape host re_match o m ws rules w code s1 Hbody)
    as [(Ht & _)|(h & Hff & Hcode & _ & Hcl)].
  { split.
    - intros before ev after E. rewrite Ht in E. now destruct before.
    - intros ev rc Hin. rewrite Ht in Hin. destruct Hin. }
  destruct (ff_sites_prefix o m _ _ _ Hff) as [rest Eplan].
  split.
  - intros before ev after Etrace Htag.
    rewrite Etrace in Hff, Eplan.
    rewrite map_app in Eplan. cbn [map] in Eplan.
    rewrite <- app_assoc in Eplan. cbn [app] in Eplan.
    destruct (origin_branch_changes s1) as [c|] eqn:Ec.
    2:{ exfalso. cbn [plan] in Eplan.
        assert (Hs : In (ev_site ev) setup_sites).
        { rewrite Eplan. apply in_app_iff. right. now left. }
        unfold is_tag_site in Htag. cbn in Hs.
        intuition (subst; match goal with H : _ = ev_site ev |- _ =>
                                     rewrite <- H in Htag end; discriminate). }
    exists c. split; [reflexivity|]. split; [exact Hcl|].
    assert (Hbefore : forall x, In x (branch_sites c) ->
                                In (event_ok o m x) before).
    { intros x Hx.
      assert (Hrank : stage_rank x = 2%nat).
      { pose proof (branch_sites_rank c) as Hr. rewrite Forall_forall in Hr.
        now apply Hr. }
      assert (Hrank' : stage_rank (ev_site ev) = 3%nat).
      { unfold is_tag_site in Htag. unfold stage_rank.
        now destruct (stage_of (ev_site ev)). }
      assert (Hp : In x (plan (Some c))).
      { cbn [plan]. apply in_app_iff. right. apply in_app_iff. now left. }
      rewrite Eplan in Hp. apply in_app_iff in Hp.
      destruct Hp as [Hp|[Hp|Hp]].
      - apply in_map_iff in Hp. destruct Hp as (e & <- & He).
        destruct (in_split _ _ He) as (l1 & l2 & ->).
        rewrite <- app_assoc in Hff. cbn [app] in Hff.
        rewrite <- (ff_ok_before_last o m _ l1 e (l2 ++ ev :: after) h Hff).
        + apply in_app_iff. right. now left.
        + now destruct l2.
      - rewrite <- Hp in Hrank. lia.
      - destruct (in_split _ _ Hp) as (l1 & l2 & El).
        rewrite El in Eplan.
        pose proof (plan_order (Some c) _ _ _ _ _ Eplan). lia. }
    split; intros b x Hb Hx; apply Hbefore; unfold branch_sites;
      apply in_app_iff; [left|right]; apply in_flat_map; now exists b.
  - intros ev rc Hin Hbranch Hrc Hne.
    destruct (ff_bad_is_last o m _ _ ev h Hff Hin) as [before Etrace].
    { rewrite Hrc. congruence. }
    rewrite Etrace in Hff, Eplan.
    pose proof (ff_last_failed o m _ before ev rc h Hff Hrc Hne) as Hh.
    subst h. cbn [ending_code] in Hcode.
    split; [exact Hcode|]. split; [now exists before|]. split.
    + intros e He. destruct (is_tag_site (ev_site e)) eqn:Htag;
        [exfalso|reflexivity].
      assert (Hrank : stage_rank (ev_site ev) = 2%nat).
      { unfold is_branch_site in Hbranch. unfold stage_rank.
        now destruct (stage_of (ev_site ev)). }
      assert (Hrank' : stage_rank (ev_site e) = 3%nat).
      { unfold is_tag_site in Htag. unfold stage_rank.
        now destruct (stage_of (ev_site e)). }
      rewrite Etrace in He. apply in_app_iff in He.
      destruct He as [He|[<-|[]]]; [|lia].
      destruct (in_split _ _ He) as (l1 & l2 & ->).
      rewrite !map_app in Eplan. cbn [map] in Eplan.
      rewrite <- !app_assoc in Eplan. cbn [app] in Eplan.
      pose proof (plan_order _ _ _ _ _ _ Eplan). lia.
    + split.
      * intros s2 Hfin. split.
        -- rewrite <- Hcode.
           exact (pass_returns host re_match o m ws rules w _ s1 s2 Hbody
                    Hfin).
        -- now apply (finally_block_frame host s1 None s2).
      * intros e s2 Hfin. split.
        -- exact (pass_raises host re_match o m ws rules w _ s1 e s2 Hbody
                    Hfin).
        -- now apply (finally_block_frame host s1 (Some e) s2).
Qed.

Lemma tags_only_after_all_branches_witness :
  let host := scripted_host true sample_config in
  let script :=
    (quiet 3 ++ [(0, sample_origin_listing); (0, sample_mirror_listing)]
     ++ quiet 3 ++ [(1, "")])%list in
  let body :=
    try_except (try_block host literal_match sample_origin_url
                          sample_mirror_url "/srv/ws" ["main"; "feature"])
               (mkState script [] None None) in
  let ev := mkEvent (git_push_mirror_cmd "main")
                    ["git"; "push"; "mirror"; "main"] (Some 1) in
  In ev (trace (snd body))
  /\ fst body = -11
  /\ (forall e, In e (trace (snd body)) -> is_tag_site (ev_site e) = false)
  /\ fst (try_sync_origin_updates_into_mirror
            host literal_match sample_origin_url sample_mirror_url "/srv/ws"
            ["main"; "feature"] script) = Returned (-11).
Proof.
  intros host script body ev.
  assert (Hin : In ev (trace (snd body))).
  { vm_compute. do 8 right. left. reflexivity. }
  destruct (tags_only_after_all_branches _ host literal_match
              sample_origin_url sample_mirror_url "/srv/ws" ["main"; "feature"]
              script (fst body) (snd body) (surjective_pairing body))
    as [_ H].
  destruct (H ev 1 Hin eq_refl eq_refl) as (Hcode & _ & Hnotag & Hret & _).
  { discriminate. }
  split; [exact Hin|]. split; [exact Hcode|]. split; [exact Hnotag|].
  destruct (Hret (snd (finally_block host (snd body))) eq_refl) as [E _].
  rewrite E. reflexivity.
Defined.

(** C8, as stated, fails: in a listing with [feature/login] and
    [bugfix/login] the first line is of the required form, with commit
    [a1a1] and last component [login], but [login] is bound to [b1b1].
    And on a machine where the script was started in a directory below
    the workspace, the listing of origin exits with 128 and the pass does
    not return -7: [os.chdir(cwd)] raises in the [finally] clause and the
    pass raises that [OSError]. *)
Lemma reader_maps_every_line_fails :
  ~ reader_maps_every_line
  /\ (let r := try_sync_origin_updates_into_mirror
                 (host_started_in_workspace sample_config) literal_match
                 sample_origin_url sample_mirror_url "/srv/ws"
                 ["main"; "feature"] (quiet 3 ++ [(128, "")])%list in
      In (mkEvent git_ls_origin_remote_branch_cmd
                  ["git"; "ls-remote"; "-h"; "origin"] (Some 128))
         (trace (snd r))
      /\ fst r = Raised (OSError "No such file or directory: '/srv/ws/run'")
      /\ fst r <> Returned (-7)).
Proof.
  split.
  2:{ cbv zeta. split; [|split].
      - vm_compute. do 3 right. left. reflexivity.
      - vm_compute. reflexivity.
      - intros H. vm_compute in H. discriminate H. }
  intros H.
  assert (Hline : listing_line ("a1a1" ++ TAB ++ "refs/heads/feature/login")
                               "a1a1" "refs/heads/feature/login").
  { exists TAB. now repeat split. }
  assert (Hleaf : leaf_of "refs/heads/feature/login" "login").
  { split; [reflexivity|]. right. now exists "refs/heads/feature". }
  specialize (H colliding_listing [("login", "b1b1")] _ _ _ _
                eq_refl (or_introl eq_refl) Hline Hleaf).
  discriminate H.
Qed.

(** C8, amended.
    (a) When the listing is read without error, a line of the form
    commit-id, whitespace, ref-path binds the component after the final
    slash of its ref-path to the commit of the last later line that binds
    the same name, and to its own commit when there is no such line.
    (b) When one of the two listing commands exits with a code other than
    0, the [try ... except] part of the pass yields the code of that
    listing, -7 for origin and -8 for mirror, which the pass returns once
    the [finally] clause has restored the directory; when [os.chdir(cwd)]
    raises there, the pass raises that exception instead.  Either way no
    command of the branch or tag stages is in the trace. *)
Theorem snapshot_reader_last_line_wins
        (W : Type) (host : Host W) (re_match : string -> string -> bool) :
  (forall out d before line after commit_id ref_path name,
      read_branches_dict out = inr d ->
      PyStr.splitlines out = (before ++ line :: after)%list ->
      listing_line line commit_id ref_path ->
      leaf_of ref_path name ->
      PyDict.get d name
      = match last_binding after name with
        | Some later_commit => Some later_commit
        | None => Some commit_id
        end)
  /\ (forall o m ws rules (w : W) code s1 ev rc,
         try_except (try_block host re_match o m ws rules)
                    (mkState w [] None None) = (code, s1) ->
         In ev (trace s1) ->
         stage_of (ev_site ev) = QuerySnapshots ->
         ev_rc ev = Some rc -> rc <> 0 ->
         code = return_code_at (ev_site ev)
         /\ (code = -7 \/ code = -8)
         /\ (forall e, In e (trace s1) ->
               is_replication_site (ev_site e) = false)
         /\ (forall s2, finally_block host s1 = (None, s2) ->
               try_sync_origin_updates_into_mirror host re_match o m ws rules w
               = (Returned code, s2)
               /\ trace s2 = trace s1)
         /\ (forall e s2, finally_block host s1 = (Some e, s2) ->
               try_sync_origin_updates_into_mirror host re_match o m ws rules w
               = (Raised e, s2)
               /\ trace s2 = trace s1)).
Proof.
  split.
  - intros out d before line after c r name Hread Hlines Hline Hleaf.
    unfold read_branches_dict in Hread. rewrite Hlines in Hread.
    apply read_branch_lines_app in Hread.
    destruct Hread as (d1 & _ & Hread). cbn [read_branch_lines] in Hread.
    destruct (read_branch_line d1 line) as [e|d2] eqn:E; [discriminate|].
    apply read_branch_line_entry in E.
    rewrite (line_entry_listing line c r name Hline Hleaf) in E. subst d2.
    rewrite (read_branch_lines_get after _ d name Hread).
    destruct (last_binding after name); [reflexivity|].
    apply PyDictFacts.get_set_same.
  - intros o m ws rules w code s1 ev rc Hbody Hin Hstage Hrc Hne.
    destruct (pass_shape host re_match o m ws rules w code s1 Hbody)
      as [(Ht & _)|(h & Hff & Hcode & _ & Hcl)].
    { rewrite Ht in Hin. destruct Hin. }
    destruct (ff_bad_is_last o m _ _ ev h Hff Hin) as [before Etrace].
    { rewrite Hrc. congruence. }
    destruct (ff_sites_prefix o m _ _ _ Hff) as [rest Eplan].
    rewrite Etrace in Hff, Eplan.
    pose proof (ff_last_failed o m _ before ev rc h Hff Hrc Hne) as Hh.
    subst h. cbn [ending_code] in Hcode.
    assert (Hrank : stage_rank (ev_site ev) = 1%nat).
    { unfold stage_rank. now rewrite Hstage. }
    split; [exact Hcode|]. split; [|split].
    + rewrite Hcode. destruct (ev_site ev); try discriminate Hstage; auto.
    + intros e He. rewrite Etrace in He. apply in_app_iff in He.
      assert (Hle : (stage_rank (ev_site e) <= 1)%nat).
      { destruct He as [He|[<-|[]]]; [|lia].
        destruct (in_split _ _ He) as (l1 & l2 & ->).
        rewrite !map_app in Eplan. cbn [map] in Eplan.
        rewrite <- !app_assoc in Eplan. cbn [app] in Eplan.
        pose proof (plan_order _ _ _ _ _ _ Eplan). lia. }
      unfold is_replication_site, is_branch_site, is_tag_site.
      unfold stage_rank in Hle.
      destruct (stage_of (ev_site e)); try reflexivity; lia.
    + split.
      * intros s2 Hfin. split.
        -- exact (pass_returns host re_match o m ws rules w _ s1 s2 Hbody Hfin).
        -- now apply (finally_block_frame host s1 None s2).
      * intros e s2 Hfin. split.
        -- exact (pass_raises host re_match o m ws rules w _ s1 e s2 Hbody
                    Hfin).
        -- now apply (finally_block_frame host s1 (Some e) s2).
Qed.

Lemma snapshot_reader_last_line_wins_witness :
  let host := scripted_host true sample_config in
  let script := (quiet 3 ++ [(128, "")])%list in
  let body :=
    try_except (try_block host literal_match sample_origin_url
                          sample_mirror_url "/srv/ws" ["main"; "feature"])
               (mkState script [] None None) in
  (forall d, read_branches_dict colliding_listing = inr d ->
             PyDict.get d "login" = Some "b1b1")
  /\ fst body = -7
  /\ (forall e, In e (trace (snd body)) ->
                is_replication_site (ev_site e) = false).
Proof.
  intros host script body.
  destruct (snapshot_reader_last_line_wins _ host literal_match) as [Ha Hb].
  split.
  - intros d Hd.
    assert (Hline : listing_line ("a1a1" ++ TAB ++ "refs/heads/feature/login")
                                 "a1a1" "refs/heads/feature/login").
    { exists TAB. now repeat split. }
    assert (Hleaf : leaf_of "refs/heads/feature/login" "login").
    { split; [reflexivity|]. right. now exists "refs/heads/feature". }
    exact (Ha colliding_listing d [] _
              ["b1b1" ++ TAB ++ "refs/heads/bugfix/login"]%string
              _ _ _ Hd eq_refl Hline Hleaf).
  - assert (Hin : In (mkEvent git_ls_origin_remote_branch_cmd
                              ["git"; "ls-remote"; "-h"; "origin"] (Some 128))
                     (trace (snd body))).
    { vm_compute. do 3 right. left. reflexivity. }
    destruct (Hb sample_origin_url sample_mirror_url "/srv/ws"
                 ["main"; "feature"] script (fst body) (snd body) _ 128
                 (surjective_pairing body) Hin eq_refl eq_refl)
      as (Hcode & _ & Hnone & _).
    { discriminate. }
    split; [exact Hcode|exact Hnone].
Defined.

(** * Further properties *)

(** ** The change classifier, continued *)

Section ClassifierOrder.

Variable re_match : string -> string -> bool.

Implicit Types (origin mirror : PyDict.dict string) (rules : list string).

Lemma fold_classify_lists mirror rules (l : list (string * string)) acc :
  let r := fold_left (classify_branch re_match mirror rules) l acc in
  originAdded r
  = (originAdded acc
     ++ map fst (filter (fun item =>
                           matched re_match rules (fst item)
                           && negb (PyDict.mem mirror (fst item))) l))%list
  /\ originUpdated r
     = (originUpdated acc
        ++ map fst (filter (fun item =>
                              matched re_match rules (fst item)
                              && match PyDict.get mirror (fst item) with
                                 | Some mirror_commit =>
                                     negb (String.eqb (snd item) mirror_commit)
                                 | None => false
                                 end) l))%list.
Proof.
  revert acc. induction l as [|[n oc] l IH]; intros acc;
    cbn [fold_left filter map fst snd].
  - now rewrite !app_nil_r.
  - destruct (IH (classify_branch re_match mirror rules acc (n, oc)))
      as [Ea Eu]. cbv zeta in Ea, Eu. cbv zeta. rewrite Ea, Eu. clear Ea Eu IH.
    unfold PyDict.mem.
    destruct (classify_branch_cases re_match mirror rules acc n oc)
      as [(Hm & ->)|[(Hm & Hg & ->)|[(Hm & Hg & ->)
                                    |(Hm & (mc & Hg & Hne) & ->)]]];
      rewrite Hm; try rewrite Hg; cbn [andb negb originAdded originUpdated
                                       map fst].
    + now split.
    + rewrite <- app_assoc. now split.
    + rewrite String.eqb_refl. now split.
    + destruct (String.eqb_spec oc mc) as [->|_]; [congruence|].
      cbn [negb map fst]. rewrite <- app_assoc. now split.
Qed.

End ClassifierOrder.

(** X1. The two lists the classifier returns are the keys of the origin
    snapshot, in its iteration order, filtered: [originAdded] keeps the
    accepted names the mirror does not have, [originUpdated] the accepted
    names the mirror has with another commit. *)
Theorem classifier_lists_follow_origin_order
        (re_match : string -> string -> bool)
        (origin mirror : PyDict.dict string) (rules : list string) :
  let changes := get_origin_branch_changes re_match origin mirror rules in
  originAdded changes
  = map fst (filter (fun item =>
                       matched re_match rules (fst item)
                       && negb (PyDict.mem mirror (fst item))) origin)
  /\ originUpdated changes
     = map fst (filter (fun item =>
                          matched re_match rules (fst item)
                          && match PyDict.get mirror (fst item) with
                             | Some mirror_commit =>
                                 negb (String.eqb (snd item) mirror_commit)
                             | None => false
                             end) origin).
Proof.
  exact (fold_classify_lists re_match mirror rules origin
                             (mkBranchChanges [] [])).
Qed.

(** X2. With an empty list of accept rules nothing is classified,
    whatever the two snapshots hold. *)
Theorem classifier_without_rules_is_empty
        (re_match : string -> string -> bool)
        (origin mirror : PyDict.dict string) :
  get_origin_branch_changes re_match origin mirror []
  = mkBranchChanges [] [].
Proof.
  unfold get_origin_branch_changes.
  generalize (mkBranchChanges [] []) as acc.
  induction origin as [|[n oc] origin IH]; intros acc; cbn [fold_left];
    [reflexivity|].
  rewrite IH. reflexivity.
Qed.

(** With total [re_match], only the members of the rule list matter. *)
Lemma matched_same_members (re_match : string -> string -> bool)
      (rules rules' : list string) (name : string) :
  (forall reg, In reg rules <-> In reg rules') ->
  matched re_match rules name = matched re_match rules' name.
Proof.
  intros Hsame.
  destruct (matched re_match rules name) eqn:E,
           (matched re_match rules' name) eqn:E'; try reflexivity.
  - apply matched_spec in E. destruct E as (reg & Hin & Hr).
    assert (matched re_match rules' name = true); [|congruence].
    apply matched_spec. exists reg. split; [now apply Hsame|assumption].
  - apply matched_spec in E'. destruct E' as (reg & Hin & Hr).
    assert (matched re_match rules name = true); [|congruence].
    apply matched_spec. exists reg. split; [now apply Hsame|assumption].
Qed.

Lemma classifier_same_members (re_match : string -> string -> bool)
      (origin mirror : PyDict.dict string) (rules rules' : list string) :
  (forall reg, In reg rules <-> In reg rules') ->
  get_origin_branch_changes re_match origin mirror rules
  = get_origin_branch_changes re_match origin mirror rules'.
Proof.
  intros Hsame. unfold get_origin_branch_changes.
  generalize (mkBranchChanges [] []) as acc.
  induction origin as [|[n oc] origin IH]; intros acc; cbn [fold_left];
    [reflexivity|].
  rewrite IH. f_equal. unfold classify_branch.
  now rewrite (matched_same_members re_match rules rules' n Hsame).
Qed.

(** When every rule compiles, the inner loop raises nothing and is the
    total one. *)
Lemma checked_matched (re_compile : string -> option (string -> bool))
      (rules : list string) (name : string) :
  (forall reg, In reg rules -> re_compile reg <> None) ->
  Checked.matched re_compile rules name
  = Some (matched (Checked.re_match re_compile) rules name).
Proof.
  induction rules as [|reg rules IH]; intros Hok; cbn [Checked.matched matched];
    [reflexivity|].
  unfold Checked.re_match at 1.
  destruct (re_compile reg) as [test|] eqn:E.
  - destruct (test name); [reflexivity|]. apply IH.
    intros r Hr. apply Hok. now right.
  - exfalso. apply (Hok reg); [now left|exact E].
Qed.

Lemma checked_classify_items (re_compile : string -> option (string -> bool))
      (mirror : PyDict.dict string) (rules : list string)
      (items : list (string * string)) (acc : BranchChanges) :
  (forall reg, In reg rules -> re_compile reg <> None) ->
  Checked.classify_items re_compile mirror rules items acc
  = Some (fold_left (classify_branch (Checked.re_match re_compile) mirror rules)
                    items acc).
Proof.
  intros Hok. revert acc.
  induction items as [|[n oc] items IH]; intros acc;
    cbn [Checked.classify_items fold_left]; [reflexivity|].
  unfold Checked.classify_branch, classify_branch.
  rewrite (checked_matched re_compile rules n Hok).
  destruct (matched (Checked.re_match re_compile) rules n); cbn [negb];
    [|apply IH].
  destruct (PyDict.mem mirror n); [|apply IH].
  destruct (PyDict.get mirror n) as [mc|]; [|apply IH].
  destruct (negb (String.eqb oc mc)); apply IH.
Qed.

(** X3. When every accept rule is a well-formed regular expression, the
    classifier raises nothing and only the set of rules matters: two rule
    lists with the same members, in any order and with any repetition,
    give the same lists.  (With a malformed rule the order matters: the
    rule raises only if it is reached.) *)
Theorem classifier_ignores_rule_order
        (re_compile : string -> option (string -> bool))
        (origin mirror : PyDict.dict string) (rules rules' : list string) :
  (forall reg, In reg rules -> re_compile reg <> None) ->
  (forall reg, In reg rules <-> In reg rules') ->
  Checked.get_origin_branch_changes re_compile origin mirror rules
  = Some (get_origin_branch_changes (Checked.re_match re_compile)
                                    origin mirror rules)
  /\ Checked.get_origin_branch_changes re_compile origin mirror rules'
     = Checked.get_origin_branch_changes re_compile origin mirror rules.
Proof.
  intros Hok Hsame.
  assert (Hok' : forall reg, In reg rules' -> re_compile reg <> None).
  { intros reg Hin. apply Hok. now apply Hsame. }
  unfold Checked.get_origin_branch_changes.
  rewrite !checked_classify_items by assumption.
  split; [reflexivity|]. f_equal.
  symmetry.
  exact (classifier_same_members (Checked.re_match re_compile) origin mirror
           rules rules' Hsame).
Qed.

Lemma classifier_ignores_rule_order_witness :
  Checked.get_origin_branch_changes Checked.literal_compile
    [("main", "a2"); ("feature", "b1")] [("main", "a1")]
    ["feature"; "main"; "feature"]
  = Some (mkBranchChanges ["feature"] ["main"])
  /\ Checked.get_origin_branch_changes Checked.literal_compile
       [("main", "a2")] [("main", "a1")] ["main"; "("]
     = Some (mkBranchChanges [] ["main"])
  /\ Checked.get_origin_branch_changes Checked.literal_compile
       [("main", "a2")] [("main", "a1")] ["("; "main"]
     = None.
Proof.
  split; [|split; reflexivity].
  destruct (classifier_ignores_rule_order Checked.literal_compile
              [("main", "a2"); ("feature", "b1")] [("main", "a1")]
              ["main"; "feature"] ["feature"; "main"; "feature"])
    as [_ E].
  - intros reg [<-|[<-|[]]]; discriminate.
  - intros reg. cbn. tauto.
  - rewrite E. reflexivity.
Defined.

(** X4. When the keys of the origin snapshot are distinct, no branch is
    listed twice in [originAdded] or in [originUpdated]. *)
Theorem classifier_lists_have_no_duplicates
        (re_match : string -> string -> bool)
        (origin mirror : PyDict.dict string) (rules : list string) :
  PyDict.wf origin ->
  let changes := get_origin_branch_changes re_match origin mirror rules in
  NoDup (originAdded changes) /\ NoDup (originUpdated changes).
Proof.
  intros Hwf.
  exact (nodup_fold re_match mirror rules origin (mkBranchChanges [] []) Hwf
           (NoDup_nil _) (NoDup_nil _)
           (fun n _ => conj (@in_nil _ n) (@in_nil _ n))).
Qed.

Lemma classifier_lists_have_no_duplicates_witness :
  let origin := [("main", "a2"); ("feature", "b1"); ("hotfix", "c1")] in
  PyDict.wf origin
  /\ NoDup (originAdded
              (get_origin_branch_changes literal_match origin
                 [("main", "a1")] ["main"; "feature"; "hotfix"])).
Proof.
  intros origin.
  assert (Hwf : PyDict.wf origin).
  { unfold PyDict.wf. simpl. repeat constructor; simpl; intuition discriminate. }
  split; [exact Hwf|].
  exact (proj1 (classifier_lists_have_no_duplicates literal_match origin
                  [("main", "a1")] ["main"; "feature"; "hotfix"] Hwf)).
Defined.

(** X5. The classification reads the mirror snapshot only at the keys of
    the origin snapshot: two mirror snapshots that agree on those keys
    give the same result, so a branch that exists on the mirror alone is
    never reported. *)
Theorem classifier_ignores_mirror_only_branches
        (re_match : string -> string -> bool)
        (origin mirror mirror' : PyDict.dict string) (rules : list string) :
  (forall name, In name (PyDict.keys origin) ->
                PyDict.get mirror name = PyDict.get mirror' name) ->
  get_origin_branch_changes re_match origin mirror rules
  = get_origin_branch_changes re_match origin mirror' rules.
Proof.
  unfold get_origin_branch_changes.
  generalize (mkBranchChanges [] []) as acc.
  induction origin as [|[n oc] origin IH]; intros acc Hagree;
    cbn [fold_left]; [reflexivity|].
  rewrite IH by (intros name Hn; apply Hagree; now right). f_equal.
  unfold classify_branch, PyDict.mem.
  now rewrite (Hagree n (or_introl eq_refl)).
Qed.

Lemma classifier_ignores_mirror_only_branches_witness :
  get_origin_branch_changes literal_match
    [("main", "a2"); ("feature", "b1")] [("main", "a1")] ["main"; "feature"]
  = get_origin_branch_changes literal_match
      [("main", "a2"); ("feature", "b1")]
      [("legacy", "z9"); ("main", "a1")] ["main"; "feature"].
Proof.
  apply classifier_ignores_mirror_only_branches.
  intros name [<-|[<-|[]]]; reflexivity.
Defined.

(** ** The snapshot reader, continued *)

Lemma line_entry_spec line name commit :
  line_entry line = Some (name, commit) <->
  PyStr.truthy (PyStr.strip line) = true
  /\ exists ref_part,
      PyStr.split line = [commit; ref_part]
      /\ PyStr.last_item (PyStr.split_on "/" ref_part) = name.
Proof.
  unfold line_entry. destruct (PyStr.truthy (PyStr.strip line)).
  - destruct (PyStr.split line) as [|c [|r [|x l]]].
    1,2,4: split; [discriminate|intros (_ & r' & E & _); discriminate E].
    split.
    + intros [= <- <-]. split; [reflexivity|]. now exists r.
    + intros (_ & r' & [= <- <-] & <-). reflexivity.
  - split; [discriminate|]. intros [H _]. discriminate H.
Qed.

Lemma last_binding_some lines name :
  last_binding lines name <> None <->
  exists line commit, In line lines /\ line_entry line = Some (name, commit).
Proof.
  induction lines as [|line lines IH]; cbn [last_binding In].
  - split; [congruence|]. now intros (? & ? & [] & _).
  - destruct (last_binding lines name) as [c|] eqn:E.
    + split; [intros _|discriminate].
      destruct (proj1 IH) as (l & c' & Hl & He); [discriminate|].
      exists l, c'. split; [now right|assumption].
    + destruct (line_entry line) as [[n c]|] eqn:El.
      * destruct (String.eqb_spec n name) as [->|Hne].
        -- split; [intros _|discriminate]. exists line, c. split; [now left|assumption].
        -- split; [congruence|]. intros (l & c' & [<-|Hl] & He).
           ++ congruence.
           ++ exfalso. apply (proj2 IH); [|reflexivity]. now exists l, c'.
      * split; [congruence|]. intros (l & c' & [<-|Hl] & He).
        -- congruence.
        -- exfalso. apply (proj2 IH); [|reflexivity]. now exists l, c'.
Qed.

(** X6. When a listing is read without error, the names of the snapshot
    are exactly the last path components of its non-blank lines, and each
    name is bound to the commit of the last line that carries it. *)
Theorem snapshot_keys_are_last_components (out : string)
        (d : PyDict.dict string) (name : string) :
  read_branches_dict out = inr d ->
  (In name (PyDict.keys d) <->
   exists line commit ref_part,
     In line (PyStr.splitlines out)
     /\ PyStr.truthy (PyStr.strip line) = true
     /\ PyStr.split line = [commit; ref_part]
     /\ PyStr.last_item (PyStr.split_on "/" ref_part) = name)
  /\ PyDict.get d name = last_binding (PyStr.splitlines out) name.
Proof.
  intros Hread. unfold read_branches_dict in Hread.
  pose proof (read_branch_lines_get (PyStr.splitlines out) [] d name Hread)
    as Hget.
  assert (Hget' : PyDict.get d name = last_binding (PyStr.splitlines out) name).
  { rewrite Hget. now destruct (last_binding (PyStr.splitlines out) name). }
  split; [|exact Hget'].
  rewrite <- PyDictFacts.mem_true. unfold PyDict.mem. rewrite Hget'.
  split.
  - intros H.
    destruct (proj1 (last_binding_some (PyStr.splitlines out) name))
      as (line & c & Hin & He).
    { now destruct (last_binding (PyStr.splitlines out) name). }
    apply line_entry_spec in He. destruct He as (Hb & r & Hs & Hl).
    now exists line, c, r.
  - intros (line & c & r & Hin & Hb & Hs & Hl).
    assert (H : last_binding (PyStr.splitlines out) name <> None).
    { apply last_binding_some. exists line, c. split; [assumption|].
      apply line_entry_spec. split; [assumption|]. now exists r. }
    now destruct (last_binding (PyStr.splitlines out) name).
Qed.

Lemma snapshot_keys_are_last_components_witness :
  read_branches_dict sample_origin_listing
  = inr [("main", "a2a2"); ("feature", "b1b1"); ("scratch", "c1c1")]
  /\ PyDict.get [("main", "a2a2"); ("feature", "b1b1"); ("scratch", "c1c1")]
                "feature"
     = last_binding (PyStr.splitlines sample_origin_listing) "feature".
Proof.
  split; [reflexivity|].
  exact (proj2 (snapshot_keys_are_last_components sample_origin_listing
                  _ "feature" eq_refl)).
Defined.

Lemma read_branch_lines_error lines d0 e :
  read_branch_lines d0 lines = inl e <->
  e = ValueError
  /\ exists line,
      In line lines
      /\ PyStr.truthy (PyStr.strip line) = true
      /\ List.length (PyStr.split line) <> 2%nat.
Proof.
  revert d0. induction lines as [|line lines IH]; intros d0;
    cbn [read_branch_lines In].
  - split; [discriminate|]. now intros (_ & ? & [] & _).
  - unfold read_branch_line at 1.
    destruct (PyStr.truthy (PyStr.strip line)) eqn:Hb.
    + destruct (PyStr.split line) as [|c [|r [|x l]]] eqn:Hs.
      1,2,4: split;
        [ intros [= <-]; split; [reflexivity|]; exists line;
          rewrite Hs; cbn; repeat split; auto; discriminate
        | intros [-> _]; reflexivity ].
      rewrite IH. split.
      * intros (-> & l & Hl & H). split; [reflexivity|].
        exists l. split; [now right|assumption].
      * intros (-> & l & [<-|Hl] & Hb' & Hlen).
        -- rewrite Hs in Hlen. now contradiction Hlen.
        -- split; [reflexivity|]. now exists l.
    + rewrite IH. split.
      * intros (-> & l & Hl & H). split; [reflexivity|].
        exists l. split; [now right|assumption].
      * intros (-> & l & [<-|Hl] & Hb' & Hlen); [congruence|].
        split; [reflexivity|]. now exists l.
Qed.

(** X7. Reading a listing fails exactly when one of its non-blank lines
    has not two whitespace-separated fields, and the exception is then
    [ValueError]. *)
Theorem snapshot_reader_fails_on_malformed_line (out : string) (e : exn) :
  read_branches_dict out = inl e <->
  e = ValueError
  /\ exists line,
      In line (PyStr.splitlines out)
      /\ PyStr.truthy (PyStr.strip line) = true
      /\ List.length (PyStr.split line) <> 2%nat.
Proof.
  apply read_branch_lines_error.
Qed.

Lemma no_char_snoc sep cur a :
  PyStr.no_char sep (PyStr.snoc cur a)
  = PyStr.no_char sep cur && negb (Ascii.eqb a sep).
Proof.
  unfold PyStr.no_char, PyStr.snoc. rewrite PyStrFacts.chars_append.
  rewrite forallb_app. cbn. now rewrite andb_true_r.
Qed.

Lemma split_on_from_items sep cur s :
  PyStr.no_char sep cur = true ->
  forall x, In x (PyStr.split_on_from sep cur s) ->
            PyStr.no_char sep x = true.
Proof.
  revert cur. induction s as [|a s IH]; intros cur Hcur x; cbn.
  - intros [<-|[]]. exact Hcur.
  - destruct (Ascii.eqb a sep) eqn:E.
    + intros [<-|Hx]; [exact Hcur|]. now apply (IH ""%string).
    + apply IH. now rewrite no_char_snoc, Hcur, E.
Qed.

Lemma last_item_no_sep sep s :
  PyStr.no_char sep (PyStr.last_item (PyStr.split_on sep s)) = true.
Proof.
  unfold PyStr.last_item, PyStr.split_on.
  apply (split_on_from_items sep "" s eq_refl).
  pose proof (PyStrFacts.split_on_from_nonempty sep "" s) as Hne.
  destruct (exists_last Hne) as (l & x & ->).
  rewrite last_last. apply in_app_iff. right. now left.
Qed.

Lemma read_branch_lines_keys lines d0 d :
  read_branch_lines d0 lines = inr d ->
  (forall k, In k (PyDict.keys d0) -> PyStr.no_char "/" k = true) ->
  forall k, In k (PyDict.keys d) -> PyStr.no_char "/" k = true.
Proof.
  revert d0. induction lines as [|line lines IH]; intros d0;
    cbn [read_branch_lines].
  - now intros [= <-].
  - destruct (read_branch_line d0 line) as [e|d1] eqn:E; [discriminate|].
    intros Hread H0. apply (IH d1 Hread).
    apply read_branch_line_entry in E.
    destruct (line_entry line) as [[n c]|] eqn:El; [|now subst].
    subst d1. intros k. rewrite PyDictFacts.keys_set.
    destruct (PyDict.mem d0 n); [apply H0|].
    rewrite in_app_iff. intros [Hk|[<-|[]]]; [now apply H0|].
    apply line_entry_spec in El. destruct El as (_ & r & _ & <-).
    apply last_item_no_sep.
Qed.

(** X8. No name of a snapshot contains a slash: a branch whose name has
    several components is known to the pass by its last component
    only. *)
Theorem snapshot_keys_have_no_slash (out : string) (d : PyDict.dict string) :
  read_branches_dict out = inr d ->
  forall name, In name (PyDict.keys d) -> PyStr.no_char "/" name = true.
Proof.
  intros Hread. apply (read_branch_lines_keys _ [] d Hread).
  intros k [].
Qed.

Lemma snapshot_keys_have_no_slash_witness :
  read_branches_dict colliding_listing = inr [("login", "b1b1")]
  /\ forall name, In name (PyDict.keys [("login", "b1b1")]) ->
                  PyStr.no_char "/" name = true.
Proof.
  split; [reflexivity|].
  exact (snapshot_keys_have_no_slash colliding_listing _ eq_refl).
Defined.

Lemma all_space_snoc cur a :
  PyStr.all_space (PyStr.snoc cur a)
  = PyStr.all_space cur && PyStr.is_space a.
Proof.
  unfold PyStr.all_space, PyStr.snoc. rewrite PyStrFacts.chars_append.
  rewrite forallb_app. cbn. now rewrite andb_true_r.
Qed.

Lemma splitlines_from_blank cur s :
  PyStr.all_space cur = true -> PyStr.all_space s = true ->
  forall line, In line (PyStr.splitlines_from cur s) ->
               PyStr.all_space line = true.
Proof.
  assert (H : forall n s cur,
             (String.length s <= n)%nat ->
             PyStr.all_space cur = true -> PyStr.all_space s = true ->
             forall line, In line (PyStr.splitlines_from cur s) ->
                          PyStr.all_space line = true).
  { clear cur s. induction n as [|n IH]; intros s cur Hlen Hcur Hs line;
      destruct s as [|a s]; cbn [PyStr.splitlines_from String.length] in *;
      try lia.
    - destruct (PyStr.truthy cur); [|intros []]. now intros [<-|[]].
    - destruct (PyStr.truthy cur); [|intros []]. now intros [<-|[]].
    - unfold PyStr.all_space in Hs. cbn in Hs.
      apply andb_prop in Hs. destruct Hs as [Ha Hs].
      destruct (PyStr.is_linebreak a).
      + destruct s as [|a' s'].
        * intros [<-|Hl]; [exact Hcur|]. cbn in Hl. destruct Hl.
        * pose proof Hs as Hs2. cbn in Hs2.
          apply andb_prop in Hs2. destruct Hs2 as [Ha' Hs'].
          cbn [String.length] in Hlen.
          destruct ((N_of_ascii a =? 13)%N && (N_of_ascii a' =? 10)%N).
          -- intros [<-|Hl]; [exact Hcur|].
             apply (IH s' ""%string); auto. lia.
          -- intros [<-|Hl]; [exact Hcur|].
             apply (IH (String a' s') ""%string); auto. cbn. lia.
      + apply (IH s); [lia| |exact Hs].
        now rewrite all_space_snoc, Hcur, Ha. }
  apply (H (String.length s)). lia.
Qed.

Lemma read_blank_lines lines d0 :
  (forall line, In line lines -> PyStr.all_space line = true) ->
  read_branch_lines d0 lines = inr d0.
Proof.
  induction lines as [|line lines IH]; intros H; cbn [read_branch_lines];
    [reflexivity|].
  unfold read_branch_line. rewrite PyStrFacts.truthy_strip.
  rewrite (H line (or_introl eq_refl)). cbn [negb].
  apply IH. intros l Hl. apply H. now right.
Qed.

(** X9. A listing that is empty, or holds only whitespace and line
    breaks, gives the empty snapshot, without error. *)
Theorem blank_listing_gives_empty_snapshot (out : string) :
  PyStr.all_space out = true -> read_branches_dict out = inr [].
Proof.
  intros Hblank. unfold read_branches_dict. apply read_blank_lines.
  now apply splitlines_from_blank.
Qed.

Lemma blank_listing_gives_empty_snapshot_witness :
  PyStr.all_space (LF ++ "  " ++ TAB ++ LF) = true
  /\ read_branches_dict (LF ++ "  " ++ TAB ++ LF) = inr [].
Proof.
  split; [reflexivity|].
  exact (blank_listing_gives_empty_snapshot (LF ++ "  " ++ TAB ++ LF)%string
           eq_refl).
Defined.

(** ** utils/url.py *)

Lemma strip_prefix_spec p s r :
  PyStr.strip_prefix p s = Some r <-> s = (p ++ r)%string.
Proof.
  revert s. induction p as [|a p IH]; intros s; cbn.
  - split; [now intros [= ->]|now intros ->].
  - destruct s as [|b s].
    + split; discriminate.
    + destruct (Ascii.eqb_spec a b) as [->|Hne].
      * rewrite IH. split; [now intros ->|now intros [= ->]].
      * split; [discriminate|]. intros [= E _]. congruence.
Qed.

Lemma span_not_sound c s h t :
  PyStr.span_not c s = (h, t) ->
  s = (h ++ t)%string /\ PyStr.no_char c h = true
  /\ (t = ""%string \/ exists t', t = String c t').
Proof.
  unfold PyStr.no_char. revert h t.
  induction s as [|a s IH]; intros h t; cbn.
  - intros [= <- <-]. repeat split. now left.
  - destruct (Ascii.eqb_spec a c) as [->|Hne].
    + intros [= <- <-]. repeat split. right. now exists s.
    + destruct (PyStr.span_not c s) as [h0 t0].
      destruct (IH h0 t0 eq_refl) as (E0 & Hh0 & Ht0).
      intros [= <- <-]. cbn. split; [now rewrite E0|].
      split; [|exact Ht0].
      destruct (Ascii.eqb_spec a c); [contradiction|exact Hh0].
Qed.

Lemma span_not_complete c h t :
  PyStr.no_char c h = true ->
  (t = ""%string \/ exists t', t = String c t') ->
  PyStr.span_not c (h ++ t) = (h, t).
Proof.
  unfold PyStr.no_char. intros Hh Ht.
  induction h as [|a h IH]; cbn in *.
  - destruct Ht as [->|(t' & ->)]; cbn; [reflexivity|].
    now rewrite Ascii.eqb_refl.
  - apply andb_prop in Hh. destruct Hh as [Ha Hh].
    apply negb_true_iff in Ha. rewrite Ha, (IH Hh). reflexivity.
Qed.

(** X10. [extract_hostname_from_git_url] answers [h] exactly for the URLs
    [git@h:...] in which [h] is not empty and has no colon; every other
    URL ([https://...], [ssh://...], a [git@] URL without a colon) gives
    [None]. *)
Theorem extract_hostname_from_git_url_spec (git_url h : string) :
  extract_hostname_from_git_url git_url = Some h <->
  PyStr.truthy h = true
  /\ PyStr.no_char ":" h = true
  /\ exists rest, git_url = ("git@" ++ h ++ ":" ++ rest)%string.
Proof.
  unfold extract_hostname_from_git_url. split.
  - destruct (PyStr.strip_prefix "git@" git_url) as [r|] eqn:Ep;
      [|discriminate].
    apply strip_prefix_spec in Ep.
    destruct (PyStr.span_not ":" r) as [[|c h0] [|c' t]] eqn:Es;
      try discriminate.
    intros [= <-]. apply span_not_sound in Es.
    destruct Es as (Er & Hh & [Ht|(t' & [= -> ->])]); [discriminate|].
    split; [reflexivity|]. split; [exact Hh|].
    exists t'. now rewrite Ep, Er.
  - intros (Ht & Hn & rest & ->).
    assert (Ep : PyStr.strip_prefix "git@" ("git@" ++ h ++ ":" ++ rest)
                 = Some (h ++ ":" ++ rest)%string)
      by now apply strip_prefix_spec.
    rewrite Ep.
    assert (Es : PyStr.span_not ":" (h ++ ":" ++ rest)
                 = (h, String ":" rest)).
    { apply span_not_complete; [exact Hn|]. right. now exists rest. }
    rewrite Es. destruct h; [discriminate|reflexivity].
Qed.

(** ** A directional pass, continued *)

Section PassMore.

Context {W : Type}.
Variable host : Host W.
Variable re_match : string -> string -> bool.
Variables o m : string.

Lemma ff_completed_all sites evs :
  fail_fast o m sites evs Completed -> evs = map (event_ok o m) sites.
Proof.
  intros H. remember Completed as h eqn:Eh.
  induction H; try discriminate; cbn [map]; [reflexivity|].
  f_equal. now apply IHfail_fast.
Qed.

Lemma ff_failed_negative sites evs code :
  fail_fast o m sites evs (Failed code) -> code < 0.
Proof.
  intros H. remember (Failed code) as h eqn:Eh.
  induction H; try discriminate; [now apply IHfail_fast|].
  inversion Eh; subst. now destruct site.
Qed.

Lemma ff_last_raised sites before ev h :
  fail_fast o m sites (before ++ [ev]) h ->
  ev_rc ev = None -> h = Crashed.
Proof.
  revert sites. induction before as [|e before IH]; intros sites H Hrc;
    cbn [app] in H.
  - inversion H as [|site sites' evs h' H'| | |]; subst; cbn in Hrc;
      try discriminate; try reflexivity.
  - inversion H as [|site sites' evs h' H'| | |]; subst.
    + now apply (IH sites').
    + now destruct before.
    + now destruct before.
Qed.

(** The [try ... except] part of a pass, with what [pass_shape] leaves
    out: a completed run knows its classification. *)
Lemma pass_shape_completed ws rules w code s1 :
  try_except (try_block host re_match o m ws rules) (mkState w [] None None)
  = (code, s1) ->
  (trace s1 = [] /\ cwd s1 = None /\ (code = -2 \/ code = -3))
  \/ (exists h,
         fail_fast o m (plan (origin_branch_changes s1)) (trace s1) h
         /\ code = ending_code h
         /\ classified re_match rules (origin_branch_changes s1)
         /\ (h = Completed -> origin_branch_changes s1 <> None)).
Proof.
  unfold try_except.
  destruct (try_block host re_match o m ws rules (mkState w [] None None))
    as [f s] eqn:E.
  apply try_block_shape in E.
  destruct E as [(Ht & Hc & _ & Hf)|(h & Hff & Hcode & Hcwd & Hcl & Hdone)].
  - destruct Hf as [-> | ->]; intros [= <- <-]; left; tauto.
  - destruct f as [[]|c|e]; intros [= <- <-]; right; exists h; now repeat split.
Qed.

End PassMore.

(** X11. A pass whose [try ... except] part yields 0 has issued every
    command of its plan, each with exit code 0 and nothing else: the three
    binding commands, the two listings, four commands for each updated
    branch, two for each added branch, in the order of the classification,
    and the three tag commands. *)
Theorem pass_success_runs_the_whole_plan
        (W : Type) (host : Host W) (re_match : string -> string -> bool)
        (o m ws : string) (rules : list string) (w : W) (s1 : State W) :
  try_except (try_block host re_match o m ws rules) (mkState w [] None None)
  = (0, s1) ->
  exists changes,
    origin_branch_changes s1 = Some changes
    /\ classified re_match rules (Some changes)
    /\ trace s1
       = map (event_ok o m)
             (setup_sites
              ++ flat_map updated_sites (originUpdated changes)
              ++ flat_map added_sites (originAdded changes)
              ++ tag_sites).
Proof.
  intros Hbody.
  destruct (pass_shape_completed host re_match o m ws rules w 0 s1 Hbody)
    as [(_ & _ & [H|H])|(h & Hff & Hcode & Hcl & Hdone)]; try discriminate.
  destruct h as [|code|]; cbn in Hcode; try discriminate.
  2:{ apply ff_failed_negative in Hff. lia. }
  destruct (origin_branch_changes s1) as [c|]; [|now contradiction Hdone].
  exists c. split; [reflexivity|]. split; [exact Hcl|].
  apply ff_completed_all in Hff. rewrite Hff. cbn [plan].
  unfold branch_sites. now rewrite <- app_assoc.
Qed.

Lemma pass_success_runs_the_whole_plan_witness :
  let host := scripted_host true sample_config in
  let script :=
    (quiet 3 ++ [(0, sample_origin_listing); (0, sample_mirror_listing)])%list in
  let body :=
    try_except (try_block host literal_match sample_origin_url
                          sample_mirror_url "/srv/ws" ["main"; "feature"])
               (mkState script [] None None) in
  body = (0, snd body)
  /\ List.length (trace (snd body)) = 14%nat.
Proof.
  intros host script body.
  assert (Hbody : body = (0, snd body)) by (vm_compute; reflexivity).
  split; [exact Hbody|].
  destruct (pass_success_runs_the_whole_plan _ host literal_match
              sample_origin_url sample_mirror_url "/srv/ws" ["main"; "feature"]
              script (snd body) Hbody) as (c & Hc & _ & Ht).
  assert (Ec : c = mkBranchChanges ["feature"] ["main"]).
  { assert (E : origin_branch_changes (snd body)
                = Some (mkBranchChanges ["feature"] ["main"]))
      by (vm_compute; reflexivity).
    congruence. }
  rewrite Ht, Ec. reflexivity.
Defined.

(** X12. Whatever command of a pass exits with a code other than 0, at
    any of the fourteen places, it is the last command issued, every
    command before it exited with 0, and the [try ... except] part yields
    the code of its place, which the pass returns once the [finally]
    clause has restored the directory. *)
Theorem pass_stops_at_first_failed_command
        (W : Type) (host : Host W) (re_match : string -> string -> bool)
        (o m ws : string) (rules : list string) (w : W)
        (code : Z) (s1 : State W) (ev : Event) (rc : Z) :
  try_except (try_block host re_match o m ws rules) (mkState w [] None None)
  = (code, s1) ->
  In ev (trace s1) -> ev_rc ev = Some rc -> rc <> 0 ->
  code = return_code_at (ev_site ev)
  /\ (exists before,
         trace s1 = (before ++ [ev])%list
         /\ forall e, In e before -> ev_rc e = Some 0)
  /\ (forall s2, finally_block host s1 = (None, s2) ->
        try_sync_origin_updates_into_mirror host re_match o m ws rules w
        = (Returned (return_code_at (ev_site ev)), s2)).
Proof.
  intros Hbody Hin Hrc Hne.
  destruct (pass_shape host re_match o m ws rules w code s1 Hbody)
    as [(Ht & _)|(h & Hff & Hcode & _)].
  { rewrite Ht in Hin. destruct Hin. }
  destruct (ff_bad_is_last o m _ _ ev h Hff Hin) as [before Etrace].
  { rewrite Hrc. congruence. }
  rewrite Etrace in Hff.
  pose proof (ff_last_failed o m _ before ev rc h Hff Hrc Hne) as Hh.
  subst h. cbn [ending_code] in Hcode.
  split; [exact Hcode|]. split.
  - exists before. split; [exact Etrace|].
    intros e He. now rewrite (ff_before_last_ok o m _ before ev _ Hff e He).
  - intros s2 Hfin. rewrite <- Hcode.
    exact (pass_returns host re_match o m ws rules w code s1 s2 Hbody Hfin).
Qed.

Lemma pass_stops_at_first_failed_command_witness :
  let host := scripted_host true sample_config in
  let script :=
    (quiet 3 ++ [(0, sample_origin_listing); (0, sample_mirror_listing)]
     ++ quiet 6 ++ [(0, ""); (128, "")])%list in
  let body :=
    try_except (try_block host literal_match sample_origin_url
                          sample_mirror_url "/srv/ws" ["main"; "feature"])
               (mkState script [] None None) in
  let ev := mkEvent git_fetch_origin_tags_cmd
                    ["git"; "fetch"; "origin"; "--tags"] (Some 128) in
  In ev (trace (snd body)) /\ fst body = -15.
Proof.
  intros host script body ev.
  assert (Hin : In ev (trace (snd body))).
  { vm_compute. do 12 right. left. reflexivity. }
  split; [exact Hin|].
  refine (proj1 (pass_stops_at_first_failed_command _ host literal_match
                   sample_origin_url sample_mirror_url "/srv/ws"
                   ["main"; "feature"] script (fst body) (snd body) ev 128
                   (surjective_pairing body) Hin eq_refl _)).
  discriminate.
Defined.

(** X13. When [run_cmd] itself raises (the program cannot be started),
    that call is the last of the pass and the [try ... except] part yields
    -1, at whichever place it happens. *)
Theorem pass_yields_minus_one_when_run_cmd_raises
        (W : Type) (host : Host W) (re_match : string -> string -> bool)
        (o m ws : string) (rules : list string) (w : W)
        (code : Z) (s1 : State W) (ev : Event) :
  try_except (try_block host re_match o m ws rules) (mkState w [] None None)
  = (code, s1) ->
  In ev (trace s1) -> ev_rc ev = None ->
  code = -1
  /\ exists before,
      trace s1 = (before ++ [ev])%list
      /\ forall e, In e before -> ev_rc e = Some 0.
Proof.
  intros Hbody Hin Hrc.
  destruct (pass_shape host re_match o m ws rules w code s1 Hbody)
    as [(Ht & _)|(h & Hff & Hcode & _)].
  { rewrite Ht in Hin. destruct Hin. }
  destruct (ff_bad_is_last o m _ _ ev h Hff Hin) as [before Etrace].
  { rewrite Hrc. discriminate. }
  rewrite Etrace in Hff.
  pose proof (ff_last_raised o m _ before ev h Hff Hrc) as Hh. subst h.
  split; [exact Hcode|]. exists before. split; [exact Etrace|].
  intros e He. now rewrite (ff_before_last_ok o m _ before ev _ Hff e He).
Qed.

Lemma pass_yields_minus_one_when_run_cmd_raises_witness :
  let body :=
    try_except (try_block host_without_git literal_match sample_origin_url
                          sample_mirror_url "/srv/ws" ["main"])
               (mkState tt [] None None) in
  let ev := mkEvent git_init_cmd ["git"; "init"; "--initial-branch=false"]
                    None in
  In ev (trace (snd body)) /\ fst body = -1.
Proof.
  intros body ev.
  assert (Hin : In ev (trace (snd body))) by (left; reflexivity).
  split; [exact Hin|].
  exact (proj1 (pass_yields_minus_one_when_run_cmd_raises _ host_without_git
                  literal_match sample_origin_url sample_mirror_url "/srv/ws"
                  ["main"] tt (fst body) (snd body) ev
                  (surjective_pairing body) Hin eq_refl)).
Defined.

(** X14. Every command of a pass is a [git] command, and every push goes
    to the remote named [mirror]: a pass never pushes to the remote it
    calls [origin]. *)
Theorem pass_pushes_only_to_mirror
        (W : Type) (host : Host W) (re_match : string -> string -> bool)
        (o m ws : string) (rules : list string) (w : W)
        (code : Z) (s1 : State W) :
  try_except (try_block host re_match o m ws rules) (mkState w [] None None)
  = (code, s1) ->
  forall e, In e (trace s1) ->
    nth_error (ev_argv e) 0 = Some "git"
    /\ (nth_error (ev_argv e) 1 = Some "push" ->
        nth_error (ev_argv e) 2 = Some "mirror").
Proof.
  intros Hbody e He.
  rewrite (pass_commands host re_match o m ws rules w code s1 Hbody e He).
  destruct (ev_site e); cbn; split; try reflexivity; intros H;
    try discriminate H; reflexivity.
Qed.

Lemma pass_pushes_only_to_mirror_witness :
  let host := scripted_host true sample_config in
  let script :=
    (quiet 3 ++ [(0, sample_origin_listing); (0, sample_mirror_listing)])%list in
  let body :=
    try_except (try_block host literal_match sample_origin_url
                          sample_mirror_url "/srv/ws" ["main"; "feature"])
               (mkState script [] None None) in
  Forall (fun e => nth_error (ev_argv e) 1 = Some "push" ->
                   nth_error (ev_argv e) 2 = Some "mirror")
         (trace (snd body)).
Proof.
  intros host script body. apply Forall_forall. intros e He.
  exact (proj2
    (pass_pushes_only_to_mirror _ host literal_match sample_origin_url
       sample_mirror_url "/srv/ws" ["main"; "feature"] script
       (fst body) (snd body) (surjective_pairing body) e He)).
Defined.

(** X15. On every machine: when the origin URL has no [git@host:] prefix,
    or when [configure_ssh_host] answers [False], the pass issues no
    command and raises [UnboundLocalError] from its [finally] clause; it
    returns neither -2 nor -3. *)
Theorem pass_early_exit_raises
        (W : Type) (host : Host W) (re_match : string -> string -> bool)
        (o m ws : string) (rules : list string) (w : W) :
  extract_hostname_from_git_url o = None
  \/ (exists hostname w',
         extract_hostname_from_git_url o = Some hostname
         /\ configure_ssh_host host hostname w = (false, w')) ->
  let r := try_sync_origin_updates_into_mirror host re_match o m ws rules w in
  fst r = Raised (UnboundLocalError "cwd") /\ trace (snd r) = [].
Proof.
  intros [Hno|(hostname & w' & Hh & Hssh)] r; subst r.
  - now rewrite (hostname_failure_raises host re_match o m ws rules w Hno).
  - now rewrite (ssh_failure_raises host re_match o m ws rules w w' hostname
                   Hh Hssh).
Qed.

Lemma pass_early_exit_raises_witness :
  extract_hostname_from_git_url "ssh://git@origin.example/team/app.git" = None
  /\ fst (try_sync_origin_updates_into_mirror
            (scripted_host true sample_config) literal_match
            "ssh://git@origin.example/team/app.git" sample_mirror_url
            "/srv/ws" ["main"] [])
     = Raised (UnboundLocalError "cwd").
Proof.
  split; [reflexivity|].
  exact (proj1 (pass_early_exit_raises _ (scripted_host true sample_config)
                  literal_match "ssh://git@origin.example/team/app.git"
                  sample_mirror_url "/srv/ws" ["main"] []
                  (or_introl eq_refl))).
Defined.

(** X16. A pass that stops before its first command yields -2, -3 or -1;
    once the working directory has been recorded, that is for every
    failure while the workspace is wiped, created and entered, it yields
    the generic -1. *)
Theorem pass_workspace_failure_yields_minus_one
        (W : Type) (host : Host W) (re_match : string -> string -> bool)
        (o m ws : string) (rules : list string) (w : W)
        (code : Z) (s1 : State W) :
  try_except (try_block host re_match o m ws rules) (mkState w [] None None)
  = (code, s1) ->
  trace s1 = [] ->
  (code = -1 \/ code = -2 \/ code = -3)
  /\ (cwd s1 <> None -> code = -1).
Proof.
  intros Hbody Ht.
  destruct (pass_shape host re_match o m ws rules w code s1 Hbody)
    as [(_ & Hc & Hcode)|(h & Hff & Hcode & _)].
  - split; [tauto|]. intros H. now contradiction H.
  - rewrite Ht in Hff.
    assert (Hh : h = Crashed).
    { destruct (origin_branch_changes s1) as [c|]; cbn [plan setup_sites app]
        in Hff; inversion Hff; reflexivity. }
    subst h. cbn in Hcode. split; [now left|]. intros _. exact Hcode.
Qed.

Lemma pass_workspace_failure_yields_minus_one_witness :
  let body :=
    try_except (try_block host_with_full_disk literal_match sample_origin_url
                          sample_mirror_url "/srv/ws" ["main"])
               (mkState tt [] None None) in
  trace (snd body) = [] /\ cwd (snd body) <> None /\ fst body = -1.
Proof.
  intros body.
  assert (Ht : trace (snd body) = []) by reflexivity.
  assert (Hc : cwd (snd body) <> None) by discriminate.
  split; [exact Ht|]. split; [exact Hc|].
  exact (proj2 (pass_workspace_failure_yields_minus_one _ host_with_full_disk
                  literal_match sample_origin_url sample_mirror_url "/srv/ws"
                  ["main"] tt (fst body) (snd body)
                  (surjective_pairing body) Ht) Hc).
Defined.

(** ** The driver, continued *)

(** X17. When the configuration cannot be read, or lists no repository
    pair, [main] returns -1 and runs no pass. *)
Theorem main_without_pairs_returns_minus_one
        (W : Type) (host : Host W) (re_match : string -> string -> bool)
        (w : W) :
  (exists e w1, load_config host w = (inl e, w1))
  \/ (exists data w1, load_config host w = (inr data, w1)
                      /\ sync_needed_repo_pairs data = []) ->
  exit_code (main host re_match w) = -1
  /\ passes (main host re_match w) = [].
Proof.
  unfold main. intros [(e & w1 & ->)|(data & w1 & -> & Hnil)].
  - now split.
  - unfold main_configured. rewrite Hnil. now split.
Qed.

Lemma main_without_pairs_returns_minus_one_witness :
  let data := mkConfig "/srv/ws" [] ["main"] ["main"] in
  load_config (scripted_host true data) [] = (inr data, [])
  /\ exit_code (main (scripted_host true data) literal_match []) = -1.
Proof.
  intros data. split; [reflexivity|].
  refine (proj1 (main_without_pairs_returns_minus_one _
                   (scripted_host true data) literal_match [] _)).
  right. exists data, []. now split.
Defined.

(** X18. The exit code of [main] is -1 or the code its first pass
    returned.  The second pass runs exactly when the first returned 0;
    when it runs, the exit code is -1 if it raised and 0 otherwise,
    whatever code it returned. *)
Theorem main_exit_code_comes_from_first_pass
        (W : Type) (host : Host W) (re_match : string -> string -> bool)
        (data : Config) (w : W) :
  let r := main_configured host re_match data w in
  match passes r with
  | [] => exit_code r = -1
  | [p1] =>
      pass_outcome p1 <> Returned 0
      /\ match pass_outcome p1 with
         | Returned returncode => exit_code r = returncode
         | Raised _ => exit_code r = -1
         end
  | [p1; p2] =>
      pass_outcome p1 = Returned 0
      /\ match pass_outcome p2 with
         | Returned _ => exit_code r = 0
         | Raised _ => exit_code r = -1
         end
  | _ => False
  end.
Proof.
  cbv zeta. unfold main_configured.
  destruct (fold_left bind_repo_pair (sync_needed_repo_pairs data)
                      (None, None, [])) as [[[ou|] [mu|]] l];
    try reflexivity.
  unfold sync_between_two_repos.
  destruct (try_sync_origin_updates_into_mirror host re_match ou mu
              (local_workspace data)
              (origin_changed_branch_accept_rules data) w)
    as [[returncode|e] s1].
  2:{ cbn. split; [discriminate|reflexivity]. }
  destruct (failed returncode) eqn:Ef.
  { cbn. split; [|reflexivity]. intros [= ->]. discriminate Ef. }
  assert (returncode = 0).
  { unfold failed in Ef. apply negb_false_iff in Ef. now apply Z.eqb_eq. }
  subst returncode.
  destruct (try_sync_origin_updates_into_mirror host re_match mu ou
              (local_workspace data)
              (mirror_changed_branch_accept_rules data) (world s1))
    as [[return_code|e] s2].
  - destruct (failed return_code); cbn; now split.
  - cbn. now split.
Qed.

(** X19. When the origin URL of the last configured pair has no
    [git@host:] prefix, [main] returns -1 after a single pass that
    issued no command. *)
Theorem main_rejects_urls_without_git_prefix
        (W : Type) (host : Host W) (re_match : string -> string -> bool)
        (ws : string) (earlier : list RepoPair) (last : RepoPair)
        (ro rm : list string) (w : W) :
  extract_hostname_from_git_url (origin_repo_ssh_url last) = None ->
  let r := main_configured host re_match
                           (mkConfig ws (earlier ++ [last]) ro rm) w in
  exit_code r = -1
  /\ exists p, passes r = [p]
               /\ pass_outcome p = Raised (UnboundLocalError "cwd")
               /\ trace (pass_final p) = [].
Proof.
  intros Hno r. subst r. rewrite main_configured_last.
  unfold sync_between_two_repos.
  rewrite (hostname_failure_raises host re_match _ _ ws ro w Hno).
  split; [reflexivity|]. eexists. split; [reflexivity|]. now split.
Qed.

Lemma main_rejects_urls_without_git_prefix_witness :
  let last := mkRepoPair "https://origin.example/team/app.git"
                         "git@mirror.example:team/app.git" in
  extract_hostname_from_git_url (origin_repo_ssh_url last) = None
  /\ exit_code (main_configured (scripted_host true sample_config)
                  literal_match
                  (mkConfig "/srv/ws" ([] ++ [last]) ["main"] ["main"]) [])
     = -1.
Proof.
  intros last. split; [reflexivity|].
  exact (proj1 (main_rejects_urls_without_git_prefix _
                  (scripted_host true sample_config) literal_match "/srv/ws"
                  [] last ["main"] ["main"] [] eq_refl)).
Defined.

(** ** utils/fileutils.py *)

Module FileUtilsFacts.
Import FileUtils.

Lemma testbit_S_IWRITE (i : Z) : Z.testbit S_IWRITE i = (i =? 7).
Proof.
  change S_IWRITE with (2 ^ 7). rewrite Z.pow2_bits_eqb by lia.
  apply Z.eqb_sym.
Qed.

Lemma testbit_permission_bits (i : Z) :
  0 <= i -> Z.testbit permission_bits i = (i <? 12).
Proof.
  intros Hi. change permission_bits with (Z.ones 12).
  destruct (Z.ltb_spec i 12).
  - apply Z.ones_spec_low. lia.
  - apply Z.ones_spec_high. lia.
Qed.

Lemma testbit_lor_S_IWRITE (mode : Z) :
  Z.testbit (Z.lor mode S_IWRITE) 7 = true.
Proof.
  rewrite Z.lor_spec, testbit_S_IWRITE. cbn. apply orb_true_r.
Qed.

(** What [os.chmod] leaves on a plain tree when given
    [current | S_IWRITE]. *)
Lemma chmod_adds_write_bit (old : Z) :
  Z.lor (Z.ldiff old permission_bits)
        (Z.land (Z.lor old S_IWRITE) permission_bits)
  = Z.lor old S_IWRITE.
Proof.
  apply Z.bits_inj'. intros i Hi.
  rewrite !Z.lor_spec, Z.ldiff_spec, Z.land_spec, Z.lor_spec.
  rewrite testbit_S_IWRITE, (testbit_permission_bits i Hi).
  destruct (Z.testbit old i), (Z.eqb_spec i 7), (Z.ltb_spec i 12);
    cbn; try reflexivity; lia.
Qed.

(** [current | S_IWRITE] differs from [current] exactly when the write
    bit is not set. *)
Lemma lor_S_IWRITE_same (mode : Z) :
  (Z.lor mode S_IWRITE =? mode) = Z.testbit mode 7.
Proof.
  destruct (Z.eqb_spec (Z.lor mode S_IWRITE) mode) as [E|Hne].
  - rewrite <- E, Z.lor_spec, testbit_S_IWRITE. cbn. now rewrite orb_true_r.
  - destruct (Z.testbit mode 7) eqn:Hb; [|reflexivity].
    exfalso. apply Hne. apply Z.bits_inj'. intros i Hi.
    rewrite Z.lor_spec, testbit_S_IWRITE.
    destruct (Z.eqb_spec i 7) as [->|_]; [|now rewrite orb_false_r].
    rewrite Hb. reflexivity.
Qed.

Lemma lor_S_IWRITE_twice (mode : Z) :
  Z.lor (Z.lor mode S_IWRITE) S_IWRITE = Z.lor mode S_IWRITE.
Proof. now rewrite <- Z.lor_assoc, Z.lor_diag. Qed.

Section Machine.

Variable chmod : string -> Z -> PyDict.dict Z -> exn + PyDict.dict Z.

(** A file that has the write bit: [os.chmod] is not called. *)
Lemma make_file_writable_writable file_path fs mode :
  PyDict.get (modes fs) file_path = Some mode ->
  Z.testbit mode 7 = true ->
  make_file_writable chmod file_path fs = (inr tt, fs).
Proof.
  intros Hget Hb. unfold make_file_writable, os_stat_st_mode.
  rewrite Hget. cbv zeta. rewrite lor_S_IWRITE_same, Hb. reflexivity.
Qed.

(** A file that lacks it: one call of [os.chmod], whose answer decides. *)
Lemma make_file_writable_asks file_path fs mode :
  PyDict.get (modes fs) file_path = Some mode ->
  Z.testbit mode 7 = false ->
  make_file_writable chmod file_path fs
  = match chmod file_path (Z.lor mode S_IWRITE) (modes fs) with
    | inl e =>
        (inl e,
         mkFS (modes fs)
              (chmods fs ++ [(file_path, Z.lor mode S_IWRITE)])
              (printed fs))
    | inr modes' =>
        (inr tt,
         mkFS modes'
              (chmods fs ++ [(file_path, Z.lor mode S_IWRITE)])
              (printed fs
               ++ [("File permissions changed: " ++ file_path)%string]))
    end.
Proof.
  intros Hget Hb. unfold make_file_writable, os_stat_st_mode, os_chmod, print.
  rewrite Hget. cbv zeta. rewrite lor_S_IWRITE_same, Hb. cbn [negb].
  now destruct (chmod file_path (Z.lor mode S_IWRITE) (modes fs)).
Qed.

(** The calls of [os.chmod] one file can cause, and the lines printed. *)
Lemma make_file_writable_calls file_path fs r fs' :
  make_file_writable chmod file_path fs = (r, fs') ->
  exists calls,
    chmods fs' = (chmods fs ++ calls)%list
    /\ Forall (fun call => fst call = file_path
                           /\ Z.testbit (snd call) 7 = true) calls
    /\ (r = inr tt ->
        printed fs' = (printed fs ++ map printed_line calls)%list).
Proof.
  destruct (PyDict.get (modes fs) file_path) as [mode|] eqn:Hget.
  - destruct (Z.testbit mode 7) eqn:Hb.
    + rewrite (make_file_writable_writable _ _ _ Hget Hb).
      intros [= <- <-]. exists []. rewrite !app_nil_r. now repeat split.
    + rewrite (make_file_writable_asks _ _ _ Hget Hb).
      destruct (chmod file_path (Z.lor mode S_IWRITE) (modes fs));
        intros [= <- <-]; exists [(file_path, Z.lor mode S_IWRITE)];
        cbn [chmods printed map]; (split; [reflexivity|]);
        (split; [repeat constructor; apply testbit_lor_S_IWRITE|]);
        [discriminate|reflexivity].
  - unfold make_file_writable, os_stat_st_mode. rewrite Hget.
    intros [= <- <-]. exists []. rewrite !app_nil_r. now repeat split.
Qed.

Lemma make_listed_files_writable_calls root files fs r fs' :
  make_listed_files_writable chmod root files fs = (r, fs') ->
  exists calls,
    chmods fs' = (chmods fs ++ calls)%list
    /\ Forall (fun call => In (fst call) (map (os_path_join root) files)
                           /\ Z.testbit (snd call) 7 = true) calls
    /\ (r = inr tt ->
        printed fs' = (printed fs ++ map printed_line calls)%list).
Proof.
  revert fs. induction files as [|file files IH]; intros fs;
    cbn [make_listed_files_writable map].
  - intros [= <- <-]. exists []. rewrite !app_nil_r. now repeat split.
  - destruct (make_file_writable chmod (os_path_join root file) fs)
      as [[e|[]] fs1] eqn:E1; apply make_file_writable_calls in E1;
      destruct E1 as (calls1 & Hc1 & Hf1 & Hp1).
    + intros [= <- <-]. exists calls1. split; [exact Hc1|].
      split; [|discriminate].
      apply (Forall_impl _ (P := fun call =>
               fst call = os_path_join root file
               /\ Z.testbit (snd call) 7 = true)); [|exact Hf1].
      intros call [-> Hb]. split; [now left|exact Hb].
    + intros Hrest. apply IH in Hrest.
      destruct Hrest as (calls2 & Hc2 & Hf2 & Hp2).
      exists (calls1 ++ calls2)%list.
      split; [now rewrite Hc2, Hc1, app_assoc|]. split.
      * apply Forall_app. split.
        -- apply (Forall_impl _ (P := fun call =>
                    fst call = os_path_join root file
                    /\ Z.testbit (snd call) 7 = true)); [|exact Hf1].
           intros call [-> Hb]. split; [now left|exact Hb].
        -- apply (Forall_impl _ (P := fun call =>
                    In (fst call) (map (os_path_join root) files)
                    /\ Z.testbit (snd call) 7 = true)); [|exact Hf2].
           intros call [Hin Hb]. split; [now right|exact Hb].
      * intros Hr. rewrite (Hp2 Hr), (Hp1 eq_refl), map_app, app_assoc.
        reflexivity.
Qed.

(** Where [os.chmod] behaves on the listed files as on a plain tree, the
    functions run as on a plain tree. *)
Lemma make_file_writable_plain file_path fs :
  (forall mode ms, chmod file_path mode ms = plain_chmod file_path mode ms) ->
  make_file_writable chmod file_path fs
  = make_file_writable plain_chmod file_path fs.
Proof.
  intros H. unfold make_file_writable, os_chmod.
  destruct (os_stat_st_mode file_path fs) as [e|mode]; [reflexivity|].
  cbv zeta. now rewrite H.
Qed.

Lemma make_listed_files_writable_plain root files fs :
  (forall file mode ms,
      In file files ->
      chmod (os_path_join root file) mode ms
      = plain_chmod (os_path_join root file) mode ms) ->
  make_listed_files_writable chmod root files fs
  = make_listed_files_writable plain_chmod root files fs.
Proof.
  revert fs. induction files as [|file files IH]; intros fs H;
    cbn [make_listed_files_writable]; [reflexivity|].
  rewrite make_file_writable_plain
    by (intros mode ms; apply H; now left).
  destruct (make_file_writable plain_chmod (os_path_join root file) fs)
    as [[e|[]] fs1]; [reflexivity|].
  apply IH. intros f mode ms Hf. apply H. now right.
Qed.

Lemma make_files_writable_plain walk fs :
  (forall p mode ms,
      In p (walked_files walk) -> chmod p mode ms = plain_chmod p mode ms) ->
  make_files_writable chmod walk fs = make_files_writable plain_chmod walk fs.
Proof.
  revert fs. induction walk as [|[[root dirs] files] walk IH]; intros fs H;
    cbn [make_files_writable]; [reflexivity|].
  cbn [walked_files flat_map fst snd] in H.
  rewrite make_listed_files_writable_plain.
  2:{ intros f mode ms Hf. apply H. apply in_app_iff. left.
      now apply in_map. }
  destruct (make_listed_files_writable plain_chmod root files fs)
    as [[e|[]] fs1]; [reflexivity|].
  apply IH. intros p mode ms Hp. apply H. apply in_app_iff. now right.
Qed.

End Machine.

(** One file on a plain tree. *)
Lemma make_file_writable_present file_path fs mode :
  PyDict.get (modes fs) file_path = Some mode ->
  exists fs',
    make_file_writable plain_chmod file_path fs = (inr tt, fs')
    /\ PyDict.get (modes fs') file_path = Some (Z.lor mode S_IWRITE)
    /\ (forall p, p <> file_path ->
                  PyDict.get (modes fs') p = PyDict.get (modes fs) p).
Proof.
  intros Hget. destruct (Z.testbit mode 7) eqn:Hb.
  - rewrite (make_file_writable_writable plain_chmod _ _ _ Hget Hb).
    exists fs. split; [reflexivity|]. split; [|reflexivity].
    rewrite Hget. f_equal. symmetry. apply Z.eqb_eq.
    now rewrite lor_S_IWRITE_same.
  - rewrite (make_file_writable_asks plain_chmod _ _ _ Hget Hb).
    unfold plain_chmod. rewrite Hget, chmod_adds_write_bit.
    eexists. split; [reflexivity|]. cbn [modes].
    split; [apply PyDictFacts.get_set_same|].
    intros p Hp. apply PyDictFacts.get_set_other. congruence.
Qed.

End FileUtilsFacts.

(** X20. On a path that exists, [make_file_writable] calls [os.chmod] at
    most once, and for that path: not at all when the mode already has
    the owner-write bit (bit 7), and then nothing changes and nothing is
    printed; otherwise once, asking for the mode that [os.stat] answered
    with bit 7 added and every other bit as it was.  Whatever [os.chmod]
    does on the machine, the function raises what that call raised and
    prints its line only after the call returned. *)
Theorem make_file_writable_asks_only_for_the_write_bit
        (chmod : string -> Z -> PyDict.dict Z -> exn + PyDict.dict Z)
        (file_path : string) (fs : FileUtils.FS) (mode : Z) :
  PyDict.get (FileUtils.modes fs) file_path = Some mode ->
  (Z.testbit mode 7 = true ->
   FileUtils.make_file_writable chmod file_path fs = (inr tt, fs))
  /\ (Z.testbit mode 7 = false ->
      exists new_mode,
        (forall i, 0 <= i ->
                   Z.testbit new_mode i = (i =? 7) || Z.testbit mode i)
        /\ FileUtils.make_file_writable chmod file_path fs
           = match chmod file_path new_mode (FileUtils.modes fs) with
             | inl e =>
                 (inl e,
                  FileUtils.mkFS
                    (FileUtils.modes fs)
                    (FileUtils.chmods fs ++ [(file_path, new_mode)])
                    (FileUtils.printed fs))
             | inr modes' =>
                 (inr tt,
                  FileUtils.mkFS
                    modes'
                    (FileUtils.chmods fs ++ [(file_path, new_mode)])
                    (FileUtils.printed fs
                     ++ [("File permissions changed: "
                          ++ file_path)%string]))
             end).
Proof.
  intros Hget. split.
  - exact (FileUtilsFacts.make_file_writable_writable chmod _ _ _ Hget).
  - intros Hb. exists (Z.lor mode FileUtils.S_IWRITE). split.
    + intros i _. rewrite Z.lor_spec, FileUtilsFacts.testbit_S_IWRITE.
      apply orb_comm.
    + exact (FileUtilsFacts.make_file_writable_asks chmod _ _ _ Hget Hb).
Qed.

Lemma make_file_writable_asks_only_for_the_write_bit_witness :
  PyDict.get (FileUtils.modes FileUtils.sample_fs)
             "/srv/ws/objects/pack-1.idx" = Some 33060
  /\ FileUtils.make_file_writable FileUtils.foreign_pack_chmod
       "/srv/ws/objects/pack-1.idx" FileUtils.sample_fs
     = (inl (OSError "Operation not permitted"),
        FileUtils.mkFS (FileUtils.modes FileUtils.sample_fs)
                       [("/srv/ws/objects/pack-1.idx", 33188)] [])
  /\ FileUtils.make_file_writable FileUtils.plain_chmod
       "/srv/ws/objects/pack-1.idx" FileUtils.sample_fs
     = (inr tt,
        FileUtils.mkFS
          [("/srv/ws/config", 33188); ("/srv/ws/objects/pack-1.idx", 33188)]
          [("/srv/ws/objects/pack-1.idx", 33188)]
          ["File permissions changed: /srv/ws/objects/pack-1.idx"]).
Proof.
  split; [reflexivity|].
  destruct (make_file_writable_asks_only_for_the_write_bit
              FileUtils.foreign_pack_chmod
              "/srv/ws/objects/pack-1.idx" FileUtils.sample_fs 33060 eq_refl)
    as [_ H].
  destruct (H eq_refl) as (new_mode & _ & _).
  split; reflexivity.
Defined.

Module FileUtilsWalk.
Import FileUtils.

Lemma made_writable_nil fs : made_writable [] fs fs.
Proof. intros p. reflexivity. Qed.

Lemma made_writable_app S1 S2 fs fs1 fs2 :
  made_writable S1 fs fs1 -> made_writable S2 fs1 fs2 ->
  made_writable (S1 ++ S2) fs fs2.
Proof.
  intros H1 H2 p. rewrite (H2 p), (H1 p), existsb_app.
  destruct (existsb (String.eqb p) S1), (existsb (String.eqb p) S2);
    cbn [orb]; try reflexivity.
  destruct (PyDict.get (modes fs) p) as [md|]; cbn; [|reflexivity].
  now rewrite FileUtilsFacts.lor_S_IWRITE_twice.
Qed.

Lemma made_writable_exists S fs fs' p :
  made_writable S fs fs' ->
  (PyDict.get (modes fs') p = None <-> PyDict.get (modes fs) p = None).
Proof.
  intros H. rewrite (H p).
  destruct (existsb (String.eqb p) S), (PyDict.get (modes fs) p);
    cbn; split; congruence.
Qed.

Lemma make_file_writable_made q fs md :
  PyDict.get (modes fs) q = Some md ->
  exists fs', make_file_writable plain_chmod q fs = (inr tt, fs')
              /\ made_writable [q] fs fs'.
Proof.
  intros Hq.
  destruct (FileUtilsFacts.make_file_writable_present q fs md Hq)
    as (fs' & Hrun & Hnew & Hother).
  exists fs'. split; [exact Hrun|]. intros p. cbn [existsb].
  destruct (String.eqb_spec p q) as [->|Hne]; cbn [orb].
  - now rewrite Hnew, Hq.
  - now apply Hother.
Qed.

Lemma make_listed_files_writable_made root files fs :
  (forall file, In file files ->
                PyDict.get (modes fs) (os_path_join root file) <> None) ->
  exists fs',
    make_listed_files_writable plain_chmod root files fs = (inr tt, fs')
    /\ made_writable (map (os_path_join root) files) fs fs'.
Proof.
  revert fs. induction files as [|file files IH]; intros fs Hall;
    cbn [make_listed_files_writable map].
  - exists fs. split; [reflexivity|apply made_writable_nil].
  - destruct (PyDict.get (modes fs) (os_path_join root file)) as [md|] eqn:E.
    2:{ exfalso. now apply (Hall file (or_introl eq_refl)). }
    destruct (make_file_writable_made _ fs md E) as (fs1 & -> & H1).
    destruct (IH fs1) as (fs2 & -> & H2).
    { intros f Hf. rewrite (made_writable_exists _ _ _ _ H1).
      apply Hall. now right. }
    exists fs2. split; [reflexivity|].
    exact (made_writable_app [_] _ fs fs1 fs2 H1 H2).
Qed.

Lemma make_files_writable_made walk fs :
  (forall p, In p (walked_files walk) -> PyDict.get (modes fs) p <> None) ->
  exists fs',
    make_files_writable plain_chmod walk fs = (inr tt, fs')
    /\ made_writable (walked_files walk) fs fs'.
Proof.
  revert fs. induction walk as [|[[root dirs] files] walk IH]; intros fs Hall;
    cbn [make_files_writable walked_files flat_map fst snd].
  - exists fs. split; [reflexivity|apply made_writable_nil].
  - destruct (make_listed_files_writable_made root files fs)
      as (fs1 & -> & H1).
    { intros f Hf. apply Hall. cbn [walked_files flat_map fst snd].
      apply in_app_iff. left. now apply in_map. }
    destruct (IH fs1) as (fs2 & -> & H2).
    { intros p Hp. rewrite (made_writable_exists _ _ _ _ H1).
      apply Hall. cbn [walked_files flat_map fst snd].
      apply in_app_iff. now right. }
    exists fs2. split; [reflexivity|].
    exact (made_writable_app _ _ fs fs1 fs2 H1 H2).
Qed.

Lemma existsb_eqb_In p S : existsb (String.eqb p) S = true <-> In p S.
Proof.
  rewrite existsb_exists. split.
  - intros (x & Hx & E). apply String.eqb_eq in E. now subst.
  - intros H. exists p. split; [assumption|apply String.eqb_refl].
Qed.

(** A file that is missing stops the inner loop with an exception. *)
Lemma make_listed_files_writable_missing root files fs :
  (exists file, In file files
                /\ PyDict.get (modes fs) (os_path_join root file) = None) ->
  exists fs', make_listed_files_writable plain_chmod root files fs
              = (inl (OSError "No such file or directory"), fs').
Proof.
  revert fs. induction files as [|file files IH]; intros fs (f & Hf & Hnone);
    [destruct Hf|]. cbn [make_listed_files_writable].
  destruct (PyDict.get (modes fs) (os_path_join root file)) as [md|] eqn:E.
  - destruct (make_file_writable_made _ fs md E) as (fs1 & -> & H1).
    apply IH. destruct Hf as [<-|Hf]; [congruence|].
    exists f. split; [assumption|].
    now rewrite (made_writable_exists _ _ _ _ H1).
  - exists fs. unfold make_file_writable, os_stat_st_mode. now rewrite E.
Qed.

Lemma make_files_writable_missing walk fs :
  (exists p, In p (walked_files walk) /\ PyDict.get (modes fs) p = None) ->
  exists fs', make_files_writable plain_chmod walk fs
              = (inl (OSError "No such file or directory"), fs').
Proof.
  revert fs. induction walk as [|[[root dirs] files] walk IH];
    intros fs (p & Hp & Hnone); [destruct Hp|].
  cbn [make_files_writable]. cbn [walked_files flat_map fst snd] in Hp.
  destruct (existsb (fun file =>
              match PyDict.get (modes fs) (os_path_join root file) with
              | None => true | Some _ => false end) files) eqn:Ex.
  - apply existsb_exists in Ex. destruct Ex as (f & Hf & Hm).
    destruct (make_listed_files_writable_missing root files fs)
      as (fs' & ->).
    { exists f. split; [assumption|].
      now destruct (PyDict.get (modes fs) (os_path_join root f)). }
    now exists fs'.
  - destruct (make_listed_files_writable_made root files fs)
      as (fs1 & -> & H1).
    { intros f Hf Hnone'.
      assert (existsb (fun file =>
                match PyDict.get (modes fs) (os_path_join root file) with
                | None => true | Some _ => false end) files = true);
        [|congruence].
      apply existsb_exists. exists f. split; [assumption|]. now rewrite Hnone'. }
    apply IH. exists p. split.
    + apply in_app_iff in Hp. destruct Hp as [Hp|Hp]; [|assumption].
      exfalso. apply in_map_iff in Hp. destruct Hp as (f & <- & Hf).
      assert (existsb (fun file =>
                match PyDict.get (modes fs) (os_path_join root file) with
                | None => true | Some _ => false end) files = true);
        [|congruence].
      apply existsb_exists. exists f. split; [assumption|]. now rewrite Hnone.
    + now rewrite (made_writable_exists _ _ _ _ H1).
Qed.

End FileUtilsWalk.

(** X21. Whatever [os.chmod] does on the machine and however
    [make_files_writable] ends, every call of [os.chmod] it made is for a
    file that [os.walk] listed, never for a directory or a path outside
    the listing, and asks for a mode with the owner-write bit; when it
    returns, it has printed one line for each call, in order. *)
Theorem make_files_writable_changes_only_listed_files
        (chmod : string -> Z -> PyDict.dict Z -> exn + PyDict.dict Z)
        (walk : list (string * list string * list string))
        (fs fs' : FileUtils.FS) (r : exn + unit) :
  FileUtils.make_files_writable chmod walk fs = (r, fs') ->
  exists calls,
    FileUtils.chmods fs' = (FileUtils.chmods fs ++ calls)%list
    /\ Forall (fun call =>
                 In (fst call) (FileUtils.walked_files walk)
                 /\ Z.testbit (snd call) 7 = true) calls
    /\ (r = inr tt ->
        FileUtils.printed fs'
        = (FileUtils.printed fs ++ map FileUtils.printed_line calls)%list).
Proof.
  revert fs fs' r.
  induction walk as [|[[root dirs] files] walk IH]; intros fs fs' r;
    cbn [FileUtils.make_files_writable FileUtils.walked_files flat_map fst snd].
  - intros [= <- <-]. exists []. rewrite !app_nil_r. now repeat split.
  - destruct (FileUtils.make_listed_files_writable chmod root files fs)
      as [[e|[]] fs1] eqn:E1;
      apply FileUtilsFacts.make_listed_files_writable_calls in E1;
      destruct E1 as (calls1 & Hc1 & Hf1 & Hp1).
    + intros [= <- <-]. exists calls1. split; [exact Hc1|].
      split; [|discriminate].
      apply (Forall_impl _ (P := fun call =>
               In (fst call) (map (FileUtils.os_path_join root) files)
               /\ Z.testbit (snd call) 7 = true)); [|exact Hf1].
      intros call [Hin Hb]. split; [|exact Hb]. apply in_app_iff. now left.
    + intros Hrest. apply IH in Hrest.
      destruct Hrest as (calls2 & Hc2 & Hf2 & Hp2).
      exists (calls1 ++ calls2)%list.
      split; [now rewrite Hc2, Hc1, app_assoc|]. split.
      * apply Forall_app. split.
        -- apply (Forall_impl _ (P := fun call =>
                    In (fst call) (map (FileUtils.os_path_join root) files)
                    /\ Z.testbit (snd call) 7 = true)); [|exact Hf1].
           intros call [Hin Hb]. split; [|exact Hb].
           apply in_app_iff. now left.
        -- apply (Forall_impl _ (P := fun call =>
                    In (fst call) (FileUtils.walked_files walk)
                    /\ Z.testbit (snd call) 7 = true)); [|exact Hf2].
           intros call [Hin Hb]. split; [|exact Hb].
           apply in_app_iff. now right.
      * intros Hr. rewrite (Hp2 Hr), (Hp1 eq_refl), map_app, app_assoc.
        reflexivity.
Qed.

Lemma make_files_writable_changes_only_listed_files_witness :
  FileUtils.make_files_writable FileUtils.foreign_pack_chmod
    FileUtils.sample_walk FileUtils.sample_fs
  = (inl (OSError "Operation not permitted"),
     FileUtils.mkFS (FileUtils.modes FileUtils.sample_fs)
                    [("/srv/ws/objects/pack-1.idx", 33188)] [])
  /\ exists calls,
      calls = [("/srv/ws/objects/pack-1.idx", 33188)]
      /\ Forall (fun call =>
                   In (fst call) (FileUtils.walked_files FileUtils.sample_walk)
                   /\ Z.testbit (snd call) 7 = true) calls.
Proof.
  split; [reflexivity|].
  destruct (make_files_writable_changes_only_listed_files
              FileUtils.foreign_pack_chmod FileUtils.sample_walk
              FileUtils.sample_fs
              (FileUtils.mkFS (FileUtils.modes FileUtils.sample_fs)
                              [("/srv/ws/objects/pack-1.idx", 33188)] [])
              (inl (OSError "Operation not permitted")) eq_refl)
    as (calls & Hcalls & Hall & _).
  exists calls. cbn [FileUtils.chmods FileUtils.sample_fs app] in Hcalls.
  split; [now symmetry|exact Hall].
Defined.

(** X22. On a tree where [os.chmod] on a listed file behaves as on a
    plain tree (it succeeds whenever the file exists and changes the
    permission bits of that path alone: the files are the user's own and
    no two paths name one file), [make_files_writable] succeeds exactly
    when every file that [os.walk] lists exists; afterwards each listed
    file has its mode or-ed with [S_IWRITE] and the mode of every other
    path, directories included, is as before. *)
Theorem make_files_writable_on_plain_tree
        (chmod : string -> Z -> PyDict.dict Z -> exn + PyDict.dict Z)
        (walk : list (string * list string * list string))
        (fs : FileUtils.FS) :
  (forall p mode ms,
      In p (FileUtils.walked_files walk) ->
      chmod p mode ms = FileUtils.plain_chmod p mode ms) ->
  (fst (FileUtils.make_files_writable chmod walk fs) = inr tt <->
   forall p, In p (FileUtils.walked_files walk) ->
             PyDict.get (FileUtils.modes fs) p <> None)
  /\ (forall fs',
         FileUtils.make_files_writable chmod walk fs = (inr tt, fs') ->
         (forall p mode,
             In p (FileUtils.walked_files walk) ->
             PyDict.get (FileUtils.modes fs) p = Some mode ->
             PyDict.get (FileUtils.modes fs') p
             = Some (Z.lor mode FileUtils.S_IWRITE))
         /\ (forall p, ~ In p (FileUtils.walked_files walk) ->
               PyDict.get (FileUtils.modes fs') p
               = PyDict.get (FileUtils.modes fs) p)).
Proof.
  intros Hplain.
  rewrite (FileUtilsFacts.make_files_writable_plain chmod walk fs Hplain).
  split; [split|].
  - intros Hok p Hp Hnone.
    destruct (FileUtilsWalk.make_files_writable_missing walk fs)
      as (fs' & E); [now exists p|].
    rewrite E in Hok. discriminate Hok.
  - intros Hall.
    destruct (FileUtilsWalk.make_files_writable_made walk fs Hall)
      as (fs' & -> & _). reflexivity.
  - intros fs' Hrun.
    assert (Hall : forall p, In p (FileUtils.walked_files walk) ->
                             PyDict.get (FileUtils.modes fs) p <> None).
    { intros p Hp Hnone.
      destruct (FileUtilsWalk.make_files_writable_missing walk fs)
        as (fs0 & E); [now exists p|].
      rewrite E in Hrun. discriminate Hrun. }
    destruct (FileUtilsWalk.make_files_writable_made walk fs Hall)
      as (fs1 & Hrun1 & Hm).
    rewrite Hrun1 in Hrun. injection Hrun as <-. split.
    + intros p mode Hp Hget. rewrite (Hm p).
      now rewrite (proj2 (FileUtilsWalk.existsb_eqb_In p _) Hp), Hget.
    + intros p Hp. rewrite (Hm p).
      destruct (existsb (String.eqb p) (FileUtils.walked_files walk)) eqn:E;
        [|reflexivity].
      exfalso. apply Hp. now apply FileUtilsWalk.existsb_eqb_In.
Qed.

Lemma make_files_writable_on_plain_tree_witness :
  exists fs',
    FileUtils.make_files_writable FileUtils.plain_chmod FileUtils.sample_walk
                                  FileUtils.sample_fs = (inr tt, fs')
    /\ PyDict.get (FileUtils.modes fs') "/srv/ws/objects/pack-1.idx"
       = Some 33188
    /\ PyDict.get (FileUtils.modes fs') "/srv/ws/config" = Some 33188.
Proof.
  destruct (make_files_writable_on_plain_tree FileUtils.plain_chmod
              FileUtils.sample_walk FileUtils.sample_fs
              (fun p mode ms _ => eq_refl))
    as [_ Hmodes].
  eexists. split; [reflexivity|].
  destruct (Hmodes _ eq_refl) as [Hset _].
  split.
  - refine (Hset "/srv/ws/objects/pack-1.idx" 33060 _ eq_refl).
    right. left. reflexivity.
  - refine (Hset "/srv/ws/config" 33188 _ eq_refl). left. reflexivity.
Defined.

(** X23. A tree whose files all have the write bit already is left as it
    is: no mode is changed and nothing is printed. *)
Theorem make_files_writable_leaves_writable_tree
        (chmod : string -> Z -> PyDict.dict Z -> exn + PyDict.dict Z)
        (walk : list (string * list string * list string))
        (fs : FileUtils.FS) :
  (forall p, In p (FileUtils.walked_files walk) ->
             exists mode, PyDict.get (FileUtils.modes fs) p = Some mode
                          /\ Z.testbit mode 7 = true) ->
  FileUtils.make_files_writable chmod walk fs = (inr tt, fs).
Proof.
  revert fs. induction walk as [|[[root dirs] files] walk IH]; intros fs Hall;
    cbn [FileUtils.make_files_writable]; [reflexivity|].
  assert (Hin : FileUtils.make_listed_files_writable chmod root files fs
                = (inr tt, fs)).
  { assert (Hfiles : forall file, In file files ->
               exists mode,
                 PyDict.get (FileUtils.modes fs)
                            (FileUtils.os_path_join root file) = Some mode
                 /\ Z.testbit mode 7 = true).
    { intros f Hf. apply Hall. cbn [FileUtils.walked_files flat_map fst snd].
      apply in_app_iff. left. now apply in_map. }
    clear Hall IH. induction files as [|file files IHf];
      cbn [FileUtils.make_listed_files_writable]; [reflexivity|].
    destruct (Hfiles file (or_introl eq_refl)) as (mode & Hget & Hbit).
    rewrite (FileUtilsFacts.make_file_writable_writable chmod _ fs mode
               Hget Hbit).
    apply IHf. intros f Hf. apply Hfiles. now right. }
  rewrite Hin. apply IH. intros p Hp. apply Hall.
  cbn [FileUtils.walked_files flat_map fst snd]. apply in_app_iff. now right.
Qed.

Lemma make_files_writable_leaves_writable_tree_witness :
  let fs := FileUtils.mkFS [("/srv/ws/config", 33188);
                            ("/srv/ws/objects/pack-1.idx", 33188)] [] [] in
  (forall p, In p (FileUtils.walked_files FileUtils.sample_walk) ->
             exists mode, PyDict.get (FileUtils.modes fs) p = Some mode
                          /\ Z.testbit mode 7 = true)
  /\ FileUtils.make_files_writable FileUtils.foreign_pack_chmod
                                   FileUtils.sample_walk fs = (inr tt, fs).
Proof.
  intros fs.
  assert (Hall : forall p,
             In p (FileUtils.walked_files FileUtils.sample_walk) ->
             exists mode, PyDict.get (FileUtils.modes fs) p = Some mode
                          /\ Z.testbit mode 7 = true).
  { intros p [<-|[<-|[]]]; exists 33188; now split. }
  split; [exact Hall|].
  exact (make_files_writable_leaves_writable_tree
           FileUtils.foreign_pack_chmod FileUtils.sample_walk fs Hall).
Defined.

(** ** init/two-step/fetch-git-repo.py: [main] *)

Module FetchReposFacts.
Import FetchRepos.

Section Facts.

Context {W : Type}.
Variable host : Host W.

(** The fuel [main] gives the loop never cuts it short: when it is used
    up the loop condition is false. *)
Lemma retry_loop_fuel fuel failed_times url ws max cooldown (s : State W) :
  (Z.to_nat (max - failed_times) <= fuel)%nat ->
  retry_loop host fuel failed_times url ws max cooldown s
  = retry_loop host (Z.to_nat (max - failed_times)) failed_times url ws
               max cooldown s.
Proof.
  revert failed_times s.
  induction fuel as [|fuel IH]; intros ft s Hfuel.
  - now replace (Z.to_nat (max - ft)) with O by lia.
  - cbn [retry_loop]. destruct (Z.ltb_spec ft max) as [Hlt|Hge].
    + replace (Z.to_nat (max - ft)) with (S (Z.to_nat (max - (ft + 1))))
        by lia.
      cbn [retry_loop]. destruct (Z.ltb_spec ft max) as [_|]; [|lia].
      destruct (try_fetch_git_repo host url ws (world s)) as [[e|[|]] w];
        try reflexivity.
      destruct (time_sleep cooldown); [reflexivity|].
      apply IH. lia.
    + replace (Z.to_nat (max - ft)) with O by lia. reflexivity.
Qed.

(** What the loop adds to the attempts, and the value of [failed_times]
    it leaves. *)
Lemma retry_loop_spec fuel failed_times url ws max cooldown
      (s s' : State W) r :
  (Z.to_nat (max - failed_times) <= fuel)%nat ->
  retry_loop host fuel failed_times url ws max cooldown s = (r, s') ->
  exists failures,
    Forall (fun a => a = (url, false)) failures
    /\ (Z.of_nat (List.length failures) <= Z.max 0 (max - failed_times))
    /\ match r with
       | inl _ =>
           attempts s' = (attempts s ++ failures)%list
       | inr failed_times' =>
           failed_times' = failed_times + Z.of_nat (List.length failures)
           /\ ((failed_times' < max
                /\ attempts s' = (attempts s ++ failures ++ [(url, true)])%list)
               \/ (max <= failed_times'
                   /\ attempts s' = (attempts s ++ failures)%list))
       end.
Proof.
  revert failed_times s.
  induction fuel as [|fuel IH]; intros ft s Hfuel; cbn [retry_loop].
  - intros [= <- <-]. exists []. split; [constructor|]. cbn. split; [lia|].
    split; [lia|]. right. split; [lia|now rewrite app_nil_r].
  - destruct (Z.ltb_spec ft max) as [Hlt|Hge].
    + destruct (try_fetch_git_repo host url ws (world s)) as [[e|[|]] w].
      * intros [= <- <-]. exists []. split; [constructor|]. cbn.
        split; [lia|]. now rewrite app_nil_r.
      * intros [= <- <-]. exists []. split; [constructor|]. cbn.
        split; [lia|]. split; [lia|]. left. now split.
      * destruct (time_sleep cooldown).
        -- intros [= <- <-]. exists [(url, false)].
           split; [repeat constructor|]. cbn [List.length attempts].
           split; [lia|reflexivity].
        -- intros Hloop. apply IH in Hloop; [|lia].
           destruct Hloop as (failures & Hall & Hlen & Hr).
           exists ((url, false) :: failures). split; [now constructor|].
           cbn [List.length attempts] in *. split; [lia|].
           destruct r as [e|ft'].
           ++ rewrite Hr, <- app_assoc. reflexivity.
           ++ destruct Hr as (-> & Hr). split; [lia|].
              destruct Hr as [(H1 & ->)|(H1 & ->)]; [left|right];
                (split; [lia|]); now rewrite <- app_assoc.
    + intros [= <- <-]. exists []. split; [constructor|]. cbn. split; [lia|].
      split; [lia|]. right. split; [lia|now rewrite app_nil_r].
Qed.

(** One repository: the attempts only grow, and the return code is kept
    only after a successful fetch of that repository. *)
Lemma fetch_one_spec data returncode url (s s' : State W) returncode' :
  fetch_one host data returncode url s = (inr returncode', s') ->
  (exists more, attempts s' = (attempts s ++ more)%list)
  /\ (returncode' = -2 \/ returncode' = -3 \/ returncode' = -4
      \/ (returncode' = returncode
          /\ extract_hostname_from_git_url url <> None
          /\ In (url, true) (attempts s'))).
Proof.
  unfold fetch_one.
  destruct (extract_hostname_from_git_url url) as [hostname|] eqn:Eh.
  2:{ intros [= <- <-]. split; [exists []; now rewrite app_nil_r|tauto]. }
  destruct (PyStr.truthy hostname).
  2:{ intros [= <- <-]. split; [exists []; now rewrite app_nil_r|tauto]. }
  destruct (configure_ssh_host host hostname (world s)) as [ok w].
  destruct ok; cbn [negb].
  2:{ intros [= <- <-]. split; [exists []; now rewrite app_nil_r|tauto]. }
  destruct (retry_loop host (Z.to_nat (max_retry_times data)) 0 url
                       (local_workspace data) (max_retry_times data)
                       (retry_cooldown_sec data) (mkState w (attempts s)))
    as [[e|ft] s1] eqn:Eloop; [discriminate|].
  apply retry_loop_spec in Eloop; [|lia].
  destruct Eloop as (failures & _ & _ & _ & Hr). cbn [attempts] in Hr.
  destruct (Z.leb_spec (max_retry_times data) ft) as [Hge|Hlt];
    intros [= <- <-].
  - split; [|tauto]. destruct Hr as [(_ & ->)|(_ & ->)]; eexists; reflexivity.
  - destruct Hr as [(_ & Ha)|(Hc & _)]; [|lia]. rewrite Ha.
    split; [eexists; reflexivity|]. do 3 right. split; [reflexivity|].
    split; [discriminate|]. rewrite !in_app_iff. right. right. now left.
Qed.

Lemma fetch_all_spec data repos returncode (s s' : State W) returncode' :
  fetch_all host data returncode repos s = (inr returncode', s') ->
  (exists more, attempts s' = (attempts s ++ more)%list)
  /\ (returncode' = 0 ->
      returncode = 0
      /\ forall url, In url repos ->
           extract_hostname_from_git_url url <> None
           /\ In (url, true) (attempts s')).
Proof.
  revert returncode s. induction repos as [|url repos IH];
    intros returncode s; cbn [fetch_all].
  - intros [= <- <-]. split; [exists []; now rewrite app_nil_r|].
    intros ->. split; [reflexivity|]. intros url [].
  - destruct (fetch_one host data returncode url s) as [[e|rc1] s1] eqn:E1;
      [discriminate|].
    intros Hall. apply fetch_one_spec in E1. destruct E1 as ((m1 & Hm1) & H1).
    apply IH in Hall. destruct Hall as ((m2 & Hm2) & H2).
    split; [exists (m1 ++ m2)%list; now rewrite Hm2, Hm1, app_assoc|].
    intros H0. destruct (H2 H0) as (Hrc1 & Hrest). subst rc1.
    destruct H1 as [H1|[H1|[H1|(H1 & Hh & Hin)]]]; try discriminate H1.
    split; [now symmetry|]. intros u [<-|Hu]; [|now apply Hrest].
    split; [exact Hh|]. rewrite Hm2. apply in_app_iff. now left.
Qed.

End Facts.

End FetchReposFacts.

(** X24. The retry loop of the fetch script, entered with no failure yet:
    it calls [try_fetch_git_repo] at most [max_retry_times] times, stops
    at the first success, and leaves [failed_times] equal to the number
    of failed calls; when that number reaches [max_retry_times] every
    call has failed. *)
Theorem fetch_retry_loop_is_bounded
        (W : Type) (host : FetchRepos.Host W)
        (url ws : string) (max cooldown : Z)
        (s s' : FetchRepos.State W) (failed_times : Z) :
  FetchRepos.retry_loop host (Z.to_nat max) 0 url ws max cooldown s
  = (inr failed_times, s') ->
  exists failures,
    Forall (fun a => a = (url, false)) failures
    /\ failed_times = Z.of_nat (List.length failures)
    /\ failed_times <= Z.max 0 max
    /\ ((failed_times < max
         /\ FetchRepos.attempts s'
            = (FetchRepos.attempts s ++ failures ++ [(url, true)])%list)
        \/ (max <= failed_times
            /\ FetchRepos.attempts s'
               = (FetchRepos.attempts s ++ failures)%list)).
Proof.
  intros Hloop.
  apply FetchReposFacts.retry_loop_spec in Hloop; [|lia].
  destruct Hloop as (failures & Hall & Hlen & -> & Hr).
  exists failures. split; [exact Hall|]. split; [lia|]. split; [lia|].
  exact Hr.
Qed.

Lemma fetch_retry_loop_is_bounded_witness :
  let s := FetchRepos.mkState 2%nat [] in
  let r := FetchRepos.retry_loop (FetchRepos.flaky_host FetchRepos.flaky_config)
             (Z.to_nat 3) 0 "git@origin.example:team/app.git" "/srv/ws" 3 0 s in
  r = (inr 2, snd r)
  /\ FetchRepos.attempts (snd r)
     = [("git@origin.example:team/app.git", false);
        ("git@origin.example:team/app.git", false);
        ("git@origin.example:team/app.git", true)].
Proof.
  intros s r.
  assert (Hr : r = (inr 2, snd r)) by reflexivity.
  split; [exact Hr|].
  destruct (fetch_retry_loop_is_bounded _ _ _ _ _ _ s (snd r) 2 Hr)
    as (failures & _ & _ & _ & _).
  reflexivity.
Defined.

(** X25. The fetch script's [main] returns 0 only if the [git config]
    command exited with 0, every configured URL has a [git@host:] prefix,
    and every configured repository was fetched successfully. *)
Theorem fetch_main_zero_means_all_fetched
        (W : Type) (host : FetchRepos.Host W) (w : W) :
  fst (FetchRepos.main host w) = 0 ->
  exists data w1,
    FetchRepos.load_config host w = (inr data, w1)
    /\ forall url, In url (FetchRepos.fetch_needed_repos data) ->
         extract_hostname_from_git_url url <> None
         /\ In (url, true) (FetchRepos.attempts (snd (FetchRepos.main host w))).
Proof.
  unfold FetchRepos.main.
  destruct (FetchRepos.load_config host w) as [[e|data] w1];
    [discriminate|].
  destruct (FetchRepos.run_cmd host _ w1) as [[e|[[rc out] err]] w2];
    [discriminate|].
  destruct (negb (rc =? 0)); [discriminate|].
  destruct (FetchRepos.fetch_all host data 0 (FetchRepos.fetch_needed_repos data)
              (FetchRepos.mkState w2 [])) as [[e|rc'] s] eqn:E;
    [discriminate|].
  cbn [fst snd]. intros ->. exists data, w1. split; [reflexivity|].
  apply FetchReposFacts.fetch_all_spec in E. destruct E as (_ & H).
  exact (proj2 (H eq_refl)).
Qed.

Lemma fetch_main_zero_means_all_fetched_witness :
  fst (FetchRepos.main (FetchRepos.flaky_host FetchRepos.flaky_config) 2%nat)
  = 0
  /\ In ("git@origin.example:team/app.git", true)
        (FetchRepos.attempts
           (snd (FetchRepos.main
                   (FetchRepos.flaky_host FetchRepos.flaky_config) 2%nat))).
Proof.
  split; [reflexivity|].
  destruct (fetch_main_zero_means_all_fetched _
              (FetchRepos.flaky_host FetchRepos.flaky_config) 2%nat eq_refl)
    as (data & w1 & Hload & Hall).
  inversion Hload; subst.
  exact (proj2 (Hall _ (or_introl eq_refl))).
Defined.

(** X26. With [max-retry-times] at 0 or below, [main] of the fetch script
    never calls [try_fetch_git_repo]: no call answers and nothing is
    raised; and as soon as one repository is configured it reports a
    failure: -2, -3 or -4. *)
Theorem fetch_main_without_retries_fetches_nothing
        (W : Type) (host : FetchRepos.Host W) (w w1 w2 : W)
        (data : FetchRepos.Config) (out err : string) :
  FetchRepos.load_config host w = (inr data, w1) ->
  FetchRepos.run_cmd host
    ["git"; "config"; "--global"; "core.autocrlf"; "false"] w1
  = (inr (0, out, err), w2) ->
  FetchRepos.max_retry_times data <= 0 ->
  FetchRepos.attempts (snd (FetchRepos.main host w)) = []
  /\ fst (FetchRepos.main host w) <> -1
  /\ (FetchRepos.fetch_needed_repos data <> [] ->
      fst (FetchRepos.main host w) = -2 \/ fst (FetchRepos.main host w) = -3
      \/ fst (FetchRepos.main host w) = -4).
Proof.
  intros Hload Hcmd Hmax. unfold FetchRepos.main. rewrite Hload, Hcmd.
  cbn [Z.eqb negb].
  assert (Hone : forall rc url (s : FetchRepos.State W),
             exists rc' w',
               FetchRepos.fetch_one host data rc url s
               = (inr rc', FetchRepos.mkState w' (FetchRepos.attempts s))
               /\ (rc' = -2 \/ rc' = -3 \/ rc' = -4)).
  { intros rc url s. unfold FetchRepos.fetch_one.
    destruct (extract_hostname_from_git_url url) as [hostname|].
    2:{ exists (-3), (FetchRepos.world s). destruct s. split; [reflexivity|tauto]. }
    destruct (PyStr.truthy hostname).
    2:{ exists (-3), (FetchRepos.world s). destruct s. split; [reflexivity|tauto]. }
    destruct (FetchRepos.configure_ssh_host host hostname (FetchRepos.world s))
      as [ok w'].
    destruct ok; cbn [negb].
    2:{ exists (-2), w'. split; [reflexivity|tauto]. }
    replace (Z.to_nat (FetchRepos.max_retry_times data)) with O by lia.
    cbn [FetchRepos.retry_loop].
    destruct (Z.leb_spec (FetchRepos.max_retry_times data) 0); [|lia].
    exists (-4), w'. split; [reflexivity|tauto]. }
  assert (Hall : forall repos rc (s : FetchRepos.State W),
             exists rc' w',
               FetchRepos.fetch_all host data rc repos s
               = (inr rc', FetchRepos.mkState w' (FetchRepos.attempts s))
               /\ ((rc = -2 \/ rc = -3 \/ rc = -4) \/ repos <> [] ->
                   rc' = -2 \/ rc' = -3 \/ rc' = -4)).
  { induction repos as [|url repos IH]; intros rc s; cbn [FetchRepos.fetch_all].
    - exists rc, (FetchRepos.world s). destruct s. split; [reflexivity|].
      intros [H|H]; [exact H|now contradiction H].
    - destruct (Hone rc url s) as (rc1 & w1' & -> & Hrc1).
      destruct (IH rc1 (FetchRepos.mkState w1' (FetchRepos.attempts s)))
        as (rc2 & w2' & -> & Hrc2).
      exists rc2, w2'. split; [reflexivity|]. intros _.
      apply Hrc2. now left. }
  destruct (Hall (FetchRepos.fetch_needed_repos data) 0
                 (FetchRepos.mkState w2 [])) as (rc' & w' & E0 & Hrc).
  rewrite E0.
  cbn [fst snd FetchRepos.attempts]. split; [reflexivity|].
  assert (Hcode : FetchRepos.fetch_needed_repos data = []
                  \/ (rc' = -2 \/ rc' = -3 \/ rc' = -4)).
  { destruct (FetchRepos.fetch_needed_repos data) as [|u l];
      [now left|right]. apply Hrc. right. discriminate. }
  split; [|intros Hne; apply Hrc; now right].
  destruct Hcode as [Hnil|Hcode]; [|lia].
  rewrite Hnil in E0. cbn [FetchRepos.fetch_all] in E0.
  injection E0 as <- _. lia.
Qed.

Lemma fetch_main_without_retries_fetches_nothing_witness :
  let data := FetchRepos.mkConfig 0 0 "/srv/ws"
                ["git@origin.example:team/app.git"] in
  let host := FetchRepos.flaky_host data in
  FetchRepos.max_retry_times data <= 0
  /\ FetchRepos.attempts (snd (FetchRepos.main host 0%nat)) = []
  /\ fst (FetchRepos.main host 0%nat) = -4.
Proof.
  intros data host.
  assert (Hmax : FetchRepos.max_retry_times data <= 0) by (cbn; lia).
  split; [exact Hmax|].
  split; [|reflexivity].
  exact (proj1 (fetch_main_without_retries_fetches_nothing _ host 0%nat 0%nat
                  0%nat data "" "" eq_refl eq_refl Hmax)).
Defined.

(** ** init/two-step/push-git-repo.py: [main] *)

Module PushReposFacts.
Import PushRepos.

Section Facts.

Context {W : Type}.
Variable host : Host W.

(** The first loop of [main] keeps every entry, in order, or stops on a
    path that does not exist. *)
Lemma collect_pairs_kept acc repos (w : W) :
  Forall (fun repo_pair =>
            os_path_exists host
              (os_path_normpath host (cfg_local_repo_path repo_pair)) w
            = true) repos ->
  collect_pairs host acc repos w
  = inr (acc ++ map (kept_pair host) repos)%list.
Proof.
  revert acc. induction repos as [|p repos IH]; intros acc Hall;
    cbn [collect_pairs map].
  - now rewrite app_nil_r.
  - inversion Hall as [|? ? Hp Hrest]; subst. rewrite Hp. cbn [negb].
    rewrite IH by assumption. rewrite <- app_assoc. reflexivity.
Qed.

Lemma collect_pairs_missing acc repos (w : W) repo_pair :
  In repo_pair repos ->
  os_path_exists host
    (os_path_normpath host (cfg_local_repo_path repo_pair)) w = false ->
  collect_pairs host acc repos w = inl (-2).
Proof.
  revert acc. induction repos as [|p repos IH]; intros acc Hin Hmiss;
    [destruct Hin|].
  cbn [collect_pairs].
  destruct (os_path_exists host
              (os_path_normpath host (cfg_local_repo_path p)) w) eqn:Ep;
    cbn [negb]; [|reflexivity].
  destruct Hin as [->|Hin]; [congruence|]. now apply IH.
Qed.

(** One entry, when nothing raises: the calls it adds and the code it
    leaves. *)
Lemma push_one_spec returncode entry (s s' : State W) returncode' :
  push_one host returncode entry s = (inr returncode', s') ->
  exists chunk,
    calls s' = (calls s ++ chunk)%list
    /\ pair_calls entry chunk
    /\ ((returncode' = returncode
         /\ In (TryPush (fst entry) (snd entry) (Some true)) chunk)
        \/ (returncode' = -4
            /\ (extract_hostname_from_git_url (snd entry) = None
                \/ extract_hostname_from_git_url (snd entry) = Some ""))
        \/ (returncode' = -3
            /\ exists hostname,
                extract_hostname_from_git_url (snd entry) = Some hostname
                /\ In (ConfigureSsh hostname false) chunk)
        \/ (returncode' = -5
            /\ In (TryPush (fst entry) (snd entry) (Some false)) chunk)).
Proof.
  destruct entry as [path url]. unfold push_one, pair_calls. cbn [fst snd].
  destruct (extract_hostname_from_git_url url) as [hostname|] eqn:Eh.
  2:{ intros [= <- <-]. exists []. rewrite app_nil_r.
      split; [reflexivity|]. split; [reflexivity|]. right. left. tauto. }
  destruct (PyStr.truthy hostname) eqn:Et.
  2:{ intros [= <- <-]. exists []. rewrite app_nil_r.
      split; [reflexivity|]. split; [reflexivity|]. right. left.
      split; [reflexivity|]. right. destruct hostname; [reflexivity|].
      discriminate Et. }
  destruct (configure_ssh_host host hostname (world s)) as [ok w].
  destruct ok; cbn [negb].
  2:{ intros [= <- <-]. exists [ConfigureSsh hostname false].
      split; [reflexivity|]. split; [now left|]. right. right. left.
      split; [reflexivity|]. exists hostname. split; [reflexivity|now left]. }
  destruct (try_push_git_repo host path url w) as [[e|pushed] w'];
    [discriminate|].
  destruct pushed; cbn [negb]; intros [= <- <-]; cbn [calls].
  - exists [ConfigureSsh hostname true; TryPush path url (Some true)].
    split; [now rewrite <- app_assoc|]. split; [right; now exists true|].
    left. split; [reflexivity|]. right. now left.
  - exists [ConfigureSsh hostname true; TryPush path url (Some false)].
    split; [now rewrite <- app_assoc|]. split; [right; now exists false|].
    right. right. right. split; [reflexivity|]. right. now left.
Qed.

(** The calls of the whole loop, entry by entry. *)
Lemma push_all_calls returncode pairs (s s' : State W) returncode' :
  push_all host returncode pairs s = (inr returncode', s') ->
  exists chunks,
    calls s' = (calls s ++ List.concat chunks)%list
    /\ Forall2 pair_calls pairs chunks.
Proof.
  revert returncode s. induction pairs as [|entry pairs IH];
    intros returncode s; cbn [push_all].
  - intros [= <- <-]. exists []. cbn. rewrite app_nil_r. now split.
  - destruct (push_one host returncode entry s) as [[e|rc1] s1] eqn:E1;
      [discriminate|].
    intros Hall. apply push_one_spec in E1.
    destruct E1 as (chunk & Hc & Hp & _).
    apply IH in Hall. destruct Hall as (chunks & Hcs & Hps).
    exists (chunk :: chunks). cbn [List.concat].
    split; [now rewrite Hcs, Hc, <- app_assoc|]. now constructor.
Qed.

(** The code the loop leaves is the one it was entered with, every entry
    having been pushed, or the code of the last entry that failed. *)
Lemma push_all_code returncode pairs (s s' : State W) returncode' :
  push_all host returncode pairs s = (inr returncode', s') ->
  (exists more, calls s' = (calls s ++ more)%list)
  /\ ((returncode' = returncode
       /\ Forall (fun entry =>
                    In (TryPush (fst entry) (snd entry) (Some true)) (calls s'))
                 pairs)
      \/ exists before entry after,
          pairs = (before ++ entry :: after)%list
          /\ Forall (fun entry =>
                       In (TryPush (fst entry) (snd entry) (Some true))
                          (calls s'))
                    after
          /\ ((returncode' = -4
               /\ (extract_hostname_from_git_url (snd entry) = None
                   \/ extract_hostname_from_git_url (snd entry) = Some ""))
              \/ (returncode' = -3
                  /\ exists hostname,
                      extract_hostname_from_git_url (snd entry) = Some hostname
                      /\ In (ConfigureSsh hostname false) (calls s'))
              \/ (returncode' = -5
                  /\ In (TryPush (fst entry) (snd entry) (Some false))
                        (calls s')))).
Proof.
  revert returncode s. induction pairs as [|entry pairs IH];
    intros returncode s; cbn [push_all].
  - intros [= <- <-]. split; [exists []; now rewrite app_nil_r|].
    left. split; [reflexivity|constructor].
  - destruct (push_one host returncode entry s) as [[e|rc1] s1] eqn:E1;
      [discriminate|].
    intros Hall. apply push_one_spec in E1.
    destruct E1 as (chunk & Hc & _ & Hcode).
    apply IH in Hall. destruct Hall as ((more & Hm) & Hrest).
    assert (Hsub : forall c, In c chunk -> In c (calls s')).
    { intros c Hin. rewrite Hm, Hc, !in_app_iff. left. now right. }
    split; [exists (chunk ++ more)%list; now rewrite Hm, Hc, app_assoc|].
    destruct Hrest as [(-> & Hall)|(before & p & after & -> & Hafter & Hp)].
    + destruct Hcode as [(-> & Hin)|Hfail].
      * left. split; [reflexivity|]. constructor; [now apply Hsub|exact Hall].
      * right. exists [], entry, pairs. split; [reflexivity|].
        split; [exact Hall|].
        destruct Hfail as [(-> & Hh)|[(-> & h & Hh & Hin)|(-> & Hin)]].
        -- left. now split.
        -- right. left. split; [reflexivity|]. exists h.
           split; [exact Hh|now apply Hsub].
        -- right. right. split; [reflexivity|now apply Hsub].
    + right. exists (entry :: before), p, after. split; [reflexivity|].
      split; [exact Hafter|exact Hp].
Qed.

End Facts.

End PushReposFacts.

(** X27. The push script checks every configured local path before it
    does anything else: when one of them does not exist, [main] returns
    -2 having run no command, configured no SSH host and pushed nothing,
    whatever the position of the missing path in the configuration. *)
Theorem push_main_checks_every_path_first
        (W : Type) (host : PushRepos.Host W) (w w1 : W)
        (push_needed_repos : list PushRepos.RepoPair)
        (repo_pair : PushRepos.RepoPair) :
  PushRepos.load_config host w = (inr push_needed_repos, w1) ->
  In repo_pair push_needed_repos ->
  PushRepos.os_path_exists host
    (PushRepos.os_path_normpath host (PushRepos.cfg_local_repo_path repo_pair))
    w1 = false ->
  PushRepos.main host w = (-2, PushRepos.mkState w1 []).
Proof.
  intros Hload Hin Hmiss. unfold PushRepos.main. rewrite Hload.
  now rewrite (PushReposFacts.collect_pairs_missing host [] _ _ _ Hin Hmiss).
Qed.

Lemma push_main_checks_every_path_first_witness :
  let repos :=
    (PushRepos.sample_repos
       ++ [PushRepos.mkRepoPair "/srv/ws/gone"
                                "git@mirror.example:team/gone.git"])%list in
  PushRepos.main (PushRepos.sample_host repos) tt
  = (-2, PushRepos.mkState tt []).
Proof.
  intros repos.
  apply (push_main_checks_every_path_first _ (PushRepos.sample_host repos)
           tt tt repos
           (PushRepos.mkRepoPair "/srv/ws/gone"
                                 "git@mirror.example:team/gone.git")).
  - reflexivity.
  - unfold repos. apply in_app_iff. right. now left.
  - reflexivity.
Defined.

(** X28. Once every path exists and [git config] has exited with 0, the
    push script handles every configured entry, in the configured order,
    whatever happened to the pairs before it (nothing being raised): the
    calls [main] makes are the [git config] command and then, for each
    entry in turn, nothing if the URL has no host name, else the SSH
    configuration of its host, followed by one push if that succeeded. *)
Theorem push_main_handles_every_pair
        (W : Type) (host : PushRepos.Host W) (w w1 w2 : W)
        (push_needed_repos : list PushRepos.RepoPair) (out err : string) :
  PushRepos.load_config host w = (inr push_needed_repos, w1) ->
  Forall (fun repo_pair =>
            PushRepos.os_path_exists host
              (PushRepos.os_path_normpath host
                 (PushRepos.cfg_local_repo_path repo_pair)) w1 = true)
         push_needed_repos ->
  PushRepos.run_cmd host PushRepos.git_config_global_coreautocrlf_false_cmd w1
  = (inr (0, out, err), w2) ->
  fst (PushRepos.main host w) <> -1 ->
  exists chunks,
    PushRepos.calls (snd (PushRepos.main host w))
    = PushRepos.RunCmd PushRepos.git_config_global_coreautocrlf_false_cmd
        :: List.concat chunks
    /\ Forall2 PushRepos.pair_calls
               (map (PushRepos.kept_pair host) push_needed_repos) chunks.
Proof.
  intros Hload Hexist Hcmd. unfold PushRepos.main. rewrite Hload.
  rewrite (PushReposFacts.collect_pairs_kept host [] _ _ Hexist).
  cbn [app]. rewrite Hcmd. cbn [Z.eqb negb].
  destruct (PushRepos.push_all host 0 _ _) as [[e|rc] s] eqn:E;
    cbn [fst snd]; [intros H; now contradiction H|].
  intros _. apply PushReposFacts.push_all_calls in E.
  destruct E as (chunks & Hc & Hps). exists chunks. split; [exact Hc|exact Hps].
Qed.

Lemma push_main_handles_every_pair_witness :
  PushRepos.calls
    (snd (PushRepos.main (PushRepos.sample_host PushRepos.sample_repos) tt))
  = [PushRepos.RunCmd ["git"; "config"; "--global"; "core.autocrlf"; "false"];
     PushRepos.ConfigureSsh "broken.example" true;
     PushRepos.TryPush "/srv/ws/app" "git@broken.example:team/app.git"
                       (Some false);
     PushRepos.ConfigureSsh "mirror.example" true;
     PushRepos.TryPush "/srv/ws/app" "git@mirror.example:team/app.git"
                       (Some true)].
Proof.
  destruct (push_main_handles_every_pair _
              (PushRepos.sample_host PushRepos.sample_repos) tt tt tt
              PushRepos.sample_repos "" "" eq_refl)
    as (chunks & _ & _).
  - repeat constructor.
  - reflexivity.
  - vm_compute. discriminate.
  - reflexivity.
Defined.

(** X29. The exit code of the push script is decided by the last entry
    that failed (every path existing, [git config] having exited with 0
    and nothing being raised): either [main] returns 0 and every entry was
    pushed with answer [True], or the configured pairs split around one
    entry after which every entry was pushed with answer [True], and the
    code is -4 when that pair's URL gave no host name, -3 when the SSH
    configuration of its host failed, -5 when its push answered
    [False]. *)
Theorem push_main_exit_code_is_the_last_failure
        (W : Type) (host : PushRepos.Host W) (w w1 w2 : W)
        (push_needed_repos : list PushRepos.RepoPair) (out err : string) :
  PushRepos.load_config host w = (inr push_needed_repos, w1) ->
  Forall (fun repo_pair =>
            PushRepos.os_path_exists host
              (PushRepos.os_path_normpath host
                 (PushRepos.cfg_local_repo_path repo_pair)) w1 = true)
         push_needed_repos ->
  PushRepos.run_cmd host PushRepos.git_config_global_coreautocrlf_false_cmd w1
  = (inr (0, out, err), w2) ->
  fst (PushRepos.main host w) <> -1 ->
  let code := fst (PushRepos.main host w) in
  let made := PushRepos.calls (snd (PushRepos.main host w)) in
  let pushed entry :=
    In (PushRepos.TryPush (fst entry) (snd entry) (Some true)) made in
  (code = 0
   /\ Forall pushed (map (PushRepos.kept_pair host) push_needed_repos))
  \/ exists before entry after,
      map (PushRepos.kept_pair host) push_needed_repos
      = (before ++ entry :: after)%list
      /\ Forall pushed after
      /\ ((code = -4
           /\ (extract_hostname_from_git_url (snd entry) = None
               \/ extract_hostname_from_git_url (snd entry) = Some ""))
          \/ (code = -3
              /\ exists hostname,
                  extract_hostname_from_git_url (snd entry) = Some hostname
                  /\ In (PushRepos.ConfigureSsh hostname false) made)
          \/ (code = -5
              /\ In (PushRepos.TryPush (fst entry) (snd entry) (Some false))
                    made)).
Proof.
  intros Hload Hexist Hcmd. unfold PushRepos.main. rewrite Hload.
  rewrite (PushReposFacts.collect_pairs_kept host [] _ _ Hexist).
  cbn [app]. rewrite Hcmd. cbn [Z.eqb negb].
  destruct (PushRepos.push_all host 0 _ _) as [[e|rc] s] eqn:E;
    cbn [fst snd]; [intros H; now contradiction H|].
  intros _. apply PushReposFacts.push_all_code in E.
  destruct E as (_ & H). exact H.
Qed.

Lemma push_main_exit_code_is_the_last_failure_witness :
  let host :=
    PushRepos.sample_host (rev PushRepos.sample_repos) in
  fst (PushRepos.main host tt) = -5
  /\ In (PushRepos.TryPush "/srv/ws/app" "git@mirror.example:team/app.git"
                           (Some true))
        (PushRepos.calls (snd (PushRepos.main host tt))).
Proof.
  intros host.
  assert (Hcode : fst (PushRepos.main host tt) = -5) by reflexivity.
  split; [exact Hcode|].
  destruct (push_main_exit_code_is_the_last_failure _ host tt tt tt
              (rev PushRepos.sample_repos) "" "" eq_refl)
    as [(H0 & _)|_].
  - repeat constructor.
  - reflexivity.
  - rewrite Hcode. discriminate.
  - rewrite Hcode in H0. discriminate H0.
  - vm_compute. tauto.
Defined.

(** ** init/one-step/make-mirror-git-repo.py: [main] *)

Module MirrorReposFacts.
Import MirrorRepos.

Section Facts.

Context {W : Type}.
Variable host : Host W.

Lemma mirror_all_spec returncode pairs ws (s s' : State W) returncode' :
  mirror_all host returncode pairs ws s = (inr returncode', s') ->
  exists answers,
    List.length answers = List.length pairs
    /\ attempts s'
       = (attempts s
            ++ map (fun pa => (fst (fst pa), snd (fst pa), Some (snd pa)))
                   (combine pairs answers))%list
    /\ returncode' = if forallb (fun made => made) answers
                     then returncode else -2.
Proof.
  revert returncode s. induction pairs as [|[o m] pairs IH];
    intros returncode s; cbn [mirror_all].
  - intros [= <- <-]. exists []. cbn. now rewrite app_nil_r.
  - destruct (try_make_mirror_git_repo host o m ws (world s))
      as [[e|made] w]; [discriminate|].
    intros Hall. apply IH in Hall.
    destruct Hall as (answers & Hlen & Hatt & Hrc). cbn [attempts] in Hatt.
    exists (made :: answers). cbn [List.length combine map forallb fst snd].
    split; [now rewrite Hlen|].
    split; [now rewrite Hatt, <- app_assoc|].
    rewrite Hrc. destruct made; cbn [negb andb]; [reflexivity|].
    now destruct (forallb _ answers).
Qed.

End Facts.

End MirrorReposFacts.

(** X30. The mirror script tries every configured entry once, in the
    configured order, whatever the answers for the pairs before it
    ([git config] having exited with 0 and nothing being raised), and
    its exit code is 0 when every call of [try_make_mirror_git_repo]
    answered [True], -2 as soon as one answered [False]. *)
Theorem mirror_main_tries_every_pair
        (W : Type) (host : MirrorRepos.Host W) (w w1 w2 : W)
        (data : MirrorRepos.Config) (out err : string) :
  MirrorRepos.load_config host w = (inr data, w1) ->
  MirrorRepos.run_cmd host
    ["git"; "config"; "--global"; "core.autocrlf"; "false"] w1
  = (inr (0, out, err), w2) ->
  fst (MirrorRepos.main host w) <> -1 ->
  exists answers,
    List.length answers = List.length (MirrorRepos.mirror_needed_repo_pairs data)
    /\ MirrorRepos.attempts (snd (MirrorRepos.main host w))
       = map (fun pa =>
                (MirrorRepos.origin_repo_ssh_url (fst pa),
                 MirrorRepos.mirror_empty_repo_ssh_url (fst pa),
                 Some (snd pa)))
             (combine (MirrorRepos.mirror_needed_repo_pairs data) answers)
    /\ fst (MirrorRepos.main host w)
       = if forallb (fun made => made) answers then 0 else -2.
Proof.
  intros Hload Hcmd. unfold MirrorRepos.main. rewrite Hload, Hcmd.
  cbn [Z.eqb negb].
  destruct (MirrorRepos.mirror_all host 0 _ _ _) as [[e|rc] s] eqn:E;
    cbn [fst snd]; [intros H; now contradiction H|].
  intros _. apply MirrorReposFacts.mirror_all_spec in E.
  destruct E as (answers & Hlen & Hatt & Hrc). exists answers.
  unfold MirrorRepos.mirror_needed_repo_pair_list in *.
  rewrite length_map in Hlen. split; [exact Hlen|]. split; [|exact Hrc].
  rewrite Hatt. cbn [MirrorRepos.attempts app].
  clear Hatt Hrc. revert answers Hlen.
  induction (MirrorRepos.mirror_needed_repo_pairs data) as [|p l IH];
    intros [|a answers] Hlen; try discriminate Hlen; [reflexivity|].
  cbn [map combine fst snd]. f_equal. apply IH. now injection Hlen.
Qed.

Lemma mirror_main_tries_every_pair_witness :
  let host := MirrorRepos.sample_host MirrorRepos.sample_config in
  fst (MirrorRepos.main host tt) = -2
  /\ MirrorRepos.attempts (snd (MirrorRepos.main host tt))
     = [("git@origin.example:team/app.git",
         "git@broken.example:team/app.git", Some false);
        ("git@origin.example:team/lib.git",
         "git@mirror.example:team/lib.git", Some true)].
Proof.
  intros host.
  assert (Hcode : fst (MirrorRepos.main host tt) = -2) by reflexivity.
  split; [exact Hcode|].
  destruct (mirror_main_tries_every_pair _ host tt tt tt
              MirrorRepos.sample_config "" "" eq_refl eq_refl)
    as (answers & _ & _ & _).
  - rewrite Hcode. discriminate.
  - reflexivity.
Defined.
